(** * wipeEngine.c: a shallow embedding of the wiping engine

    The development follows [src/wipingEngine/wipeEngine.c]: the pattern
    buffer pool, [get_pattern_buffer], [overwrite_pass_simd], [wipe_file],
    the POSIX [wipe_folder_recursive] and the POSIX [wipe_disk_raw].

    The C code talks to the operating system through stdio and POSIX calls
    and never looks at what the write calls return.  The embedding keeps
    that visible: a [world] holds the global buffers, the file system, the
    open descriptors and a plan saying how each coming write call behaves,
    and every primitive appends what it did to a trace. *)

From Stdlib Require Import ZArith Lia String Ascii List.
From stdpp Require Import base option list gmap strings pretty.
Import ListNotations.

Local Set Warnings "-register-all".

Local Open Scope string_scope.
Local Open Scope Z_scope.

(** ** Constants of the source *)

Definition BUFFER_SIZE : Z := 268435456.
Definition MAX_THREADS : nat := 64.
Definition MAX_PATH : nat := 260.

(** [unsigned long long] arithmetic wraps modulo 2^64. *)
Definition u64 (x : Z) : Z := x mod 2 ^ 64.

(** Conversion of an [int] argument to the parameter type [char].  Whether
    plain [char] is signed is fixed by the platform ABI, so it is an
    argument of the model. *)
Definition to_char (char_signed : bool) (v : Z) : Z :=
  if char_signed then (v + 128) mod 256 - 128 else v mod 256.

(** The cast [(unsigned char)pattern]. *)
Definition to_uchar (c : Z) : Z := c mod 256.

(** The character constant ['R']. *)
Definition char_R : Z := 82.

(** [strcmp(a, b) == 0]. *)
Definition strcmp_is_0 (a b : string) : bool := String.eqb a b.

(** ** Data model *)

(** A buffer is read through its index; an unallocated one is [None]
    (the C pointer is [NULL]). *)
Definition buffer := Z -> Z.

(** The global pattern buffers. *)
Record pool := mk_pool {
  g_zero_buffer : option buffer;
  g_ff_buffer : option buffer;
  g_aa_buffer : option buffer;
  g_55_buffer : option buffer;
  g_random_buffer : option buffer;
  g_random_pool : option buffer;
  g_random_pool_size : Z
}.

(** [get_pattern_buffer] returns one of the five global pointers; the
    pointer is kept symbolic so that a later refill of the random buffer is
    seen through it. *)
Inductive gbuf := G_zero | G_ff | G_aa | G_55 | G_random.

Definition deref (p : pool) (g : gbuf) : option buffer :=
  match g with
  | G_zero => g_zero_buffer p
  | G_ff => g_ff_buffer p
  | G_aa => g_aa_buffer p
  | G_55 => g_55_buffer p
  | G_random => g_random_buffer p
  end.

(** A directory entry of the modelled file system: a regular file or a
    block device, with the answers the kernel gives for it. *)
Record file := mk_file {
  f_bytes : Z -> Z;
  f_len : Z;
  f_openable : bool;
  f_seekable : bool;
  f_removable : bool;
  f_dev_size : option Z
}.

(** An open file description: the path it was opened on and its offset. *)
Record ofd := mk_ofd { o_path : string; o_pos : Z }.

(** What the first [printf] of a pass shows. *)
Inductive banner := Random_data | Pattern_byte (b : Z).

Inductive report :=
| Cannot_open | Wiped_and_deleted | Could_not_delete
| Cannot_open_disk | Cannot_size_disk | Disk_wiped.

Inductive event :=
| EvPass (pass_num total_passes : Z) (what : banner)
| EvSeekStart (h : Z)
| EvSetvbuf (h : Z)
| EvWrite (h : Z) (pos req ret : Z)
| EvFflush (h : Z)
| EvFsync (h : Z)
| EvPassDone
| EvOpen (path : string) (h : Z)
| EvClose (h : Z)
| EvRemove (path : string) (ret : Z)
| EvReport (r : report).

(** [io_plan] describes the coming write calls, first call first:
    [Some c] lets the call transfer at most [c] bytes, [None] makes it fail;
    once the plan is used up every call transfers all it is asked to. *)
Record world := mk_world {
  buffers : pool;
  rand_calls : Z;
  fs : gmap string file;
  open_files : gmap Z ofd;
  io_plan : list (option Z);
  trace : list event
}.

Definition set_buffers (p : pool) (w : world) : world :=
  mk_world p (rand_calls w) (fs w) (open_files w) (io_plan w) (trace w).
Definition set_rand_calls (n : Z) (w : world) : world :=
  mk_world (buffers w) n (fs w) (open_files w) (io_plan w) (trace w).
Definition set_fs (m : gmap string file) (w : world) : world :=
  mk_world (buffers w) (rand_calls w) m (open_files w) (io_plan w) (trace w).
Definition set_open_files (m : gmap Z ofd) (w : world) : world :=
  mk_world (buffers w) (rand_calls w) (fs w) m (io_plan w) (trace w).
Definition set_io_plan (l : list (option Z)) (w : world) : world :=
  mk_world (buffers w) (rand_calls w) (fs w) (open_files w) l (trace w).
Definition emit (e : event) (w : world) : world :=
  mk_world (buffers w) (rand_calls w) (fs w) (open_files w) (io_plan w)
           (trace w ++ [e]).

(** ** The state monad the C statements run in *)

Definition M (A : Type) : Type := world -> A * world.

#[global] Instance M_ret : MRet M := fun A a w => (a, w).
#[global] Instance M_bind : MBind M :=
  fun A B k m w => let (a, w') := m w in k a w'.

Definition run {A} (m : M A) (w : world) : world := snd (m w).
Definition result {A} (m : M A) (w : world) : A := fst (m w).
Definition modify (g : world -> world) : M unit := fun w => (tt, g w).
Definition log (e : event) : M unit := modify (emit e).

(** ** The library calls the engine uses *)

Definition lowest_free_fd (tab : gmap Z ofd) : Z :=
  let candidates := map (fun i => 3 + Z.of_nat i) (seq 0 (S (size tab))) in
  default 3 (find (fun d => negb (bool_decide (is_Some (tab !! d)))) candidates).

(** [fopen(path, "r+b")] and [open(path, O_WRONLY)]: the new stream or
    descriptor, or [None] for [NULL] / [-1]. *)
Definition sys_open (path : string) : M (option Z) := fun w =>
  match fs w !! path with
  | Some fl =>
      if f_openable fl then
        let h := lowest_free_fd (open_files w) in
        (Some h, emit (EvOpen path h)
                   (set_open_files (<[h := mk_ofd path 0]> (open_files w)) w))
      else (None, w)
  | None => (None, w)
  end.

Definition set_pos (h : Z) (pos : Z) (w : world) : world :=
  match open_files w !! h with
  | Some o => set_open_files (<[h := mk_ofd (o_path o) pos]> (open_files w)) w
  | None => w
  end.

Definition file_of (h : Z) (w : world) : option file :=
  o ← open_files w !! h; fs w !! o_path o.

(** [fseek(f, 0, SEEK_END)] *)
Definition fseek_end (h : Z) : M unit := fun w =>
  match file_of h w with
  | Some fl => (tt, if f_seekable fl then set_pos h (f_len fl) w else w)
  | None => (tt, w)
  end.

(** [ftello(f)]: the offset, or [-1]. *)
Definition ftello (h : Z) : M Z := fun w =>
  match open_files w !! h, file_of h w with
  | Some o, Some fl => (if f_seekable fl then o_pos o else -1, w)
  | _, _ => (-1, w)
  end.

(** [rewind(f)] and [lseek(fd, 0, SEEK_SET)]. *)
Definition seek_start (h : Z) : M unit :=
  modify (fun w => emit (EvSeekStart h) (set_pos h 0 w)).

Definition setvbuf (h : Z) : M unit := log (EvSetvbuf h).
Definition fflush (h : Z) : M unit := log (EvFflush h).
Definition fsync (h : Z) : M unit := log (EvFsync h).

(** Storing [k] bytes of [buf] at offset [pos]. *)
Definition store (fl : file) (pos k : Z) (buf : buffer) : file :=
  mk_file (fun o => if (pos <=? o) && (o <? pos + k) then buf (o - pos)
                    else f_bytes fl o)
          (Z.max (f_len fl) (pos + k))
          (f_openable fl) (f_seekable fl) (f_removable fl) (f_dev_size fl).

(** [fwrite(buffer, 1, n, f)] and [write(fd, buffer, n)].  The call takes
    the next entry of the plan, transfers that many bytes at the current
    offset, moves the offset by what was transferred and returns it
    ([-1] on failure).  The buffer stdio keeps for a stream is not
    modelled: what [fwrite] accepts reaches the file at once. *)
Definition sys_write (h : Z) (src : gbuf) (n : Z) : M Z := fun w =>
  let cap := match io_plan w with [] => Some n | c :: _ => c end in
  let w1 := set_io_plan (tail (io_plan w)) w in
  match open_files w !! h with
  | Some o =>
      match deref (buffers w) src, cap, fs w !! o_path o with
      | Some buf, Some c, Some fl =>
          let k := Z.min n (Z.max 0 c) in
          (k, emit (EvWrite h (o_pos o) n k)
                (set_pos h (o_pos o + k)
                   (set_fs (<[o_path o := store fl (o_pos o) k buf]> (fs w)) w1)))
      | _, _, _ => (-1, emit (EvWrite h (o_pos o) n (-1)) w1)
      end
  | None => (-1, emit (EvWrite h 0 n (-1)) w1)
  end.

(** [fclose(f)] and [close(fd)]. *)
Definition sys_close (h : Z) : M unit :=
  modify (fun w => emit (EvClose h) (set_open_files (delete h (open_files w)) w)).

(** [remove(path)]: [0] when the entry is gone, [-1] otherwise. *)
Definition remove (path : string) : M Z := fun w =>
  match fs w !! path with
  | Some fl =>
      if f_removable fl
      then (0, emit (EvRemove path 0) (set_fs (delete path (fs w)) w))
      else (-1, emit (EvRemove path (-1)) w)
  | None => (-1, emit (EvRemove path (-1)) w)
  end.

(** [ioctl(fd, BLKGETSIZE64, &disk_size)] *)
Definition ioctl_blkgetsize64 (h : Z) : M (option Z) := fun w =>
  (fl ← file_of h w; f_dev_size fl, w).

Section Engine.

(** Platform facts the source leaves to its environment: the signedness of
    plain [char], and the value the n-th call of [rand()] returns. *)
Variable char_signed : bool.
Variable rand_value : Z -> Z.

(** ** Buffer initialisation *)

Definition fill (c : Z) : buffer := fun _ => c.

(** Byte [i] of a [uint32_t] array seen through [memcpy] (little endian). *)
Definition byte_of_u32s (a : buffer) : buffer :=
  fun i => Z.land (Z.shiftr (a (i / 4)) (8 * (i mod 4))) 255.

(** [init_buffers]; every [aligned_alloc] is taken to succeed, the source
    uses the results unchecked. *)
Definition init_buffers : M unit := fun w =>
  match g_zero_buffer (buffers w) with
  | None =>
      let n := BUFFER_SIZE / 4 in
      let rp : buffer := fun i => rand_value (rand_calls w + i) mod 2 ^ 32 in
      (tt, set_rand_calls (rand_calls w + n)
             (set_buffers
                (mk_pool (Some (fill 0)) (Some (fill 255)) (Some (fill 170))
                         (Some (fill 85)) (Some (byte_of_u32s rp)) (Some rp) n)
                w))
  | Some _ => (tt, w)
  end.

(** [get_pattern_buffer]: the [switch] compares the promoted [char] with
    the [int] case labels. *)
Definition get_pattern_buffer (pattern : Z) : gbuf :=
  if pattern =? 0 then G_zero
  else if pattern =? 255 then G_ff
  else if pattern =? 170 then G_aa
  else if pattern =? 85 then G_55
  else if pattern =? char_R then G_random
  else G_zero.

(** ** The overwrite pass *)

(** The loop [for (i = 0; i < BUFFER_SIZE; i++) g_random_buffer[i] = rand() & 0xFF]. *)
Definition regenerate_random : M unit := fun w =>
  let p := buffers w in
  let base := rand_calls w in
  let refill : buffer := fun i => Z.land (rand_value (base + i)) 255 in
  (tt, set_rand_calls (base + BUFFER_SIZE)
         (set_buffers
            (mk_pool (g_zero_buffer p) (g_ff_buffer p) (g_aa_buffer p)
                     (g_55_buffer p) ((fun _ => refill) <$> g_random_buffer p)
                     (g_random_pool p) (g_random_pool_size p))
            w)).

(** The [while (total_written < size)] loop.  [n] bounds the number of
    iterations; [overwrite_pass_simd] supplies a bound the loop never
    reaches (lemma [write_loop_more_fuel]).  The progress line inside the
    loop only prints and is left out. *)
Fixpoint write_loop (n : nat) (fd : Z) (f : option Z) (buffer : gbuf)
    (size total_written : Z) : M Z :=
  match n with
  | O => mret total_written
  | S n' =>
      if total_written <? size then
        let to_write :=
          if u64 (size - total_written) <? BUFFER_SIZE
          then u64 (size - total_written) else BUFFER_SIZE in
        match f with
        | Some h => sys_write h buffer to_write
        | None => sys_write fd buffer to_write
        end;;
        write_loop n' fd f buffer size (u64 (total_written + to_write))
      else mret total_written
  end.

Definition loop_bound (size : Z) : nat := S (Z.to_nat (size / BUFFER_SIZE)).

Definition overwrite_pass_simd (fd : Z) (f : option Z) (size : Z)
    (pass_num total_passes : Z) (pattern : Z) : M unit :=
  let size := u64 size in
  let pattern := to_char char_signed pattern in
  let buffer := get_pattern_buffer pattern in
  log (EvPass pass_num total_passes
         (if pattern =? char_R then Random_data
          else Pattern_byte (to_uchar pattern)));;
  match f with
  | Some h => seek_start h;; setvbuf h
  | None => seek_start fd
  end;;
  (if pattern =? char_R then regenerate_random else mret tt);;
  write_loop (loop_bound size) fd f buffer size 0;;
  match f with
  | Some h => fflush h;; fsync h
  | None => mret tt
  end;;
  log EvPassDone.

(** ** Wiping one file *)

Definition wipe_file (filepath method : string) (is_part_of_folder : Z) : M Z :=
  f ← sys_open filepath;
  match f with
  | None => log (EvReport Cannot_open);; mret 1
  | Some f =>
      fseek_end f;;
      file_size ← ftello f;
      seek_start f;;
      (if 0 <? file_size then
         if strcmp_is_0 method "--clear" then
           overwrite_pass_simd 0 (Some f) file_size 1 1 0
         else if strcmp_is_0 method "--purge" then
           overwrite_pass_simd 0 (Some f) file_size 1 3 0;;
           overwrite_pass_simd 0 (Some f) file_size 2 3 255;;
           overwrite_pass_simd 0 (Some f) file_size 3 3 char_R
         else if strcmp_is_0 method "--destroy-sw" then
           overwrite_pass_simd 0 (Some f) file_size 1 7 0;;
           overwrite_pass_simd 0 (Some f) file_size 2 7 255;;
           overwrite_pass_simd 0 (Some f) file_size 3 7 0;;
           overwrite_pass_simd 0 (Some f) file_size 4 7 170;;
           overwrite_pass_simd 0 (Some f) file_size 5 7 85;;
           overwrite_pass_simd 0 (Some f) file_size 6 7 170;;
           overwrite_pass_simd 0 (Some f) file_size 7 7 char_R
         else mret tt
       else mret tt);;
      sys_close f;;
      r ← remove filepath;
      if r =? 0 then log (EvReport Wiped_and_deleted);; mret 0
      else log (EvReport Could_not_delete);; mret 1
  end.

(** ** Wiping a raw device (POSIX branch)

    The source calls [overwrite_pass], a name it does not define; the only
    pass routine of the file is [overwrite_pass_simd].  The callee is
    therefore an argument of [wipe_disk_raw]. *)
Section Disk.

Variable overwrite_pass : Z -> option Z -> Z -> Z -> Z -> Z -> M unit.

Definition wipe_disk_raw (disk_path method : string) : M Z :=
  fd ← sys_open disk_path;
  match fd with
  | None => log (EvReport Cannot_open_disk);; mret 1
  | Some fd =>
      sz ← ioctl_blkgetsize64 fd;
      match sz with
      | None => log (EvReport Cannot_size_disk);; sys_close fd;; mret 1
      | Some disk_size =>
          (if strcmp_is_0 method "--clear" then
             overwrite_pass fd None disk_size 1 1 0
           else if strcmp_is_0 method "--purge" then
             overwrite_pass fd None disk_size 1 3 0;;
             overwrite_pass fd None disk_size 2 3 255;;
             overwrite_pass fd None disk_size 3 3 char_R
           else if strcmp_is_0 method "--destroy-sw" then
             mret tt
           else mret tt);;
          sys_close fd;;
          log (EvReport Disk_wiped);;
          mret 0
      end
  end.

End Disk.

End Engine.

(** ** The recursive folder wipe (POSIX branch)

    The scheduler is sequential code that creates and joins threads; its
    model records those two actions.  A directory is given by what
    [readdir] yields, in that order, each entry with the answers of [stat],
    [malloc] and [opendir] for it. *)

Inductive node :=
| Unstatable (d_name : string)
| Regular (d_name : string) (malloc_ok : bool)
| Directory (d_name : string) (opendir_ok : bool) (entries : list node).

Definition d_name_of (e : node) : string :=
  match e with
  | Unstatable n => n
  | Regular n _ => n
  | Directory n _ _ => n
  end.

Record WipeFileInfo := mk_info { filepath : string; method : string }.

Inductive sched_event :=
| Spawn (tid : nat) (info : WipeFileInfo)
| Join (tid : nat)
| Rmdir (path : string).

(** The scheduler's state: how many threads were created so far (the next
    thread's identifier) and what it has done. *)
Record sched := mk_sched { created : nat; actions : list sched_event }.

(** The locals of one activation of [wipe_folder_recursive]. *)
Record frame := mk_frame {
  hThreads : list nat;
  thread_count : nat;
  sch : sched
}.

Definition new_frame (s : sched) : frame :=
  mk_frame (replicate MAX_THREADS 0%nat) 0 s.

(** [snprintf(fullPath, MAX_PATH, "%s/%s", basePath, name)] keeps at most
    [MAX_PATH - 1] characters. *)
Definition snprintf_path (basePath name : string) : string :=
  String.substring 0 (MAX_PATH - 1) (basePath +:+ "/" +:+ name).

(** [strncpy(dst, src, n)] for the two fields of [WipeFileInfo]. *)
Definition strncpy (src : string) (n : nat) : string := String.substring 0 n src.

(** [pthread_create], taken to succeed (the source does not look at its
    result); the new thread's identifier is its rank. *)
Definition pthread_create (info : WipeFileInfo) (s : sched) : nat * sched :=
  (created s, mk_sched (S (created s)) (actions s ++ [Spawn (created s) info])).

(** [for (i = 0; i < thread_count; i++) pthread_join(hThreads[i], NULL)] *)
Definition join_all (fr : frame) : sched :=
  mk_sched (created (sch fr))
           (actions (sch fr) ++ map Join (take (thread_count fr) (hThreads fr))).

Definition rmdir (path : string) (s : sched) : sched :=
  mk_sched (created s) (actions s ++ [Rmdir path]).

(** What follows the [readdir] loop: join what is left, remove the directory. *)
Definition finish (basePath : string) (fr : frame) : sched :=
  rmdir basePath
    (if (0 <? thread_count fr)%nat then join_all fr else sch fr).

(** One iteration of the [readdir] loop, for the entry [e]. *)
Fixpoint visit (basePath meth : string) (e : node) (fr : frame) {struct e} : frame :=
  if strcmp_is_0 (d_name_of e) "." || strcmp_is_0 (d_name_of e) ".." then fr
  else
    let fullPath := snprintf_path basePath (d_name_of e) in
    match e with
    | Unstatable _ => fr
    | Directory _ opendir_ok sub =>
        let s :=
          if opendir_ok then
            finish fullPath
              ((fix scan (l : list node) (acc : frame) : frame :=
                  match l with
                  | [] => acc
                  | e' :: l' => scan l' (visit fullPath meth e' acc)
                  end) sub (new_frame (sch fr)))
          else sch fr in
        mk_frame (hThreads fr) (thread_count fr) s
    | Regular _ malloc_ok =>
        if malloc_ok then
          let info := mk_info (strncpy fullPath MAX_PATH) (strncpy meth 20) in
          let (tid, s) := pthread_create info (sch fr) in
          let fr1 := mk_frame (<[thread_count fr := tid]> (hThreads fr))
                              (S (thread_count fr)) s in
          if (thread_count fr1 =? MAX_THREADS)%nat
          then mk_frame (hThreads fr1) 0 (join_all fr1)
          else fr1
        else fr
    end.

Definition readdir_loop (basePath meth : string) (entries : list node)
    (fr : frame) : frame :=
  fold_left (fun acc e => visit basePath meth e acc) entries fr.

(** [wipe_folder_recursive]; [listing] is [None] when [opendir] fails. *)
Definition wipe_folder_recursive (basePath meth : string)
    (listing : option (list node)) (s : sched) : Z * sched :=
  match listing with
  | None => (1, s)
  | Some entries =>
      (0, finish basePath (readdir_loop basePath meth entries (new_frame s)))
  end.

(** The thread body [wipe_file_thread]. *)
Definition wipe_file_thread (char_signed : bool) (rand_value : Z -> Z)
    (info : WipeFileInfo) : M unit :=
  wipe_file char_signed rand_value (filepath info) (method info) 1;; mret tt.

(** Threads created and not yet joined, after a sequence of actions. *)
Definition in_flight_step (n : nat) (a : sched_event) : nat :=
  match a with
  | Spawn _ _ => S n
  | Join _ => Nat.pred n
  | Rmdir _ => n
  end.

Definition in_flight (l : list sched_event) : nat :=
  fold_left in_flight_step l 0%nat.

(** The largest number in flight at any moment of the run. *)
Definition peak_step (st : nat * nat) (a : sched_event) : nat * nat :=
  let cur := in_flight_step (fst st) a in (cur, Nat.max (snd st) cur).

Definition peak_in_flight (l : list sched_event) : nat :=
  snd (fold_left peak_step l (0%nat, 0%nat)).

(** * Vocabulary of the statements *)

(** ** Reading a trace *)

(** What a run from [w] to [w'] appended to the trace. *)
Definition events_since (w w' : world) : list event :=
  drop (length (trace w)) (trace w').

Definition write_request (e : event) : option Z :=
  match e with EvWrite _ _ req _ => Some req | _ => None end.

(** The byte counts asked of the write calls, in order. *)
Definition write_requests (l : list event) : list Z := omap write_request l.

Definition pass_of (e : event) : option (Z * Z * banner) :=
  match e with EvPass n t b => Some (n, t, b) | _ => None end.

(** The passes announced, in order: number, total and pattern. *)
Definition passes_of (l : list event) : list (Z * Z * banner) := omap pass_of l.

Definition is_flush (e : event) : bool :=
  match e with EvFflush _ | EvFsync _ => true | _ => false end.

Definition is_write (e : event) : bool :=
  match e with EvWrite _ _ _ _ => true | _ => false end.

Definition is_pass_event (e : event) : bool :=
  match e with
  | EvPass _ _ _ | EvSeekStart _ | EvSetvbuf _ | EvWrite _ _ _ _
  | EvFflush _ | EvFsync _ | EvPassDone => true
  | _ => false
  end.


(** The stream or descriptor a pass writes to. *)
Definition target (fd : Z) (f : option Z) : Z :=
  match f with Some h => h | None => fd end.

Definition write_on (h : Z) (e : event) : Prop :=
  match e with EvWrite h' _ _ _ => h' = h | _ => False end.

(** A write of [snd r] bytes at offset [fst r] that transferred them all. *)
Definition write_event (h : Z) (r : Z * Z) : event :=
  EvWrite h (fst r) (snd r) (snd r).

(** A trace in which every write that returned less than it was asked is
    followed at once by a write, on the same target, for what is left. *)
Fixpoint reissues_remainder (l : list event) : bool :=
  match l with
  | [] => true
  | EvWrite h _ req ret :: rest =>
      (if ret <? req then
         match rest with
         | EvWrite h' _ req' _ :: _ => (h' =? h) && (req' =? req - Z.max 0 ret)
         | _ => false
         end
       else true) && reissues_remainder rest
  | _ :: rest => reissues_remainder rest
  end.

(** ** What a pass is expected to ask for *)

(** The requests for [size] bytes: full chunks, then what is left. *)
Definition chunk_list (size : Z) : list Z :=
  (replicate (Z.to_nat (size / BUFFER_SIZE)) BUFFER_SIZE ++
  (if size mod BUFFER_SIZE =? 0 then [] else [size mod BUFFER_SIZE]))%list.

Definition sumZ (l : list Z) : Z := fold_right Z.add 0 l.

(** The byte ranges [(offset, length)] written by consecutive requests
    that start at [off]. *)
Fixpoint ranges_from (off : Z) (lens : list Z) : list (Z * Z) :=
  match lens with
  | [] => []
  | l :: ls => (off, l) :: ranges_from (off + l) ls
  end.

Definition covers (o : Z) (r : Z * Z) : bool :=
  (fst r <=? o) && (o <? fst r + snd r).

(** What the banner of a pass shows for the argument [pattern]. *)
Definition banner_of (char_signed : bool) (pattern : Z) : banner :=
  if to_char char_signed pattern =? char_R then Random_data
  else Pattern_byte (to_uchar (to_char char_signed pattern)).

Definition pass_prologue (fd : Z) (f : option Z) : list event :=
  match f with
  | Some h => [EvSeekStart h; EvSetvbuf h]
  | None => [EvSeekStart fd]
  end.

Definition pass_epilogue (f : option Z) : list event :=
  match f with
  | Some h => [EvFflush h; EvFsync h]
  | None => []
  end.

(** ** What [wipe_file] is expected to announce *)

Definition expected_passes (cs : bool) (meth : string) : list (Z * Z * banner) :=
  if strcmp_is_0 meth "--clear" then [(1, 1, banner_of cs 0)]
  else if strcmp_is_0 meth "--purge" then
    [(1, 3, banner_of cs 0); (2, 3, banner_of cs 255); (3, 3, banner_of cs char_R)]
  else if strcmp_is_0 meth "--destroy-sw" then
    [(1, 7, banner_of cs 0); (2, 7, banner_of cs 255); (3, 7, banner_of cs 0);
     (4, 7, banner_of cs 170); (5, 7, banner_of cs 85); (6, 7, banner_of cs 170);
     (7, 7, banner_of cs char_R)]
  else [].

(** What the kernel answers for a file, as opposed to what it stores. *)
Definition file_flags (fl : file) : bool * bool * bool * option Z :=
  (f_openable fl, f_seekable fl, f_removable fl, f_dev_size fl).

(** A piece of code that only runs passes: it announces [sched], appends
    pass events only (none when it announces no pass), and leaves every
    file's flags as they were. *)
Definition pass_block (m : M unit) (sched : list (Z * Z * banner)) : Prop :=
  forall w,
    file_flags <$> fs (run m w) = file_flags <$> fs w /\
    exists evs,
      trace (run m w) = (trace w ++ evs)%list /\
      passes_of evs = sched /\
      forallb is_pass_event evs = true /\
      (sched = [] -> evs = []).

(** ** The scheduler, level by level *)

Definition not_directory (e : node) : Prop :=
  match e with Directory _ _ _ => False | _ => True end.

(** Threads in flight now, and at most so far. *)
Definition tally (s : sched) : nat * nat :=
  fold_left peak_step (actions s) (0%nat, 0%nat).

(** What holds between two iterations of the [readdir] loop when the
    frame started with nothing in flight. *)
Definition level_ok (fr : frame) : Prop :=
  length (hThreads fr) = MAX_THREADS /\
  (thread_count fr < MAX_THREADS)%nat /\
  fst (tally (sch fr)) = thread_count fr /\
  (snd (tally (sch fr)) <= MAX_THREADS)%nat.

(** ** Sample worlds, used to run the definitions *)

(** A linear congruential generator standing for [rand()]. *)
Definition lcg (i : Z) : Z := (i * 1103515245 + 12345) mod 2147483648.

Definition empty_pool : pool := mk_pool None None None None None None 0.

(** A ten-byte file of ['A'] characters. *)
Definition ten_As : file := mk_file (fun _ => 65) 10 true true true None.

(** A block device of 600 000 000 bytes, a bit more than two chunks. *)
Definition small_disk : file :=
  mk_file (fun _ => 65) 600000000 true true false (Some 600000000).

(** Both entries in one file system, the buffers initialised, and [plan]
    for the write calls to come. *)
Definition sample_world (plan : list (option Z)) : world :=
  run (init_buffers lcg)
      (mk_world empty_pool 0
         (<["/dev/sdz" := small_disk]> {["a.bin" := ten_As]}) ∅ plan []).

(** The same world with the device opened as descriptor 3. *)
Definition disk_opened : world :=
  mk_world (buffers (sample_world [])) (rand_calls (sample_world []))
           (fs (sample_world [])) {[3 := mk_ofd "/dev/sdz" 0]} [] [].

(** The same, with [plan] for the write calls to come. *)
Definition disk_opened_with (plan : list (option Z)) : world :=
  set_io_plan plan disk_opened.

(** The sample world with [a.bin] opened as stream 3. *)
Definition file_opened (plan : list (option Z)) : world :=
  mk_world (buffers (sample_world [])) (rand_calls (sample_world []))
           (fs (sample_world [])) {[3 := mk_ofd "a.bin" 0]} plan [].

(** A removable empty file added to the sample world. *)
Definition empty_file : file := mk_file (fun _ => 0) 0 true true true None.

Definition world_with_empty_file : world :=
  set_fs (<["empty.txt" := empty_file]> (fs (sample_world []))) (sample_world []).



Definition numbered_files (n : nat) : list node :=
  map (fun i => Regular ("f" +:+ pretty i) true) (seq 0 n).

(** A directory whose listing yields 63 files and then a sub-directory
    holding two files. *)
Definition crowded_tree : list node :=
  (numbered_files 63 ++ [Directory "sub" true (numbered_files 2)])%list.

(** * The rest of the engine *)

(** ** The SIMD fill and copy routines *)

(** Memory as the fill and copy routines see it: the byte at each
    address. *)
Definition mem := Z -> Z.

(** [n] bytes of value [b] stored from address [p] on. *)
Definition store_run (p n b : Z) (m : mem) : mem :=
  fun a => if (p <=? a) && (a <? p + n) then b else m a.

(** [n] bytes read from [s] on and stored from [d] on. *)
Definition copy_run (d s n : Z) (m : mem) : mem :=
  fun a => if (d <=? a) && (a <? d + n) then m (s + (a - d)) else m a.

(** libc [memset(s, c, n)]: [c] is converted to [unsigned char]. *)
Definition memset (s c n : Z) (m : mem) : mem := store_run s n (c mod 256) m.

(** libc [memcpy(dst, src, n)], for regions that do not overlap. *)
Definition memcpy (d s n : Z) (m : mem) : mem := copy_run d s n m.

(** [_mm512_stream_si512(p, v)], every lane of [v] being [b]: a store of
    64 bytes that faults unless [p] is 64-byte aligned. *)
Definition stream_si512 (p b : Z) (m : mem) : option mem :=
  if p mod 64 =? 0 then Some (store_run p 64 b m) else None.

(** [_mm256_storeu_si256(p, v)]: 32 bytes, any alignment. *)
Definition storeu_si256 (p b : Z) (m : mem) : mem := store_run p 32 b m.

(** [_mm256_stream_si256(d, _mm256_loadu_si256(s))]: 32 bytes loaded from
    [s] and stored at [d]; the store faults unless [d] is 32-byte aligned. *)
Definition stream_si256_from (d s : Z) (m : mem) : option mem :=
  if d mod 32 =? 0 then Some (copy_run d s 32 m) else None.

(** [while (n >= 64) { _mm512_stream_si512(p, v); p += 64; n -= 64; }] *)
Fixpoint avx512_chunks (k : nat) (p n b : Z) (m : mem) : option (Z * Z * mem) :=
  match k with
  | O => Some (p, n, m)
  | S k' =>
      if 64 <=? n then
        m' ← stream_si512 p b m; avx512_chunks k' (p + 64) (n - 64) b m'
      else Some (p, n, m)
  end.

(** [while (n >= 32) { _mm256_storeu_si256(p, v); p += 32; n -= 32; }] *)
Fixpoint avx2_chunks (k : nat) (p n b : Z) (m : mem) : Z * Z * mem :=
  match k with
  | O => (p, n, m)
  | S k' =>
      if 32 <=? n then avx2_chunks k' (p + 32) (n - 32) b (storeu_si256 p b m)
      else (p, n, m)
  end.

(** [while (n > 0) { *p++ = c; n--; }] *)
Fixpoint tail_bytes (k : nat) (p n c : Z) (m : mem) : mem :=
  match k with
  | O => m
  | S k' =>
      if 0 <? n then tail_bytes k' (p + 1) (n - 1) c (store_run p 1 (c mod 256) m)
      else m
  end.

(** [memset_avx512]; [have_avx512] says whether [__AVX512F__] is defined.
    The loops get bounds they never reach ([n / 64] chunks, then fewer
    than 64 bytes). *)
Definition memset_avx512 (have_avx512 : bool) (s c n : Z) (m : mem) : option mem :=
  if have_avx512 then
    r ← avx512_chunks (S (Z.to_nat (n / 64))) s n (c mod 256) m;
    Some (tail_bytes (S (Z.to_nat (snd (fst r)))) (fst (fst r)) (snd (fst r)) c (snd r))
  else Some (memset s c n m).

(** [memset_avx2]; [have_avx2] says whether [__AVX2__] is defined. *)
Definition memset_avx2 (have_avx2 : bool) (s c n : Z) (m : mem) : mem :=
  if have_avx2 then
    let r := avx2_chunks (S (Z.to_nat (n / 32))) s n (c mod 256) m in
    tail_bytes (S (Z.to_nat (snd (fst r)))) (fst (fst r)) (snd (fst r)) c (snd r)
  else memset s c n m.

(** The loop of [memcpy_avx2_streaming]. *)
Fixpoint avx2_copy_chunks (k : nat) (d s n : Z) (m : mem) : option (Z * Z * Z * mem) :=
  match k with
  | O => Some (d, s, n, m)
  | S k' =>
      if 32 <=? n then
        m' ← stream_si256_from d s m; avx2_copy_chunks k' (d + 32) (s + 32) (n - 32) m'
      else Some (d, s, n, m)
  end.

(** [memcpy_avx2_streaming] *)
Definition memcpy_avx2_streaming (have_avx2 : bool) (dst src n : Z) (m : mem) : option mem :=
  if have_avx2 then
    r ← avx2_copy_chunks (S (Z.to_nat (n / 32))) dst src n m;
    match r with (d, s, n', m1) => Some (memcpy d s n' m1) end
  else Some (memcpy dst src n m).

(** ** What a pass may touch *)

(** [fl'] differs from [fl] at most in the bytes of [[lo, hi)]: bytes
    elsewhere, the kernel's answers and the length (up to growth to [hi])
    are those of [fl]. *)
Definition within (lo hi : Z) (fl fl' : file) : Prop :=
  (forall o, ~ (lo <= o < hi) -> f_bytes fl' o = f_bytes fl o) /\
  f_len fl <= f_len fl' /\
  f_len fl' <= Z.max (f_len fl) hi /\
  file_flags fl' = file_flags fl.

(** The four fixed buffers as [init_buffers] fills them, and a random
    buffer that is allocated. *)
Definition pool_filled (p : pool) : Prop :=
  g_zero_buffer p = Some (fill 0) /\
  g_ff_buffer p = Some (fill 255) /\
  g_aa_buffer p = Some (fill 170) /\
  g_55_buffer p = Some (fill 85) /\
  is_Some (g_random_buffer p).

(** The byte a pass called with [pattern] leaves at offset [o], when
    [calls] values were drawn from [rand()] before the pass. *)
Definition pass_byte (cs : bool) (rv : Z -> Z) (calls : Z) (pattern : Z) (o : Z) : Z :=
  match get_pattern_buffer (to_char cs pattern) with
  | G_zero => 0
  | G_ff => 255
  | G_aa => 170
  | G_55 => 85
  | G_random => Z.land (rv (calls + o mod BUFFER_SIZE)) 255
  end.

(** ** [wipe_file] in three parts *)

(** The method dispatch of [wipe_file] on the open stream [f]. *)
Definition file_passes (cs : bool) (rv : Z -> Z) (meth : string) (f file_size : Z)
    : M unit :=
  if 0 <? file_size then
    if strcmp_is_0 meth "--clear" then
      overwrite_pass_simd cs rv 0 (Some f) file_size 1 1 0
    else if strcmp_is_0 meth "--purge" then
      overwrite_pass_simd cs rv 0 (Some f) file_size 1 3 0;;
      overwrite_pass_simd cs rv 0 (Some f) file_size 2 3 255;;
      overwrite_pass_simd cs rv 0 (Some f) file_size 3 3 char_R
    else if strcmp_is_0 meth "--destroy-sw" then
      overwrite_pass_simd cs rv 0 (Some f) file_size 1 7 0;;
      overwrite_pass_simd cs rv 0 (Some f) file_size 2 7 255;;
      overwrite_pass_simd cs rv 0 (Some f) file_size 3 7 0;;
      overwrite_pass_simd cs rv 0 (Some f) file_size 4 7 170;;
      overwrite_pass_simd cs rv 0 (Some f) file_size 5 7 85;;
      overwrite_pass_simd cs rv 0 (Some f) file_size 6 7 170;;
      overwrite_pass_simd cs rv 0 (Some f) file_size 7 7 char_R
    else mret tt
  else mret tt.

(** What follows the dispatch: [fclose], [remove], the report. *)
Definition close_and_remove (filepath : string) (f : Z) : M Z :=
  sys_close f;;
  r ← remove filepath;
  if r =? 0 then log (EvReport Wiped_and_deleted);; mret 0
  else log (EvReport Could_not_delete);; mret 1.

(** The four buffers that are filled once and only read afterwards. *)
Definition fixed_buffers (p : pool)
    : option buffer * option buffer * option buffer * option buffer :=
  (g_zero_buffer p, g_ff_buffer p, g_aa_buffer p, g_55_buffer p).

(** A program that, run on stream [h] of the file at [path], changes
    that file within its first [size] bytes and nothing else of the file
    system, of the other descriptors or of the fixed buffers. *)
Definition confined (h : Z) (path : string) (size : Z) (m : M unit) : Prop :=
  forall w pos fl,
    open_files w !! h = Some (mk_ofd path pos) ->
    fs w !! path = Some fl ->
    exists pos' fl',
      open_files (run m w) !! h = Some (mk_ofd path pos') /\
      fs (run m w) !! path = Some fl' /\
      within 0 size fl fl' /\
      (forall p, p <> path -> fs (run m w) !! p = fs w !! p) /\
      (forall h', h' <> h -> open_files (run m w) !! h' = open_files w !! h') /\
      fixed_buffers (buffers (run m w)) = fixed_buffers (buffers w).

(** ** A run of passes without write faults *)

(** Stream [h] is open on the file at [path], no write fault is
    planned and the pool is filled. *)
Definition ready (h : Z) (path : string) (w : world) : Prop :=
  (exists pos, open_files w !! h = Some (mk_ofd path pos)) /\
  is_Some (fs w !! path) /\
  io_plan w = [] /\
  pool_filled (buffers w).

(** [m] keeps the world ready and draws nothing from [rand()]. *)
Definition neutral (h : Z) (path : string) (m : M unit) : Prop :=
  forall w, ready h path w ->
    ready h path (run m w) /\ rand_calls (run m w) = rand_calls w.

(** [m] leaves [byte calls o] at every offset [o] below [size], [calls]
    being the number of values drawn from [rand()] before [m]. *)
Definition ends_with (h : Z) (path : string) (size : Z) (byte : Z -> Z -> Z)
    (m : M unit) : Prop :=
  forall w, ready h path w ->
    exists fl',
      fs (run m w) !! path = Some fl' /\
      forall o, 0 <= o < size -> f_bytes fl' o = byte (rand_calls w) o.

(** The byte the last pass of a method leaves at offset [o]. *)
Definition last_pass_byte (rv : Z -> Z) (meth : string) (calls o : Z) : Z :=
  if strcmp_is_0 meth "--clear" then 0
  else Z.land (rv (calls + o mod BUFFER_SIZE)) 255.

(** ** [wipe_disk_raw] in parts *)

(** The method dispatch of [wipe_disk_raw] on descriptor [fd], with
    [op] for the pass routine. *)
Definition disk_passes (op : Z -> option Z -> Z -> Z -> Z -> Z -> M unit)
    (meth : string) (fd disk_size : Z) : M unit :=
  if strcmp_is_0 meth "--clear" then
    op fd None disk_size 1 1 0
  else if strcmp_is_0 meth "--purge" then
    op fd None disk_size 1 3 0;;
    op fd None disk_size 2 3 255;;
    op fd None disk_size 3 3 char_R
  else if strcmp_is_0 meth "--destroy-sw" then mret tt
  else mret tt.

(** The world right after [open] succeeded with descriptor [h]. *)
Definition just_opened (path : string) (h : Z) (w : world) : world :=
  emit (EvOpen path h) (set_open_files (<[h := mk_ofd path 0]> (open_files w)) w).

(** The world in which [wipe_file] reaches its method dispatch: the file
    is open as stream [h], its size has been taken and the stream is back
    at offset 0. *)
Definition measured (path : string) (h : Z) (w : world) : world :=
  emit (EvSeekStart h) (just_opened path h w).

(** ** Directory trees of any depth *)

(** How many directory levels lie below an entry. *)
Fixpoint depth (e : node) : nat :=
  match e with
  | Directory _ _ sub => S (list_max (map depth sub))
  | _ => 0
  end.

(** The number of nested directory levels in a listing. *)
Definition levels (entries : list node) : nat := list_max (map depth entries).

(** The locals of an activation that started with [b] threads in flight:
    [thread_count] more are in flight now, fewer than [MAX_THREADS], and
    never more than [top] were. *)
Definition frame_ok (b top : nat) (fr : frame) : Prop :=
  length (hThreads fr) = MAX_THREADS /\
  (thread_count fr < MAX_THREADS)%nat /\
  fst (tally (sch fr)) = (b + thread_count fr)%nat /\
  (snd (tally (sch fr)) <= top)%nat.

(** [visit] keeps [frame_ok], the ceiling rising with the depth of the
    entry. *)
Definition visit_ok (e : node) : Prop :=
  forall basePath meth fr b top,
    frame_ok b top fr ->
    frame_ok b (Nat.max top (b + 64 + 63 * depth e)) (visit basePath meth e fr).

(** ** The tasks a tree gives rise to *)

(** The tasks [wipe_folder_recursive] is expected to hand to threads for
    one entry: one per regular file, in [readdir] order, sub-directories
    included where they open. *)
Fixpoint tasks_of (basePath meth : string) (e : node) : list WipeFileInfo :=
  if strcmp_is_0 (d_name_of e) "." || strcmp_is_0 (d_name_of e) ".." then []
  else
    match e with
    | Unstatable _ => []
    | Regular n malloc_ok =>
        if malloc_ok
        then [mk_info (strncpy (snprintf_path basePath n) MAX_PATH) (strncpy meth 20)]
        else []
    | Directory n opendir_ok sub =>
        if opendir_ok
        then flat_map (tasks_of (snprintf_path basePath n) meth) sub
        else []
    end.

Definition spawn_of (a : sched_event) : option (nat * WipeFileInfo) :=
  match a with Spawn t i => Some (t, i) | _ => None end.

Definition join_of (a : sched_event) : option nat :=
  match a with Join t => Some t | _ => None end.

(** The threads created, with their tasks, and the threads joined, in
    order. *)
Definition spawns (l : list sched_event) : list (nat * WipeFileInfo) := omap spawn_of l.
Definition joins (l : list sched_event) : list nat := omap join_of l.

(** The scheduler state is sound with [pend] the threads still held by
    the activations in progress: threads are numbered from 0 in the order
    of creation, and each is either joined (once) or pending. *)
Definition sched_ok (pend : list nat) (s : sched) : Prop :=
  map fst (spawns (actions s)) = seq 0 (created s) /\
  (joins (actions s) ++ pend)%list ≡ₚ seq 0 (created s).

Definition frame_sound (pend : list nat) (fr : frame) : Prop :=
  length (hThreads fr) = MAX_THREADS /\
  (thread_count fr < MAX_THREADS)%nat /\
  sched_ok (take (thread_count fr) (hThreads fr) ++ pend)%list (sch fr).

Definition visit_sound (e : node) : Prop :=
  forall basePath meth fr pend,
    frame_sound pend fr ->
    frame_sound pend (visit basePath meth e fr) /\
    map snd (spawns (actions (sch (visit basePath meth e fr))))
    = (map snd (spawns (actions (sch fr))) ++ tasks_of basePath meth e)%list.

(** The directories [wipe_folder_recursive] is expected to call [rmdir]
    on for one entry: the sub-directories that open, each after those
    inside it. *)
Fixpoint rmdirs_of (basePath : string) (e : node) : list string :=
  if strcmp_is_0 (d_name_of e) "." || strcmp_is_0 (d_name_of e) ".." then []
  else
    match e with
    | Directory n opendir_ok sub =>
        if opendir_ok
        then (flat_map (rmdirs_of (snprintf_path basePath n)) sub
                ++ [snprintf_path basePath n])%list
        else []
    | _ => []
    end.

Definition rmdir_of (a : sched_event) : option string :=
  match a with Rmdir p => Some p | _ => None end.

Definition rmdirs (l : list sched_event) : list string := omap rmdir_of l.

Definition visit_rmdirs (e : node) : Prop :=
  forall basePath meth fr,
    rmdirs (actions (sch (visit basePath meth e fr)))
    = (rmdirs (actions (sch fr)) ++ rmdirs_of basePath e)%list.

(** ** The entry point *)

(** [cleanup_buffers] hands the allocated buffers to [free] and leaves
    the six pointers as they are; released memory has no counterpart in
    [world], so the world is left as it is. *)
Definition cleanup_buffers : M unit := mret tt.

Section Main.

Variable char_signed : bool.

(** [rand_seq seed n]: the value of call [n] of [rand()] after [srand(seed)];
    before any [srand] the seed is 1.  [now] is what [time(NULL)] returns. *)
Variable rand_seq : Z -> Z -> Z.
Variable now : Z.

(** The pass routine [wipe_disk_raw] calls, and [wipe_folder_recursive]
    together with the threads it starts, whose interleaving with the
    scheduler is outside this model. *)
Variable overwrite_pass : Z -> option Z -> Z -> Z -> Z -> Z -> M unit.
Variable folder_wipe : string -> string -> M Z.

(** [main]; [argv] holds the [argc] arguments, program name first. *)
Definition main (argv : list string) : M Z :=
  if negb (length argv =? 4)%nat then mret 1
  else
    let type := nth 1 argv "" in
    let path := nth 2 argv "" in
    let method := nth 3 argv "" in
    init_buffers (rand_seq 1);;
    modify (set_rand_calls 0);;
    r ← (if strcmp_is_0 type "--file" then
           wipe_file char_signed (rand_seq (now mod 2 ^ 32)) path method 0
         else if strcmp_is_0 type "--folder" then
           folder_wipe path method
         else if strcmp_is_0 type "--disk" then
           wipe_disk_raw overwrite_pass path method
         else mret 1);
    cleanup_buffers;;
    mret r.

End Main.

(** * Proofs *)

(** ** The monad and the trace *)

Lemma run_bind {A B} (m : M A) (k : A -> M B) w :
  run (m ≫= k) w = run (k (result m w)) (run m w).
Proof. unfold run, result, mbind, M_bind. destruct (m w); reflexivity. Qed.

Lemma result_bind {A B} (m : M A) (k : A -> M B) w :
  result (m ≫= k) w = result (k (result m w)) (run m w).
Proof. unfold run, result, mbind, M_bind. destruct (m w); reflexivity. Qed.

Lemma run_ret {A} (a : A) w : run (mret a) w = w.
Proof. reflexivity. Qed.

Lemma result_ret {A} (a : A) w : result (mret a : M A) w = a.
Proof. reflexivity. Qed.

Lemma trace_log e w : trace (run (log e) w) = (trace w ++ [e])%list.
Proof. reflexivity. Qed.

Lemma events_since_app w w' evs :
  trace w' = (trace w ++ evs)%list -> events_since w w' = evs.
Proof. intros H. unfold events_since. rewrite H. apply drop_app_length. Qed.

(** ** Arithmetic of the chunk list *)

Lemma u64_range x : 0 <= u64 x < 2 ^ 64.
Proof. unfold u64. apply Z.mod_pos_bound. reflexivity. Qed.

Lemma u64_small x : 0 <= x < 2 ^ 64 -> u64 x = x.
Proof. intros H. unfold u64. apply Z.mod_small. exact H. Qed.

Lemma chunk_list_small r :
  0 < r < BUFFER_SIZE -> chunk_list r = [r].
Proof.
  intros H. unfold chunk_list.
  rewrite Z.div_small, Z.mod_small by lia. simpl.
  destruct (Z.eqb_spec r 0); [lia | reflexivity].
Qed.

Lemma chunk_list_0 : chunk_list 0 = [].
Proof. reflexivity. Qed.

Lemma chunk_list_step r :
  BUFFER_SIZE <= r -> chunk_list r = BUFFER_SIZE :: chunk_list (r - BUFFER_SIZE).
Proof.
  intros H. unfold chunk_list.
  assert (HB : 0 < BUFFER_SIZE) by reflexivity.
  assert (Hd : r / BUFFER_SIZE = (r - BUFFER_SIZE) / BUFFER_SIZE + 1).
  { rewrite <- Z.div_add by lia. f_equal. lia. }
  assert (Hm : r mod BUFFER_SIZE = (r - BUFFER_SIZE) mod BUFFER_SIZE).
  { rewrite <- (Z.mod_add (r - BUFFER_SIZE) 1) by lia. f_equal. lia. }
  assert (0 <= (r - BUFFER_SIZE) / BUFFER_SIZE) by (apply Z.div_pos; lia).
  rewrite Hd, Hm, Z2Nat.inj_add, Nat.add_comm by lia.
  reflexivity.
Qed.

(** ** The write loop, whatever the write calls return *)

Lemma sys_write_trace h g n w :
  exists pos ret,
    trace (run (sys_write h g n) w) = (trace w ++ [EvWrite h pos n ret])%list.
Proof.
  unfold sys_write, run.
  destruct (open_files w !! h) as [o|]; [|eexists _, _; reflexivity].
  destruct (deref (buffers w) g), (match io_plan w with [] => Some n | c :: _ => c end),
    (fs w !! o_path o); simpl; try (eexists _, _; reflexivity).
  unfold set_pos; simpl. rewrite lookup_insert_eq || idtac.
  destruct (open_files w !! h); eexists _, _; reflexivity.
Qed.

Lemma to_write_le size t :
  0 <= t < size -> size < 2 ^ 64 ->
  (if u64 (size - t) <? BUFFER_SIZE then u64 (size - t) else BUFFER_SIZE)
  = Z.min BUFFER_SIZE (size - t).
Proof.
  intros H1 H2. unfold u64. rewrite Z.mod_small by lia.
  destruct (Z.ltb_spec (size - t) BUFFER_SIZE); lia.
Qed.

Lemma write_loop_unfold n fd f g size t :
  write_loop (S n) fd f g size t =
  if t <? size then
    sys_write (target fd f) g
      (if u64 (size - t) <? BUFFER_SIZE then u64 (size - t) else BUFFER_SIZE);;
    write_loop n fd f g size
      (u64 (t + (if u64 (size - t) <? BUFFER_SIZE then u64 (size - t) else BUFFER_SIZE)))
  else mret t.
Proof. destruct f; reflexivity. Qed.

(** The loop makes the requests of [chunk_list], whatever the calls
    return, and leaves with [total_written = size]. *)
Lemma write_loop_requests n : forall fd f g size t w,
  0 <= t <= size -> size < 2 ^ 64 ->
  (Z.to_nat ((size - t) / BUFFER_SIZE) < n)%nat ->
  result (write_loop n fd f g size t) w = size /\
  exists ws,
    trace (run (write_loop n fd f g size t) w) = (trace w ++ ws)%list /\
    Forall (write_on (target fd f)) ws /\
    write_requests ws = chunk_list (size - t).
Proof.
  assert (HB : 0 < BUFFER_SIZE) by reflexivity.
  induction n as [|n IH]; intros fd f g size t w Ht Hs Hn; [lia|].
  rewrite write_loop_unfold.
  destruct (Z.ltb_spec t size) as [Hlt|Hge].
  - rewrite to_write_le by lia.
    rewrite run_bind, result_bind.
    set (tw := Z.min BUFFER_SIZE (size - t)).
    destruct (sys_write_trace (target fd f) g tw w) as (pos & ret & Htr).
    set (w1 := run (sys_write (target fd f) g tw) w) in *.
    assert (Hu : u64 (t + tw) = t + tw) by (unfold u64; apply Z.mod_small; lia).
    rewrite Hu.
    destruct (Z.ltb_spec (size - t) BUFFER_SIZE) as [Hsmall|Hbig].
    + (* last, partial chunk *)
      assert (Etw : tw = size - t) by lia.
      assert (Et : t + tw = size) by lia. rewrite Et.
      destruct n as [|n'].
      * simpl. split; [reflexivity|].
        exists [EvWrite (target fd f) pos tw ret]. rewrite run_ret.
        split; [exact Htr|]. split; [repeat constructor|].
        rewrite chunk_list_small by lia. simpl. rewrite Etw. reflexivity.
      * rewrite write_loop_unfold. rewrite Z.ltb_irrefl.
        split; [reflexivity|].
        exists [EvWrite (target fd f) pos tw ret]. rewrite run_ret.
        split; [exact Htr|]. split; [repeat constructor|].
        rewrite chunk_list_small by lia. simpl. rewrite Etw. reflexivity.
    + (* a full chunk *)
      assert (Etw : tw = BUFFER_SIZE) by lia.
      destruct (IH fd f g size (t + tw) w1) as (Hres & ws & Hws & Hall & Hreq); [lia|lia| |].
      { rewrite Etw.
        assert (Hd : (size - t) / BUFFER_SIZE = (size - (t + BUFFER_SIZE)) / BUFFER_SIZE + 1).
        { rewrite <- Z.div_add by lia. f_equal. lia. }
        assert (0 <= (size - (t + BUFFER_SIZE)) / BUFFER_SIZE) by (apply Z.div_pos; lia).
        lia. }
      split; [exact Hres|].
      exists (EvWrite (target fd f) pos tw ret :: ws).
      split; [rewrite Hws, Htr, <- app_assoc; reflexivity|].
      split; [constructor; [reflexivity|exact Hall]|].
      rewrite chunk_list_step by lia. simpl. rewrite Hreq, Etw.
      do 2 f_equal. lia.
  - assert (t = size) by lia. subst t.
    split; [reflexivity|]. exists []. rewrite run_ret, app_nil_r, Z.sub_diag.
    split; [reflexivity|]. split; [constructor|reflexivity].
Qed.

Lemma write_loop_done n fd f g size :
  write_loop n fd f g size size = mret size.
Proof.
  destruct n; [reflexivity|]. rewrite write_loop_unfold, Z.ltb_irrefl. reflexivity.
Qed.

(** The bound of [overwrite_pass_simd] is never what stops the loop: any
    two bounds above the number of full chunks left give the same run. *)
Lemma write_loop_more_fuel n : forall m fd f g size t w,
  0 <= t <= size -> size < 2 ^ 64 ->
  (Z.to_nat ((size - t) / BUFFER_SIZE) < n)%nat ->
  (Z.to_nat ((size - t) / BUFFER_SIZE) < m)%nat ->
  write_loop n fd f g size t w = write_loop m fd f g size t w.
Proof.
  assert (HB : 0 < BUFFER_SIZE) by reflexivity.
  induction n as [|n IH]; intros m fd f g size t w Ht Hs Hn Hm; [lia|].
  destruct m as [|m]; [lia|].
  rewrite !write_loop_unfold.
  destruct (Z.ltb_spec t size) as [Hlt|Hge]; [|reflexivity].
  rewrite to_write_le by lia.
  unfold mbind, M_bind.
  destruct (sys_write (target fd f) g (Z.min BUFFER_SIZE (size - t)) w) as [r w1].
  rewrite (u64_small (t + Z.min BUFFER_SIZE (size - t))) by lia.
  destruct (Z.ltb_spec (size - t) BUFFER_SIZE) as [Hsmall|Hbig].
  - replace (t + Z.min BUFFER_SIZE (size - t)) with size by lia.
    rewrite !write_loop_done. reflexivity.
  - replace (Z.min BUFFER_SIZE (size - t)) with BUFFER_SIZE by lia.
    assert (Hd : (size - t) / BUFFER_SIZE = (size - (t + BUFFER_SIZE)) / BUFFER_SIZE + 1).
    { rewrite <- Z.div_add by lia. f_equal. lia. }
    assert (0 <= (size - (t + BUFFER_SIZE)) / BUFFER_SIZE) by (apply Z.div_pos; lia).
    apply IH; lia.
Qed.

(** ** Sums and ranges of the chunk list *)

Lemma sumZ_app l1 l2 : sumZ (l1 ++ l2) = sumZ l1 + sumZ l2.
Proof. induction l1 as [|x l1 IH]; simpl; [reflexivity|rewrite IH; lia]. Qed.

Lemma sumZ_replicate n x : sumZ (replicate n x) = Z.of_nat n * x.
Proof. induction n as [|n IH]; simpl replicate; simpl sumZ; [reflexivity|rewrite IH; lia]. Qed.

Lemma chunk_list_sum size : 0 <= size -> sumZ (chunk_list size) = size.
Proof.
  intros H. unfold chunk_list.
  assert (HB : 0 < BUFFER_SIZE) by reflexivity.
  assert (0 <= size / BUFFER_SIZE) by (apply Z.div_pos; lia).
  rewrite sumZ_app, sumZ_replicate, Z2Nat.id by lia.
  pose proof (Z.div_mod size BUFFER_SIZE ltac:(lia)) as E.
  destruct (Z.eqb_spec (size mod BUFFER_SIZE) 0) as [E0|E0]; simpl; lia.
Qed.

Lemma chunk_list_bounds size :
  0 <= size -> Forall (fun r => 0 < r <= BUFFER_SIZE) (chunk_list size).
Proof.
  intros H. unfold chunk_list.
  assert (HB : 0 < BUFFER_SIZE) by reflexivity.
  apply Forall_app. split.
  - apply Forall_replicate. lia.
  - pose proof (Z.mod_pos_bound size BUFFER_SIZE HB).
    destruct (Z.eqb_spec (size mod BUFFER_SIZE) 0); repeat constructor; lia.
Qed.

(** Every request is [min(BUFFER_SIZE, size - written)], where [written]
    is the sum of the requests before it. *)
Lemma chunk_list_nth size i r :
  0 <= size ->
  chunk_list size !! i = Some r ->
  r = Z.min BUFFER_SIZE (size - sumZ (take i (chunk_list size))).
Proof.
  intros H. unfold chunk_list.
  assert (HB : 0 < BUFFER_SIZE) by reflexivity.
  assert (Hq : 0 <= size / BUFFER_SIZE) by (apply Z.div_pos; lia).
  pose proof (Z.div_mod size BUFFER_SIZE ltac:(lia)) as E.
  pose proof (Z.mod_pos_bound size BUFFER_SIZE HB) as Hm.
  set (n := Z.to_nat (size / BUFFER_SIZE)).
  assert (Hn : Z.of_nat n = size / BUFFER_SIZE) by (unfold n; lia).
  destruct (Nat.lt_ge_cases i n) as [Hi|Hi].
  - rewrite lookup_app_l by (rewrite length_replicate; lia).
    rewrite lookup_replicate. intros [-> _].
    rewrite take_app_le by (rewrite length_replicate; lia).
    rewrite take_replicate, sumZ_replicate.
    rewrite Nat.min_l by lia. nia.
  - rewrite lookup_app_r by (rewrite length_replicate; lia).
    rewrite length_replicate.
    rewrite take_app_ge by (rewrite length_replicate; lia).
    rewrite length_replicate, sumZ_app, sumZ_replicate.
    destruct (Z.eqb_spec (size mod BUFFER_SIZE) 0) as [E0|E0].
    + rewrite lookup_nil. discriminate.
    + destruct (i - n)%nat as [|k] eqn:Ek; simpl; [|rewrite lookup_nil; discriminate].
      intros [= <-]. lia.
Qed.

Lemma ranges_after o : forall lens off,
  Forall (fun r => 0 <= r) lens -> o < off ->
  filter (fun r => covers o r = true) (ranges_from off lens) = [].
Proof.
  induction lens as [|l ls IH]; intros off Hpos Ho; [reflexivity|].
  inversion Hpos; subst. simpl.
  rewrite filter_cons_False.
  - apply IH; [assumption|lia].
  - unfold covers; simpl. destruct (Z.leb_spec off o); simpl; [lia|discriminate].
Qed.

(** Consecutive ranges of positive length cover every offset of their
    span exactly once. *)
Lemma ranges_tile o : forall lens off,
  Forall (fun r => 0 < r) lens ->
  off <= o < off + sumZ lens ->
  length (filter (fun r => covers o r = true) (ranges_from off lens)) = 1%nat.
Proof.
  induction lens as [|l ls IH]; intros off Hpos Ho; simpl in *; [lia|].
  inversion Hpos; subst.
  destruct (Z.ltb_spec o (off + l)) as [Hin|Hout].
  - rewrite filter_cons_True.
    + rewrite ranges_after; [reflexivity| |lia].
      eapply Forall_impl; [eassumption|]. simpl; intros; lia.
    + unfold covers; simpl. apply andb_true_iff. split; [apply Z.leb_le|apply Z.ltb_lt]; lia.
  - rewrite filter_cons_False.
    + apply IH; [assumption|lia].
    + unfold covers; simpl. destruct (Z.ltb_spec o (off + l)); [lia|].
      rewrite andb_false_r. discriminate.
Qed.

(** ** The pass, event by event *)

Lemma trace_seek_start h w :
  trace (run (seek_start h) w) = (trace w ++ [EvSeekStart h])%list.
Proof. unfold seek_start, modify, run, set_pos; simpl. destruct (open_files w !! h); reflexivity. Qed.

Lemma trace_regenerate rv w : trace (run (regenerate_random rv) w) = trace w.
Proof. reflexivity. Qed.

Lemma trace_prologue fd f w :
  trace (run (match f with
              | Some h => seek_start h;; setvbuf h
              | None => seek_start fd
              end) w) = (trace w ++ pass_prologue fd f)%list.
Proof.
  destruct f as [h|].
  - rewrite run_bind. unfold setvbuf. rewrite trace_log, trace_seek_start, <- app_assoc.
    reflexivity.
  - apply trace_seek_start.
Qed.

Lemma trace_epilogue f w :
  trace (run (match f with
              | Some h => fflush h;; fsync h
              | None => mret tt
              end) w) = (trace w ++ pass_epilogue f)%list.
Proof.
  destruct f as [h|].
  - rewrite run_bind. unfold fsync, fflush. rewrite !trace_log, <- app_assoc. reflexivity.
  - rewrite run_ret, app_nil_r. reflexivity.
Qed.

(** What one pass appends to the trace, in every world. *)
Lemma pass_events cs rv fd f size pn tp pat w :
  exists ws,
    trace (run (overwrite_pass_simd cs rv fd f size pn tp pat) w) =
      (trace w ++ EvPass pn tp (banner_of cs pat) :: pass_prologue fd f
         ++ ws ++ pass_epilogue f ++ [EvPassDone])%list /\
    Forall (write_on (target fd f)) ws /\
    write_requests ws = chunk_list (u64 size).
Proof.
  unfold overwrite_pass_simd.
  rewrite !run_bind.
  set (w1 := run (log _) w).
  set (w2 := run (match f with Some h => _ | None => _ end) w1).
  set (w3 := run (if _ =? _ then _ else _) w2).
  pose proof (u64_range size) as Hr.
  destruct (write_loop_requests (loop_bound (u64 size)) fd f
              (get_pattern_buffer (to_char cs pat)) (u64 size) 0 w3)
    as (_ & ws & Hws & Hall & Hreq); [lia|lia| |].
  { unfold loop_bound. rewrite Z.sub_0_r. lia. }
  exists ws. rewrite Z.sub_0_r in Hreq. split; [|split; assumption].
  rewrite trace_log, trace_epilogue, Hws.
  assert (E3 : trace w3 = trace w2).
  { unfold w3. destruct (_ =? _); [apply trace_regenerate|reflexivity]. }
  rewrite E3. unfold w2. rewrite trace_prologue. unfold w1. rewrite trace_log.
  unfold banner_of. rewrite <- !app_assoc. reflexivity.
Qed.

(** ** The pass when every write call transfers all it is asked to *)

Lemma sys_write_full h g n w path pos fl buf :
  open_files w !! h = Some (mk_ofd path pos) ->
  fs w !! path = Some fl ->
  deref (buffers w) g = Some buf ->
  io_plan w = [] -> 0 <= n ->
  open_files (run (sys_write h g n) w) !! h = Some (mk_ofd path (pos + n)) /\
  fs (run (sys_write h g n) w) !! path = Some (store fl pos n buf) /\
  buffers (run (sys_write h g n) w) = buffers w /\
  io_plan (run (sys_write h g n) w) = [] /\
  trace (run (sys_write h g n) w) = (trace w ++ [EvWrite h pos n n])%list.
Proof.
  intros Ho Hf Hb Hp Hn. unfold sys_write, run.
  rewrite Ho, Hb, Hp. simpl. rewrite Hf. simpl.
  replace (Z.min n (Z.max 0 n)) with n by lia.
  unfold set_pos. simpl. rewrite Ho. simpl.
  rewrite !lookup_insert_eq. auto.
Qed.

Lemma write_loop_full n : forall fd f g size t w path fl buf,
  0 <= t <= size -> size < 2 ^ 64 ->
  (Z.to_nat ((size - t) / BUFFER_SIZE) < n)%nat ->
  open_files w !! target fd f = Some (mk_ofd path t) ->
  fs w !! path = Some fl ->
  deref (buffers w) g = Some buf ->
  io_plan w = [] ->
  let w' := run (write_loop n fd f g size t) w in
  open_files w' !! target fd f = Some (mk_ofd path size) /\
  buffers w' = buffers w /\ io_plan w' = [] /\
  trace w' = (trace w ++ map (write_event (target fd f))
                          (ranges_from t (chunk_list (size - t))))%list /\
  exists fl', fs w' !! path = Some fl' /\
    forall o, f_bytes fl' o =
              if (t <=? o) && (o <? size) then buf ((o - t) mod BUFFER_SIZE)
              else f_bytes fl o.
Proof.
  assert (HB : 0 < BUFFER_SIZE) by reflexivity.
  induction n as [|n IH]; intros fd f g size t w path fl buf Ht Hs Hn Ho Hf Hb Hp; [lia|].
  cbv zeta. rewrite write_loop_unfold.
  destruct (Z.ltb_spec t size) as [Hlt|Hge].
  - rewrite to_write_le by lia. rewrite run_bind.
    set (tw := Z.min BUFFER_SIZE (size - t)).
    destruct (sys_write_full (target fd f) g tw w path t fl buf Ho Hf Hb Hp ltac:(lia))
      as (Ho1 & Hf1 & Hb1 & Hp1 & Ht1).
    set (w1 := run (sys_write (target fd f) g tw) w) in *.
    rewrite (u64_small (t + tw)) by lia.
    destruct (Z.ltb_spec (size - t) BUFFER_SIZE) as [Hsmall|Hbig].
    + assert (Etw : tw = size - t) by lia.
      assert (Et : t + tw = size) by lia. rewrite Et in *.
      assert (Hstop : write_loop n fd f g size size = mret size).
      { destruct n; [reflexivity|]. rewrite write_loop_unfold, Z.ltb_irrefl. reflexivity. }
      rewrite Hstop, run_ret.
      split; [exact Ho1|]. split; [congruence|]. split; [exact Hp1|].
      split.
      { rewrite Ht1, chunk_list_small by lia. simpl. unfold write_event. simpl.
        rewrite <- Etw. reflexivity. }
      eexists. split; [exact Hf1|].
      intros o. simpl. rewrite Et.
      destruct ((t <=? o) && (o <? size)) eqn:E; [|reflexivity].
      apply andb_true_iff in E. destruct E as [E1%Z.leb_le E2%Z.ltb_lt].
      rewrite Z.mod_small by lia. reflexivity.
    + assert (Etw : tw = BUFFER_SIZE) by lia.
      assert (Hfuel : (Z.to_nat ((size - (t + tw)) / BUFFER_SIZE) < n)%nat).
      { rewrite Etw.
        assert (Hd : (size - t) / BUFFER_SIZE = (size - (t + BUFFER_SIZE)) / BUFFER_SIZE + 1).
        { rewrite <- Z.div_add by lia. f_equal. lia. }
        assert (0 <= (size - (t + BUFFER_SIZE)) / BUFFER_SIZE) by (apply Z.div_pos; lia).
        lia. }
      assert (Hb1' : deref (buffers w1) g = Some buf) by (rewrite Hb1; exact Hb).
      destruct (IH fd f g size (t + tw) w1 path (store fl t tw buf) buf
                  ltac:(lia) Hs Hfuel Ho1 Hf1 Hb1' Hp1)
        as (Ho2 & Hb2 & Hp2 & Ht2 & fl' & Hf2 & Hbytes).
      split; [exact Ho2|]. split; [congruence|]. split; [exact Hp2|].
      split.
      { rewrite Ht2, Ht1, <- app_assoc. f_equal.
        rewrite (chunk_list_step (size - t)) by lia. simpl.
        unfold write_event at 2. simpl. rewrite Etw.
        replace (size - (t + BUFFER_SIZE)) with (size - t - BUFFER_SIZE) by lia.
        reflexivity. }
      exists fl'. split; [exact Hf2|].
      intros o. rewrite Hbytes. simpl. rewrite Etw.
      destruct (Z.leb_spec (t + BUFFER_SIZE) o), (Z.ltb_spec o size),
        (Z.leb_spec t o), (Z.ltb_spec o (t + BUFFER_SIZE)); simpl; try lia; try reflexivity.
      * f_equal. rewrite <- (Z.mod_add (o - (t + BUFFER_SIZE)) 1) by lia. f_equal. lia.
      * rewrite Z.mod_small by lia. reflexivity.
  - assert (t = size) by lia. subst t.
    rewrite run_ret, Z.sub_diag. simpl. rewrite app_nil_r.
    split; [exact Ho|]. split; [reflexivity|]. split; [exact Hp|]. split; [reflexivity|].
    exists fl. split; [exact Hf|]. intros o.
    destruct (Z.leb_spec size o), (Z.ltb_spec o size); simpl; try lia; reflexivity.
Qed.

Lemma prologue_full fd f w path pos :
  open_files w !! target fd f = Some (mk_ofd path pos) ->
  let w' := run (match f with
                 | Some h => seek_start h;; setvbuf h
                 | None => seek_start fd
                 end) w in
  open_files w' !! target fd f = Some (mk_ofd path 0) /\
  fs w' = fs w /\ buffers w' = buffers w /\ io_plan w' = io_plan w /\
  rand_calls w' = rand_calls w.
Proof.
  intros Ho.
  assert (Hseek : forall h, open_files w !! h = Some (mk_ofd path pos) ->
            open_files (run (seek_start h) w) !! h = Some (mk_ofd path 0) /\
            fs (run (seek_start h) w) = fs w /\
            buffers (run (seek_start h) w) = buffers w /\
            io_plan (run (seek_start h) w) = io_plan w /\
            rand_calls (run (seek_start h) w) = rand_calls w).
  { intros h Hh. unfold seek_start, modify, run, set_pos. simpl. rewrite Hh. simpl.
    rewrite lookup_insert_eq. auto. }
  destruct f as [h|]; simpl in Ho; cbv zeta.
  - rewrite run_bind. exact (Hseek h Ho).
  - exact (Hseek fd Ho).
Qed.

Lemma regenerate_full cs rv pat w buf0 :
  deref (buffers w) (get_pattern_buffer (to_char cs pat)) = Some buf0 ->
  let w' := run (if to_char cs pat =? char_R then regenerate_random rv else mret tt) w in
  (exists buf, deref (buffers w') (get_pattern_buffer (to_char cs pat)) = Some buf /\
               (to_char cs pat <> char_R -> buf = buf0)) /\
  fs w' = fs w /\ open_files w' = open_files w /\ io_plan w' = io_plan w /\
  trace w' = trace w.
Proof.
  intros Hb. cbv zeta.
  destruct (Z.eqb_spec (to_char cs pat) char_R) as [E|E].
  - rewrite E in *. unfold regenerate_random, run. simpl in *.
    rewrite Hb. simpl. split; [|auto].
    eexists. split; [reflexivity|]. intros N. contradiction.
  - rewrite run_ret. split; [|auto]. exists buf0. auto.
Qed.

(** One pass in a world without write faults: the events, the final
    offset and the bytes of the target. *)
Lemma pass_full cs rv fd f size pn tp pat w path pos fl buf0 :
  0 <= size < 2 ^ 64 ->
  open_files w !! target fd f = Some (mk_ofd path pos) ->
  fs w !! path = Some fl ->
  deref (buffers w) (get_pattern_buffer (to_char cs pat)) = Some buf0 ->
  io_plan w = [] ->
  let w' := run (overwrite_pass_simd cs rv fd f size pn tp pat) w in
  trace w' =
    (trace w ++ EvPass pn tp (banner_of cs pat) :: pass_prologue fd f
       ++ map (write_event (target fd f)) (ranges_from 0 (chunk_list size))
       ++ pass_epilogue f ++ [EvPassDone])%list /\
  open_files w' !! target fd f = Some (mk_ofd path size) /\
  io_plan w' = [] /\
  exists buf fl',
    deref (buffers w') (get_pattern_buffer (to_char cs pat)) = Some buf /\
    (to_char cs pat <> char_R -> buf = buf0) /\
    fs w' !! path = Some fl' /\
    forall o, f_bytes fl' o =
              if (0 <=? o) && (o <? size) then buf (o mod BUFFER_SIZE)
              else f_bytes fl o.
Proof.
  intros Hs Ho Hf Hb Hp. cbv zeta.
  unfold overwrite_pass_simd. rewrite (u64_small size Hs).
  rewrite !run_bind.
  set (w1 := run (log _) w).
  assert (Ho1 : open_files w1 !! target fd f = Some (mk_ofd path pos)) by exact Ho.
  destruct (prologue_full fd f w1 path pos Ho1) as (Ho2 & Hf2 & Hb2 & Hp2 & _).
  set (w2 := run (match f with Some h => _ | None => _ end) w1) in *.
  assert (Hb2' : deref (buffers w2) (get_pattern_buffer (to_char cs pat)) = Some buf0).
  { rewrite Hb2. exact Hb. }
  destruct (regenerate_full cs rv pat w2 buf0 Hb2')
    as ((buf & Hb3 & Hsame) & Hf3 & Ho3 & Hp3 & Ht3).
  set (w3 := run (if _ =? _ then _ else _) w2) in *.
  assert (Hfuel : (Z.to_nat ((size - 0) / BUFFER_SIZE) < loop_bound size)%nat).
  { unfold loop_bound. rewrite Z.sub_0_r. lia. }
  destruct (write_loop_full (loop_bound size) fd f
              (get_pattern_buffer (to_char cs pat)) size 0 w3 path fl buf
              ltac:(lia) ltac:(lia) Hfuel)
    as (Ho4 & Hb4 & Hp4 & Ht4 & fl' & Hf4 & Hbytes).
  { rewrite Ho3. exact Ho2. }
  { rewrite Hf3, Hf2. exact Hf. }
  { exact Hb3. }
  { rewrite Hp3, Hp2. exact Hp. }
  set (w4 := run (write_loop _ _ _ _ _ _) w3) in *.
  assert (Hepi : forall w5, w5 = run (match f with
              | Some h => fflush h;; fsync h
              | None => mret tt
              end) w4 ->
      open_files w5 = open_files w4 /\ fs w5 = fs w4 /\ buffers w5 = buffers w4 /\
      io_plan w5 = io_plan w4).
  { intros w5 ->. destruct f; [rewrite run_bind|rewrite run_ret]; auto. }
  destruct (Hepi _ eq_refl) as (Ho5 & Hf5 & Hb5 & Hp5).
  rewrite trace_log, trace_epilogue.
  split.
  { rewrite Ht4, Ht3. unfold w2. rewrite trace_prologue. unfold w1. rewrite trace_log.
    rewrite Z.sub_0_r. unfold banner_of. rewrite <- !app_assoc. reflexivity. }
  change (open_files (run (log EvPassDone) ?x)) with (open_files x).
  change (io_plan (run (log EvPassDone) ?x)) with (io_plan x).
  change (buffers (run (log EvPassDone) ?x)) with (buffers x).
  change (fs (run (log EvPassDone) ?x)) with (fs x).
  rewrite Ho5, Hp5, Hb5, Hf5, Hb4.
  split; [exact Ho4|]. split; [exact Hp4|].
  exists buf, fl'. split; [exact Hb3|]. split; [exact Hsame|]. split; [exact Hf4|].
  intros o. rewrite Hbytes, Z.sub_0_r. reflexivity.
Qed.

(** ** The bytes a pass writes *)

Lemma write_requests_app l1 l2 :
  write_requests (l1 ++ l2) = (write_requests l1 ++ write_requests l2)%list.
Proof. apply omap_app. Qed.

Lemma write_requests_writes h ws :
  Forall (write_on h) ws ->
  filter (fun e => is_write e = true) ws = ws.
Proof.
  induction 1 as [|e ws He _ IH]; [reflexivity|].
  rewrite filter_cons_True, IH; [reflexivity|].
  destruct e; simpl in *; try contradiction; reflexivity.
Qed.

Lemma pass_shape_requests pn tp b fd f ws :
  write_requests (EvPass pn tp b :: pass_prologue fd f ++ ws
                    ++ pass_epilogue f ++ [EvPassDone])
  = write_requests ws.
Proof.
  change (EvPass pn tp b :: ?l) with ([EvPass pn tp b] ++ l)%list.
  rewrite !write_requests_app.
  destruct f; simpl; rewrite app_nil_r; reflexivity.
Qed.

Lemma pass_shape_writes pn tp b fd f h ws :
  Forall (write_on h) ws ->
  filter (fun e => is_write e = true)
         (EvPass pn tp b :: pass_prologue fd f ++ ws
            ++ pass_epilogue f ++ [EvPassDone])
  = ws.
Proof.
  intros H.
  change (EvPass pn tp b :: ?l) with ([EvPass pn tp b] ++ l)%list.
  rewrite !filter_app, (write_requests_writes h ws H).
  destruct f; simpl; rewrite app_nil_r; reflexivity.
Qed.

Lemma write_events_on h l : Forall (write_on h) (map (write_event h) l).
Proof. induction l; constructor; [reflexivity|assumption]. Qed.

Lemma write_events_requests h : forall lens off,
  write_requests (map (write_event h) (ranges_from off lens)) = lens.
Proof.
  induction lens as [|l ls IH]; intros off; [reflexivity|].
  simpl. unfold write_requests in *. simpl. rewrite IH. reflexivity.
Qed.

(** The requests of a pass, in any world. *)
Lemma pass_requests cs rv fd f size pn tp pat w :
  write_requests
    (events_since w (run (overwrite_pass_simd cs rv fd f size pn tp pat) w))
  = chunk_list (u64 size).
Proof.
  destruct (pass_events cs rv fd f size pn tp pat w) as (ws & Htr & _ & Hreq).
  rewrite (events_since_app _ _ _ Htr), pass_shape_requests. exact Hreq.
Qed.

(** C3. One run of [overwrite_pass_simd] for [size] bytes asks for
    [min(BUFFER_SIZE, size - written)] bytes at a time, never more than
    [BUFFER_SIZE], [size] bytes in all and none when [size] is 0; when every
    write call transfers what it is asked to, the writes start at offset 0,
    every offset below [size] lies in exactly one of them, the offset after
    the run is [size] and every byte below [size] holds the pattern buffer's
    byte. *)
Theorem overwrite_pass_writes_size cs rv fd f size pn tp pat w :
  0 <= size < 2 ^ 64 ->
  let w' := run (overwrite_pass_simd cs rv fd f size pn tp pat) w in
  let reqs := write_requests (events_since w w') in
  sumZ reqs = size /\
  (forall i r, reqs !! i = Some r ->
     r = Z.min BUFFER_SIZE (size - sumZ (take i reqs)) /\ 0 < r <= BUFFER_SIZE) /\
  (size = 0 -> reqs = []) /\
  (forall path pos fl buf0,
     open_files w !! target fd f = Some (mk_ofd path pos) ->
     fs w !! path = Some fl ->
     deref (buffers w) (get_pattern_buffer (to_char cs pat)) = Some buf0 ->
     io_plan w = [] ->
     filter (fun e => is_write e = true) (events_since w w')
       = map (write_event (target fd f)) (ranges_from 0 reqs) /\
     (forall o, 0 <= o < size ->
        length (filter (fun r => covers o r = true) (ranges_from 0 reqs)) = 1%nat) /\
     open_files w' !! target fd f = Some (mk_ofd path size) /\
     exists buf fl',
       deref (buffers w') (get_pattern_buffer (to_char cs pat)) = Some buf /\
       fs w' !! path = Some fl' /\
       forall o, f_bytes fl' o =
                 if (0 <=? o) && (o <? size) then buf (o mod BUFFER_SIZE)
                 else f_bytes fl o).
Proof.
  intros Hs. cbv zeta.
  rewrite pass_requests, (u64_small size Hs).
  split; [apply chunk_list_sum; lia|].
  split.
  { intros i r Hi. split; [apply chunk_list_nth; [lia|exact Hi]|].
    pose proof (chunk_list_bounds size ltac:(lia)) as Hall.
    rewrite Forall_lookup in Hall. exact (Hall i r Hi). }
  split; [intros ->; reflexivity|].
  intros path pos fl buf0 Ho Hf Hb Hp.
  destruct (pass_full cs rv fd f size pn tp pat w path pos fl buf0 Hs Ho Hf Hb Hp)
    as (Htr & Ho' & _ & buf & fl' & Hb' & _ & Hf' & Hbytes).
  rewrite (events_since_app _ _ _ Htr).
  split; [apply (pass_shape_writes _ _ _ _ _ (target fd f)), write_events_on|].
  split.
  { intros o Hrange. apply ranges_tile.
    - eapply Forall_impl; [apply chunk_list_bounds; lia|]. simpl; intros; lia.
    - rewrite chunk_list_sum; lia. }
  split; [exact Ho'|].
  exists buf, fl'. auto.
Qed.

(** The theorem at work: descriptor 3 on a 600 000 000-byte device. *)
Lemma overwrite_pass_writes_size_witness :
  let w' := run (overwrite_pass_simd true lcg 3 None 600000000 1 1 255) disk_opened in
  write_requests (events_since disk_opened w') = [268435456; 268435456; 63129088] /\
  open_files w' !! 3 = Some (mk_ofd "/dev/sdz" 600000000).
Proof.
  assert (Hs : 0 <= 600000000 < 2 ^ 64) by lia.
  destruct (overwrite_pass_writes_size true lcg 3 None 600000000 1 1 255 disk_opened Hs)
    as (_ & _ & _ & Hfull).
  destruct (Hfull "/dev/sdz" 0 small_disk (fill 0) eq_refl eq_refl eq_refl eq_refl)
    as (_ & _ & Hpos & _).
  split; [vm_compute; reflexivity|exact Hpos].
Defined.

(** ** Short and failed writes *)

(** C4, as stated, fails.  A pass over descriptor 3 of the sample device
    whose first [write] transfers 4096 of the 268435456 bytes asked for
    goes on with the next full chunk, not with the 268431360 bytes left;
    and when the first [write] fails outright the pass makes its other
    two writes and ends like any other pass. *)
Lemma short_write_not_reissued :
  let pass := overwrite_pass_simd true lcg 3 None 600000000 1 1 0 in
  let short := disk_opened_with [Some 4096] in
  let failed := disk_opened_with [None] in
  events_since short (run pass short)
    = [EvPass 1 1 (Pattern_byte 0); EvSeekStart 3;
       EvWrite 3 0 268435456 4096;
       EvWrite 3 4096 268435456 268435456;
       EvWrite 3 268439552 63129088 63129088; EvPassDone] /\
  reissues_remainder (events_since short (run pass short)) = false /\
  events_since failed (run pass failed)
    = [EvPass 1 1 (Pattern_byte 0); EvSeekStart 3;
       EvWrite 3 0 268435456 (-1);
       EvWrite 3 0 268435456 268435456;
       EvWrite 3 268435456 63129088 63129088; EvPassDone].
Proof. vm_compute. auto. Qed.

(** C4, amended.  In every world, whatever the write calls return, a pass
    makes the requests of [chunk_list] and no other write call: each
    request is made once, and the pass goes on to its epilogue and ends. *)
Theorem pass_ignores_write_results cs rv fd f size pn tp pat w :
  let evs := events_since w (run (overwrite_pass_simd cs rv fd f size pn tp pat) w) in
  write_requests evs = chunk_list (u64 size) /\
  length (filter (fun e => is_write e = true) evs) = length (chunk_list (u64 size)) /\
  exists body, evs = (body ++ pass_epilogue f ++ [EvPassDone])%list.
Proof.
  cbv zeta.
  destruct (pass_events cs rv fd f size pn tp pat w) as (ws & Htr & Hall & Hreq).
  rewrite (events_since_app _ _ _ Htr).
  split; [rewrite pass_shape_requests; exact Hreq|].
  split.
  - rewrite (pass_shape_writes _ _ _ _ _ _ _ Hall), <- Hreq.
    clear -Hall. induction Hall as [|e ws He _ IH]; [reflexivity|].
    destruct e; simpl in He; try contradiction.
    unfold write_requests in *. simpl. rewrite IH. reflexivity.
  - exists (EvPass pn tp (banner_of cs pat) :: pass_prologue fd f ++ ws)%list.
    simpl. rewrite <- !app_assoc. reflexivity.
Qed.

(** ** The flush at the end of a pass *)

(** C7, as stated, fails on a raw descriptor: the pass over descriptor 3
    of the sample device makes its three writes and ends without any
    flush. *)
Lemma raw_descriptor_pass_without_flush :
  let evs := events_since disk_opened
               (run (overwrite_pass_simd true lcg 3 None 600000000 1 1 0) disk_opened) in
  evs = [EvPass 1 1 (Pattern_byte 0); EvSeekStart 3;
         EvWrite 3 0 268435456 268435456;
         EvWrite 3 268435456 268435456 268435456;
         EvWrite 3 536870912 63129088 63129088; EvPassDone] /\
  existsb is_flush evs = false.
Proof. vm_compute. auto. Qed.

Lemma no_flush_in_writes h ws :
  Forall (write_on h) ws -> existsb is_flush ws = false.
Proof.
  induction 1 as [|e ws He _ IH]; [reflexivity|].
  destruct e; simpl in *; try contradiction. exact IH.
Qed.

(** C7, amended.  On a stream ([f] not [NULL]) a pass ends with [fflush]
    and [fsync] of that stream, after all its writes and before it
    returns; on a raw descriptor ([f] is [NULL]) it flushes nothing. *)
Theorem pass_flushes_streams_only cs rv fd size pn tp pat w :
  (forall h,
     exists body,
       events_since w (run (overwrite_pass_simd cs rv fd (Some h) size pn tp pat) w)
         = (body ++ [EvFflush h; EvFsync h; EvPassDone])%list /\
       existsb is_flush body = false /\
       write_requests body = chunk_list (u64 size)) /\
  existsb is_flush
    (events_since w (run (overwrite_pass_simd cs rv fd None size pn tp pat) w)) = false.
Proof.
  split.
  - intros h.
    destruct (pass_events cs rv fd (Some h) size pn tp pat w) as (ws & Htr & Hall & Hreq).
    rewrite (events_since_app _ _ _ Htr).
    exists (EvPass pn tp (banner_of cs pat) :: pass_prologue fd (Some h) ++ ws)%list.
    split; [reflexivity|].
    split.
    + simpl. apply (no_flush_in_writes _ _ Hall).
    + change (EvPass pn tp ?b :: ?l) with ([EvPass pn tp b] ++ l)%list.
      rewrite !write_requests_app. exact Hreq.
  - destruct (pass_events cs rv fd None size pn tp pat w) as (ws & Htr & Hall & _).
    rewrite (events_since_app _ _ _ Htr). simpl.
    rewrite existsb_app, (no_flush_in_writes _ _ Hall). reflexivity.
Qed.

(** ** Unknown pattern identifiers *)

(** Which buffer each argument of the source's calls selects.  Where plain
    [char] is signed, [0xFF] and [0xAA] arrive as [-1] and [-86], match no
    case label and select the zero buffer. *)
Lemma pattern_buffer_of_argument :
  (forall cs, get_pattern_buffer (to_char cs 0) = G_zero /\
              get_pattern_buffer (to_char cs 85) = G_55 /\
              get_pattern_buffer (to_char cs char_R) = G_random) /\
  get_pattern_buffer (to_char false 255) = G_ff /\
  get_pattern_buffer (to_char false 170) = G_aa /\
  get_pattern_buffer (to_char true 255) = G_zero /\
  get_pattern_buffer (to_char true 170) = G_zero.
Proof. split; [intros []|]; repeat split; reflexivity. Qed.

Lemma init_buffers_zero rv w :
  g_zero_buffer (buffers w) = None ->
  g_zero_buffer (buffers (run (init_buffers rv) w)) = Some (fill 0).
Proof. intros H. unfold init_buffers, run. rewrite H. reflexivity. Qed.

(** C10. A pattern identifier that is none of [0x00], [0xFF], [0xAA],
    [0x55] and ['R'] is answered with the zero buffer: the lookup yields
    [g_zero_buffer], which is allocated and all zero once the pool is
    initialised, and a pass called with such a pattern, its writes going
    through, leaves 0 in every byte below [size]. *)
Theorem unknown_pattern_writes_zeros cs rv (c : Z) :
  c <> 0 -> c <> 255 -> c <> 170 -> c <> 85 -> c <> char_R ->
  get_pattern_buffer c = G_zero /\
  forall w, g_zero_buffer (buffers w) = Some (fill 0) ->
    deref (buffers w) (get_pattern_buffer c) = Some (fill 0) /\
    forall pat fd f size pn tp path pos fl,
      to_char cs pat = c ->
      0 <= size < 2 ^ 64 ->
      open_files w !! target fd f = Some (mk_ofd path pos) ->
      fs w !! path = Some fl ->
      io_plan w = [] ->
      exists fl',
        fs (run (overwrite_pass_simd cs rv fd f size pn tp pat) w) !! path = Some fl' /\
        forall o, 0 <= o < size -> f_bytes fl' o = 0.
Proof.
  intros H0 H1 H2 H3 H4.
  assert (Hg : get_pattern_buffer c = G_zero).
  { unfold get_pattern_buffer.
    destruct (Z.eqb_spec c 0); [contradiction|].
    destruct (Z.eqb_spec c 255); [contradiction|].
    destruct (Z.eqb_spec c 170); [contradiction|].
    destruct (Z.eqb_spec c 85); [contradiction|].
    destruct (Z.eqb_spec c char_R); [contradiction|reflexivity]. }
  split; [exact Hg|].
  intros w Hz. rewrite Hg. split; [exact Hz|].
  intros pat fd f size pn tp path pos fl Hc Hs Ho Hf Hp.
  assert (Hb : deref (buffers w) (get_pattern_buffer (to_char cs pat)) = Some (fill 0)).
  { rewrite Hc, Hg. exact Hz. }
  destruct (pass_full cs rv fd f size pn tp pat w path pos fl (fill 0) Hs Ho Hf Hb Hp)
    as (_ & _ & _ & buf & fl' & _ & Hsame & Hf' & Hbytes).
  exists fl'. split; [exact Hf'|].
  intros o Ho'. rewrite Hbytes, Hsame by (rewrite Hc; exact H4).
  destruct (Z.leb_spec 0 o), (Z.ltb_spec o size); simpl; try lia.
  reflexivity.
Qed.

(** The theorem at work: pattern 7 on the ten-byte sample file. *)
Lemma unknown_pattern_writes_zeros_witness :
  get_pattern_buffer 7 = G_zero /\
  exists fl',
    fs (run (overwrite_pass_simd true lcg 0 (Some 3) 10 1 1 7) (file_opened []))
      !! "a.bin" = Some fl' /\
    forall o, 0 <= o < 10 -> f_bytes fl' o = 0.
Proof.
  destruct (unknown_pattern_writes_zeros true lcg 7) as (Hg & Hw);
    [lia|lia|lia|lia|unfold char_R; lia|].
  split; [exact Hg|].
  destruct (Hw (file_opened []) eq_refl) as (_ & Hpass).
  apply (Hpass 7 0 (Some 3) 10 1 1 "a.bin" 0 ten_As);
    [reflexivity|lia|reflexivity|reflexivity|reflexivity].
Defined.

(** ** [wipe_file], step by step *)

Lemma fs_set_pos h pos w : fs (set_pos h pos w) = fs w.
Proof. unfold set_pos. destruct (open_files w !! h); reflexivity. Qed.

Lemma sys_write_flags h g n w :
  file_flags <$> fs (run (sys_write h g n) w) = file_flags <$> fs w.
Proof.
  unfold sys_write, run.
  destruct (open_files w !! h) as [o|]; [|reflexivity].
  destruct (deref (buffers w) g) as [buf|]; [|reflexivity].
  destruct (match io_plan w with [] => Some n | c :: _ => c end) as [c|]; [|reflexivity].
  destruct (fs w !! o_path o) as [fl|] eqn:Hf; [|reflexivity].
  simpl. rewrite fs_set_pos. simpl.
  rewrite fmap_insert. apply insert_id.
  rewrite lookup_fmap, Hf. reflexivity.
Qed.

Lemma write_loop_flags n : forall fd f g size t w,
  file_flags <$> fs (run (write_loop n fd f g size t) w) = file_flags <$> fs w.
Proof.
  induction n as [|n IH]; intros fd f g size t w; [reflexivity|].
  rewrite write_loop_unfold. destruct (t <? size); [|reflexivity].
  rewrite run_bind, IH. apply sys_write_flags.
Qed.

Lemma pass_flags cs rv fd f size pn tp pat w :
  file_flags <$> fs (run (overwrite_pass_simd cs rv fd f size pn tp pat) w)
  = file_flags <$> fs w.
Proof.
  unfold overwrite_pass_simd. rewrite !run_bind.
  change (fs (run (log EvPassDone) ?x)) with (fs x).
  assert (E1 : forall x, fs (run (match f with
              | Some h => fflush h;; fsync h
              | None => mret tt
              end) x) = fs x).
  { intros x. destruct f; [rewrite run_bind|]; reflexivity. }
  rewrite E1, write_loop_flags.
  assert (E2 : forall x, fs (run (if to_char cs pat =? char_R
                                  then regenerate_random rv else mret tt) x) = fs x).
  { intros x. destruct (_ =? _); reflexivity. }
  rewrite E2.
  assert (E3 : forall x, fs (run (match f with
              | Some h => seek_start h;; setvbuf h
              | None => seek_start fd
              end) x) = fs x).
  { intros x. destruct f; [rewrite run_bind|];
      unfold seek_start, modify, run; simpl; apply fs_set_pos. }
  rewrite E3. reflexivity.
Qed.

Lemma passes_of_app l1 l2 : passes_of (l1 ++ l2) = (passes_of l1 ++ passes_of l2)%list.
Proof. apply omap_app. Qed.

Lemma passes_of_writes h ws : Forall (write_on h) ws -> passes_of ws = [].
Proof.
  induction 1 as [|e ws He _ IH]; [reflexivity|].
  destruct e; simpl in He; try contradiction. exact IH.
Qed.

Lemma pass_events_of_writes h ws :
  Forall (write_on h) ws -> forallb is_pass_event ws = true.
Proof.
  induction 1 as [|e ws He _ IH]; [reflexivity|].
  destruct e; simpl in *; try contradiction. exact IH.
Qed.

Lemma pass_block_pass cs rv fd f size pn tp pat :
  pass_block (overwrite_pass_simd cs rv fd f size pn tp pat) [(pn, tp, banner_of cs pat)].
Proof.
  intros w. split; [apply pass_flags|].
  destruct (pass_events cs rv fd f size pn tp pat w) as (ws & Htr & Hall & _).
  eexists. split; [exact Htr|]. split; [|split].
  - change (EvPass pn tp ?b :: ?l) with ([EvPass pn tp b] ++ l)%list.
    rewrite !passes_of_app, (passes_of_writes _ _ Hall).
    destruct f; reflexivity.
  - change (EvPass pn tp ?b :: ?l) with ([EvPass pn tp b] ++ l)%list.
    rewrite !forallb_app, (pass_events_of_writes _ _ Hall).
    destruct f; reflexivity.
  - discriminate.
Qed.

Lemma pass_block_skip : pass_block (mret tt) [].
Proof.
  intros w. split; [reflexivity|]. exists []. rewrite run_ret, app_nil_r. auto.
Qed.

Lemma pass_block_seq m1 m2 s1 s2 :
  pass_block m1 s1 -> pass_block m2 s2 -> pass_block (m1;; m2) (s1 ++ s2)%list.
Proof.
  intros H1 H2 w. rewrite run_bind.
  destruct (H1 w) as (F1 & e1 & T1 & P1 & A1 & N1).
  destruct (H2 (run m1 w)) as (F2 & e2 & T2 & P2 & A2 & N2).
  split; [rewrite F2; exact F1|].
  exists (e1 ++ e2)%list. split; [rewrite T2, T1, app_assoc; reflexivity|].
  split; [rewrite passes_of_app, P1, P2; reflexivity|].
  split; [rewrite forallb_app, A1, A2; reflexivity|].
  intros E. apply app_eq_nil in E. destruct E as [E1 E2].
  rewrite (N1 E1), (N2 E2). reflexivity.
Qed.

(** The method dispatch of [wipe_file] announces the expected passes. *)
Lemma dispatch_block cs rv meth h file_size :
  pass_block
    (if strcmp_is_0 meth "--clear" then
       overwrite_pass_simd cs rv 0 (Some h) file_size 1 1 0
     else if strcmp_is_0 meth "--purge" then
       overwrite_pass_simd cs rv 0 (Some h) file_size 1 3 0;;
       overwrite_pass_simd cs rv 0 (Some h) file_size 2 3 255;;
       overwrite_pass_simd cs rv 0 (Some h) file_size 3 3 char_R
     else if strcmp_is_0 meth "--destroy-sw" then
       overwrite_pass_simd cs rv 0 (Some h) file_size 1 7 0;;
       overwrite_pass_simd cs rv 0 (Some h) file_size 2 7 255;;
       overwrite_pass_simd cs rv 0 (Some h) file_size 3 7 0;;
       overwrite_pass_simd cs rv 0 (Some h) file_size 4 7 170;;
       overwrite_pass_simd cs rv 0 (Some h) file_size 5 7 85;;
       overwrite_pass_simd cs rv 0 (Some h) file_size 6 7 170;;
       overwrite_pass_simd cs rv 0 (Some h) file_size 7 7 char_R
     else mret tt)
    (expected_passes cs meth).
Proof.
  unfold expected_passes.
  destruct (strcmp_is_0 meth "--clear"); [apply pass_block_pass|].
  destruct (strcmp_is_0 meth "--purge").
  { repeat (apply (pass_block_seq _ _ [_]); [apply pass_block_pass|]).
    apply pass_block_pass. }
  destruct (strcmp_is_0 meth "--destroy-sw"); [|apply pass_block_skip].
  repeat (apply (pass_block_seq _ _ [_]); [apply pass_block_pass|]).
  apply pass_block_pass.
Qed.

(** The whole of [wipe_file] on a file that can be opened: the events
    in order, the value returned and what becomes of the directory entry. *)
Lemma wipe_file_shape cs rv path meth ipf w fl :
  fs w !! path = Some fl ->
  f_openable fl = true ->
  let h := lowest_free_fd (open_files w) in
  let file_size := if f_seekable fl then f_len fl else -1 in
  let w' := run (wipe_file cs rv path meth ipf) w in
  exists body,
    trace w' =
      (trace w ++ [EvOpen path h; EvSeekStart h] ++ body
         ++ [EvClose h;
             EvRemove path (if f_removable fl then 0 else -1);
             EvReport (if f_removable fl then Wiped_and_deleted
                       else Could_not_delete)])%list /\
    passes_of body = (if 0 <? file_size then expected_passes cs meth else []) /\
    forallb is_pass_event body = true /\
    (passes_of body = [] -> body = []) /\
    result (wipe_file cs rv path meth ipf) w = (if f_removable fl then 0 else 1) /\
    (if f_removable fl then fs w' !! path = None else is_Some (fs w' !! path)).
Proof.
  intros Hf Hopen. cbv zeta.
  set (h := lowest_free_fd (open_files w)).
  unfold wipe_file.
  rewrite run_bind, result_bind.
  assert (Hres : result (sys_open path) w = Some h).
  { unfold sys_open, result. rewrite Hf, Hopen. reflexivity. }
  assert (Hrun : run (sys_open path) w =
            emit (EvOpen path h)
              (set_open_files (<[h := mk_ofd path 0]> (open_files w)) w)).
  { unfold sys_open, run. rewrite Hf, Hopen. reflexivity. }
  rewrite Hres, Hrun. clear Hres Hrun.
  set (w1 := emit _ _).
  assert (Ho1 : open_files w1 !! h = Some (mk_ofd path 0)) by apply lookup_insert_eq.
  assert (Hf1 : fs w1 = fs w) by reflexivity.
  assert (Ht1 : trace w1 = (trace w ++ [EvOpen path h])%list) by reflexivity.
  rewrite run_bind, result_bind.
  assert (Hfile1 : file_of h w1 = Some fl).
  { unfold file_of. rewrite Ho1. exact Hf. }
  set (w2 := run (fseek_end h) w1).
  assert (Hw2 : fs w2 = fs w /\ trace w2 = trace w1 /\
                open_files w2 !! h =
                  Some (mk_ofd path (if f_seekable fl then f_len fl else 0))).
  { unfold w2, fseek_end, run. rewrite Hfile1. simpl.
    destruct (f_seekable fl); [|auto].
    unfold set_pos. rewrite Ho1. simpl. rewrite lookup_insert_eq. auto. }
  destruct Hw2 as (Hf2 & Ht2 & Ho2).
  rewrite run_bind, result_bind.
  assert (Hsz : result (ftello h) w2 = (if f_seekable fl then f_len fl else -1)
                /\ run (ftello h) w2 = w2).
  { unfold ftello, result, run, file_of. rewrite Ho2. simpl. rewrite Hf2, Hf.
    destruct (f_seekable fl); auto. }
  destruct Hsz as (Hsz & Hsame). rewrite Hsz, Hsame. clear Hsz Hsame.
  set (file_size := if f_seekable fl then f_len fl else -1).
  rewrite run_bind, result_bind.
  set (w3 := run (seek_start h) w2).
  assert (Hf3 : fs w3 = fs w).
  { unfold w3, seek_start, modify, run. simpl. rewrite fs_set_pos. exact Hf2. }
  assert (Ht3 : trace w3 = (trace w ++ [EvOpen path h; EvSeekStart h])%list).
  { unfold w3. rewrite trace_seek_start, Ht2, Ht1, <- app_assoc. reflexivity. }
  rewrite run_bind, result_bind.
  set (block := if 0 <? file_size then _ else _).
  assert (Hblock : pass_block block
                     (if 0 <? file_size then expected_passes cs meth else [])).
  { unfold block. destruct (0 <? file_size);
      [apply dispatch_block|apply pass_block_skip]. }
  destruct (Hblock w3) as (Hflags & body & Ht4 & Hpasses & Hbody & Hnone).
  rewrite <- Hpasses in Hnone.
  set (w4 := run block w3) in *.
  rewrite run_bind, result_bind.
  set (w5 := run (sys_close h) w4).
  assert (Hf5 : fs w5 = fs w4) by reflexivity.
  assert (Ht5 : trace w5 = (trace w4 ++ [EvClose h])%list) by reflexivity.
  assert (Hfl5 : exists fl5, fs w5 !! path = Some fl5 /\ f_removable fl5 = f_removable fl).
  { assert (E : (file_flags <$> fs w4) !! path = Some (file_flags fl)).
    { rewrite Hflags, Hf3, lookup_fmap, Hf. reflexivity. }
    rewrite lookup_fmap in E. rewrite Hf5.
    destruct (fs w4 !! path) as [fl5|]; [|discriminate].
    exists fl5. split; [reflexivity|]. simpl in E. injection E as E. 
    unfold file_flags in E. congruence. }
  destruct Hfl5 as (fl5 & Hfl5 & Hrm).
  rewrite run_bind, result_bind.
  assert (Hremove : remove path w5 =
            if f_removable fl
            then (0, emit (EvRemove path 0) (set_fs (delete path (fs w5)) w5))
            else (-1, emit (EvRemove path (-1)) w5)).
  { unfold remove. rewrite Hfl5, Hrm. reflexivity. }
  assert (Hr : result (remove path) w5 = if f_removable fl then 0 else -1).
  { unfold result. rewrite Hremove. destruct (f_removable fl); reflexivity. }
  assert (Hw : run (remove path) w5 =
            if f_removable fl
            then emit (EvRemove path 0) (set_fs (delete path (fs w5)) w5)
            else emit (EvRemove path (-1)) w5).
  { unfold run. rewrite Hremove. destruct (f_removable fl); reflexivity. }
  exists body. clearbody w5. rewrite Hr, Hw. clear Hr Hw Hremove.
  destruct (f_removable fl); simpl.
  - rewrite Ht5, Ht4, Ht3, <- !app_assoc.
    repeat split; try assumption; try reflexivity. apply lookup_delete_eq.
  - rewrite Ht5, Ht4, Ht3, <- !app_assoc.
    repeat split; try assumption; try reflexivity. rewrite Hfl5. eauto.
Qed.

Lemma wipe_file_events cs rv path meth ipf w fl :
  fs w !! path = Some fl ->
  f_openable fl = true ->
  let h := lowest_free_fd (open_files w) in
  let file_size := if f_seekable fl then f_len fl else -1 in
  exists body,
    events_since w (run (wipe_file cs rv path meth ipf) w) =
      ([EvOpen path h; EvSeekStart h] ++ body
         ++ [EvClose h;
             EvRemove path (if f_removable fl then 0 else -1);
             EvReport (if f_removable fl then Wiped_and_deleted
                       else Could_not_delete)])%list /\
    passes_of body = (if 0 <? file_size then expected_passes cs meth else []) /\
    forallb is_pass_event body = true /\
    (passes_of body = [] -> body = []).
Proof.
  intros Hf Hopen. cbv zeta.
  destruct (wipe_file_shape cs rv path meth ipf w fl Hf Hopen)
    as (body & Htr & Hp & Hall & Hnone & _).
  exists body. rewrite (events_since_app _ _ _ Htr). auto.
Qed.

Lemma passes_of_frame h path r rep body :
  passes_of ([EvOpen path h; EvSeekStart h] ++ body
               ++ [EvClose h; EvRemove path r; EvReport rep])
  = passes_of body.
Proof. rewrite !passes_of_app. simpl. apply app_nil_r. Qed.

Lemma banner_of_byte cs b :
  0 <= b < 256 -> b <> char_R -> banner_of cs b = Pattern_byte b.
Proof.
  intros Hb Hr. unfold banner_of, to_char, to_uchar, char_R in *.
  destruct cs.
  - destruct (Z.ltb_spec b 128).
    + rewrite (Z.mod_small (b + 128)) by lia.
      replace (b + 128 - 128) with b by lia.
      destruct (Z.eqb_spec b 82); [lia|]. rewrite Z.mod_small by lia. reflexivity.
    + replace ((b + 128) mod 256) with (b - 128).
      2:{ rewrite <- (Z.mod_add (b + 128) (-1)) by lia.
          rewrite Z.mod_small by lia. lia. }
      destruct (Z.eqb_spec (b - 128 - 128) 82); [lia|].
      rewrite <- (Z.mod_add (b - 128 - 128) 1) by lia.
      rewrite Z.mod_small by lia. f_equal. lia.
  - rewrite Z.mod_small by lia.
    destruct (Z.eqb_spec b 82); [lia|]. rewrite Z.mod_small by lia. reflexivity.
Qed.

Lemma banner_of_R cs : banner_of cs char_R = Random_data.
Proof. destruct cs; reflexivity. Qed.

(** ** The pass schedule of [wipe_file] *)

(** What [wipe_file] announces.  On a file of positive size the banners
    of the passes form a fixed sequence for each method, the same in every
    world and for every path: one pass for [--clear], three for [--purge],
    seven for [--destroy-sw], numbered from 1 in order; the seven banners
    of [--destroy-sw] show 0x00, 0xFF, 0x00, 0xAA, 0x55, 0xAA, random.
    The bytes each pass writes are another matter: they depend on the
    signedness of plain [char]. *)
Theorem wipe_file_schedule cs rv path ipf w fl :
  fs w !! path = Some fl ->
  f_openable fl = true ->
  f_seekable fl = true ->
  0 < f_len fl ->
  passes_of (events_since w (run (wipe_file cs rv path "--clear" ipf) w))
    = [(1, 1, Pattern_byte 0)] /\
  passes_of (events_since w (run (wipe_file cs rv path "--purge" ipf) w))
    = [(1, 3, Pattern_byte 0); (2, 3, Pattern_byte 255); (3, 3, Random_data)] /\
  passes_of (events_since w (run (wipe_file cs rv path "--destroy-sw" ipf) w))
    = [(1, 7, Pattern_byte 0); (2, 7, Pattern_byte 255); (3, 7, Pattern_byte 0);
       (4, 7, Pattern_byte 170); (5, 7, Pattern_byte 85); (6, 7, Pattern_byte 170);
       (7, 7, Random_data)].
Proof.
  intros Hf Hopen Hseek Hlen.
  assert (Hpos : (0 <? (if f_seekable fl then f_len fl else -1)) = true).
  { rewrite Hseek. apply Z.ltb_lt. exact Hlen. }
  assert (H0 : banner_of cs 0 = Pattern_byte 0) by (apply banner_of_byte; unfold char_R; lia).
  assert (H255 : banner_of cs 255 = Pattern_byte 255) by (apply banner_of_byte; unfold char_R; lia).
  assert (H170 : banner_of cs 170 = Pattern_byte 170) by (apply banner_of_byte; unfold char_R; lia).
  assert (H85 : banner_of cs 85 = Pattern_byte 85) by (apply banner_of_byte; unfold char_R; lia).
  pose proof (banner_of_R cs) as HR.
  repeat split.
  - destruct (wipe_file_events cs rv path "--clear" ipf w fl Hf Hopen)
      as (body & -> & Hp & _).
    rewrite passes_of_frame, Hp, Hpos. unfold expected_passes. simpl.
    rewrite H0. reflexivity.
  - destruct (wipe_file_events cs rv path "--purge" ipf w fl Hf Hopen)
      as (body & -> & Hp & _).
    rewrite passes_of_frame, Hp, Hpos. unfold expected_passes. simpl.
    rewrite H0, H255, HR. reflexivity.
  - destruct (wipe_file_events cs rv path "--destroy-sw" ipf w fl Hf Hopen)
      as (body & -> & Hp & _).
    rewrite passes_of_frame, Hp, Hpos. unfold expected_passes. simpl.
    rewrite H0, H255, H170, H85, HR. reflexivity.
Qed.

(** The theorem at work on the ten-byte sample file. *)
Lemma wipe_file_schedule_witness :
  passes_of (events_since (sample_world [])
               (run (wipe_file true lcg "a.bin" "--destroy-sw" 0) (sample_world [])))
    = [(1, 7, Pattern_byte 0); (2, 7, Pattern_byte 255); (3, 7, Pattern_byte 0);
       (4, 7, Pattern_byte 170); (5, 7, Pattern_byte 85); (6, 7, Pattern_byte 170);
       (7, 7, Random_data)].
Proof.
  apply (wipe_file_schedule true lcg "a.bin" 0 (sample_world []) ten_As);
    [reflexivity|reflexivity|reflexivity|simpl; lia].
Defined.

(** ** Files of size zero *)

(** C9. On a file whose size at open time is 0, [wipe_file] runs no pass
    and makes no write: it opens the file, closes it and calls [remove];
    when the removal succeeds the entry is gone and 0 is returned. *)
Theorem wipe_file_zero_length cs rv path meth ipf w fl :
  fs w !! path = Some fl ->
  f_openable fl = true ->
  f_seekable fl = true ->
  f_len fl = 0 ->
  let h := lowest_free_fd (open_files w) in
  let w' := run (wipe_file cs rv path meth ipf) w in
  events_since w w' =
    [EvOpen path h; EvSeekStart h; EvClose h;
     EvRemove path (if f_removable fl then 0 else -1);
     EvReport (if f_removable fl then Wiped_and_deleted else Could_not_delete)] /\
  passes_of (events_since w w') = [] /\
  write_requests (events_since w w') = [] /\
  (f_removable fl = true ->
   result (wipe_file cs rv path meth ipf) w = 0 /\ fs w' !! path = None).
Proof.
  intros Hf Hopen Hseek Hlen. cbv zeta.
  destruct (wipe_file_shape cs rv path meth ipf w fl Hf Hopen)
    as (body & Htr & Hp & _ & Hnone & Hres & Hfs).
  rewrite Hseek, Hlen in Hp. simpl in Hp.
  rewrite (Hnone Hp) in Htr.
  rewrite (events_since_app _ _ _ Htr).
  split; [reflexivity|]. split; [reflexivity|]. split; [reflexivity|].
  intros Hrm. rewrite Hrm in *. auto.
Qed.

Lemma wipe_file_zero_length_witness :
  result (wipe_file true lcg "empty.txt" "--purge" 0) world_with_empty_file = 0 /\
  fs (run (wipe_file true lcg "empty.txt" "--purge" 0) world_with_empty_file)
    !! "empty.txt" = None.
Proof.
  destruct (wipe_file_zero_length true lcg "empty.txt" "--purge" 0
              world_with_empty_file empty_file)
    as (_ & _ & _ & Hok); [reflexivity|reflexivity|reflexivity|reflexivity|].
  apply Hok. reflexivity.
Defined.

(** ** Methods the dispatch does not know *)

(** With a method that is none of the three, [wipe_file] runs no pass
    and deletes the file all the same. *)
Lemma wipe_file_unknown_method cs rv path meth ipf w fl :
  fs w !! path = Some fl ->
  f_openable fl = true ->
  f_removable fl = true ->
  meth <> "--clear" -> meth <> "--purge" -> meth <> "--destroy-sw" ->
  let h := lowest_free_fd (open_files w) in
  let w' := run (wipe_file cs rv path meth ipf) w in
  events_since w w' =
    [EvOpen path h; EvSeekStart h; EvClose h; EvRemove path 0;
     EvReport Wiped_and_deleted] /\
  result (wipe_file cs rv path meth ipf) w = 0 /\
  fs w' !! path = None.
Proof.
  intros Hf Hopen Hrm N1 N2 N3. cbv zeta.
  destruct (wipe_file_shape cs rv path meth ipf w fl Hf Hopen)
    as (body & Htr & Hp & _ & Hnone & Hres & Hfs).
  assert (E : expected_passes cs meth = []).
  { unfold expected_passes, strcmp_is_0.
    apply String.eqb_neq in N1, N2, N3. rewrite N1, N2, N3. reflexivity. }
  rewrite E in Hp.
  assert (Hp' : passes_of body = []) by (rewrite Hp; destruct (0 <? _); reflexivity).
  rewrite (Hnone Hp'), Hrm in Htr. rewrite Hrm in Hres, Hfs.
  rewrite (events_since_app _ _ _ Htr). auto.
Qed.

(** C5.  [wipe_file] on the ten-byte sample file with the method
    [--turbo], which the usage text lists and the dispatch does not know:
    no pass is announced and nothing is written, the file is removed, the
    success line is printed and 0 is returned.  The same happens with a
    method nobody lists. *)
Theorem unknown_method_deletes_unwiped :
  let w := sample_world [] in
  events_since w (run (wipe_file true lcg "a.bin" "--turbo" 0) w)
    = [EvOpen "a.bin" 3; EvSeekStart 3; EvClose 3; EvRemove "a.bin" 0;
       EvReport Wiped_and_deleted] /\
  result (wipe_file true lcg "a.bin" "--turbo" 0) w = 0 /\
  fs (run (wipe_file true lcg "a.bin" "--turbo" 0) w) !! "a.bin" = None /\
  result (wipe_file true lcg "a.bin" "--no-such-method" 0) w = 0 /\
  fs (run (wipe_file true lcg "a.bin" "--no-such-method" 0) w) !! "a.bin" = None.
Proof. vm_compute. auto. Qed.

(** ** Passes that fail *)




(** ** The raw device wipe *)

(** With [--destroy-sw] the callee is never called: the run is the same
    whatever pass routine is plugged in. *)
Lemma wipe_disk_destroy_calls_nothing op1 op2 path w :
  wipe_disk_raw op1 path "--destroy-sw" w
  = wipe_disk_raw op2 path "--destroy-sw" w.
Proof.
  unfold wipe_disk_raw, mbind, M_bind.
  destruct (sys_open path w) as [[fd|] w1]; [|reflexivity].
  destruct (ioctl_blkgetsize64 fd w1) as [[sz|] w2]; reflexivity.
Qed.

(** With [--clear] and [--purge], and [overwrite_pass_simd] as the pass
    routine, the device gets the passes a file gets. *)
Lemma wipe_disk_clear_purge :
  let disk m := wipe_disk_raw (overwrite_pass_simd true lcg) "/dev/sdz" m in
  passes_of (events_since (sample_world []) (run (disk "--clear") (sample_world [])))
    = expected_passes true "--clear" /\
  passes_of (events_since (sample_world []) (run (disk "--purge") (sample_world [])))
    = expected_passes true "--purge".
Proof. vm_compute. auto. Qed.

(** C8.  [wipe_disk_raw] on the sample device with [--destroy-sw] and
    [overwrite_pass_simd] as the pass routine: the device is opened and
    closed, no pass is announced, no byte is written, success is reported
    and 0 returned; [wipe_file] with the same method announces seven
    passes. *)
Theorem disk_destroy_runs_no_pass :
  let w := sample_world [] in
  let disk := wipe_disk_raw (overwrite_pass_simd true lcg)
                "/dev/sdz" "--destroy-sw" in
  events_since w (run disk w) = [EvOpen "/dev/sdz" 3; EvClose 3; EvReport Disk_wiped] /\
  passes_of (events_since w (run disk w)) = [] /\
  result disk w = 0 /\
  (forall o, 0 <= o < 600000000 ->
     (fl ← fs (run disk w) !! "/dev/sdz"; Some (f_bytes fl o)) = Some 65) /\
  length (passes_of (events_since w
            (run (wipe_file true lcg "a.bin" "--destroy-sw" 0) w))) = 7%nat.
Proof.
  cbv zeta. split; [vm_compute; reflexivity|].
  split; [vm_compute; reflexivity|].
  split; [vm_compute; reflexivity|].
  split; [|vm_compute; reflexivity].
  intros o _. reflexivity.
Qed.

(** ** The folder scheduler *)

(** C6.  [wipe_folder_recursive] on [crowded_tree]: the 63 threads of the
    upper level are still unjoined when the call for [sub] creates two
    more, so 65 threads are in flight, one more than [MAX_THREADS]; all are
    joined in the end. *)
Theorem nested_folder_exceeds_max_threads :
  let s := snd (wipe_folder_recursive "/data" "--clear" (Some crowded_tree)
                  (mk_sched 0 [])) in
  peak_in_flight (actions s) = 65%nat /\
  (MAX_THREADS < peak_in_flight (actions s))%nat /\
  in_flight (actions s) = 0%nat /\
  created s = 65%nat.
Proof. vm_compute. repeat split; lia. Qed.

(** ** Within one directory level the barrier holds *)

Lemma tally_joins l : forall cur pk,
  (length l <= cur)%nat ->
  fold_left peak_step (map Join l) (cur, pk) =
    ((cur - length l)%nat, match l with [] => pk | _ => Nat.max pk (cur - 1) end).
Proof.
  induction l as [|x l IH]; intros cur pk Hl; simpl in *.
  - f_equal. lia.
  - unfold peak_step at 2. simpl. rewrite IH by lia.
    f_equal; [lia|]. destruct l; lia.
Qed.

Lemma peak_ge_current l : forall st,
  (fst st <= snd st)%nat ->
  (fst (fold_left peak_step l st) <= snd (fold_left peak_step l st))%nat.
Proof.
  induction l as [|a l IH]; intros st Hst; [exact Hst|].
  simpl. apply IH. unfold peak_step. simpl. lia.
Qed.

Lemma visit_level_ok basePath meth e fr :
  not_directory e -> level_ok fr -> level_ok (visit basePath meth e fr).
Proof.
  unfold level_ok, MAX_THREADS. intros He (Hlen & Htc & Hcur & Hpk).
  destruct e as [n|n ok|n ok sub]; [| |contradiction]; simpl;
    destruct (strcmp_is_0 n "." || strcmp_is_0 n ".."); try (repeat split; assumption).
  destruct ok; [|repeat split; assumption].
  unfold pthread_create.
  set (s1 := mk_sched _ _).
  assert (Hs1 : tally s1 = (S (thread_count fr), Nat.max (snd (tally (sch fr))) (S (thread_count fr)))).
  { unfold tally, s1. simpl. rewrite fold_left_app. fold (tally (sch fr)). simpl.
    unfold peak_step. simpl. rewrite Hcur. reflexivity. }
  cbn [thread_count].
  destruct (Nat.eqb_spec (thread_count fr) 63) as [Efull|Enot].
  - cbn [hThreads thread_count sch].
    split; [rewrite length_insert; exact Hlen|].
    split; [lia|].
    unfold tally, join_all. cbn [actions sch hThreads thread_count created].
    rewrite fold_left_app. fold (tally s1). rewrite Hs1.
    rewrite tally_joins.
    + rewrite length_take, length_insert, Hlen. cbn [fst snd].
      split; [lia|].
      destruct (take _ _); lia.
    + rewrite length_take. lia.
  - cbn [hThreads thread_count sch].
    split; [rewrite length_insert; exact Hlen|].
    split; [lia|]. rewrite Hs1. cbn [fst snd]. split; [reflexivity|lia].
Qed.

Lemma readdir_loop_level_ok basePath meth entries : forall fr,
  Forall not_directory entries -> level_ok fr ->
  level_ok (readdir_loop basePath meth entries fr).
Proof.
  unfold readdir_loop.
  induction entries as [|e l IH]; intros fr Hall Hfr; [exact Hfr|].
  inversion Hall; subst. simpl. apply IH; [assumption|].
  apply visit_level_ok; assumption.
Qed.

(** In a directory without sub-directories never more than [MAX_THREADS]
    threads are in flight, and a batch of [MAX_THREADS] is joined before
    the next thread is created. *)
Lemma flat_folder_within_bound basePath meth entries :
  Forall not_directory entries ->
  let s := snd (wipe_folder_recursive basePath meth (Some entries) (mk_sched 0 [])) in
  (peak_in_flight (actions s) <= MAX_THREADS)%nat /\ in_flight (actions s) = 0%nat.
Proof.
  intros Hall. cbv zeta. unfold wipe_folder_recursive. cbn [snd].
  assert (H0 : level_ok (new_frame (mk_sched 0 []))).
  { unfold level_ok, new_frame. simpl. unfold MAX_THREADS. repeat split; lia. }
  pose proof (readdir_loop_level_ok basePath meth entries _ Hall H0) as (Hlen & Htc & Hcur & Hpk).
  set (fr := readdir_loop _ _ _ _) in *.
  assert (Hge : (fst (tally (sch fr)) <= snd (tally (sch fr)))%nat).
  { apply peak_ge_current. simpl. lia. }
  assert (Hfin : fold_left peak_step (actions (finish basePath fr)) (0%nat, 0%nat)
                 = (0%nat, snd (tally (sch fr)))).
  { unfold finish, rmdir. cbn [actions].
    rewrite fold_left_app.
    destruct (Nat.ltb_spec 0 (thread_count fr)) as [Hpos|Hzero].
    - unfold join_all. cbn [actions]. rewrite fold_left_app. fold (tally (sch fr)).
      rewrite (surjective_pairing (tally (sch fr))), tally_joins
        by (rewrite length_take; lia).
      rewrite length_take, Hlen, Hcur. simpl. unfold peak_step. simpl.
      f_equal; [lia|].
      destruct (take _ _); lia.
    - fold (tally (sch fr)). rewrite (surjective_pairing (tally (sch fr))).
      simpl. unfold peak_step. simpl. rewrite Hcur. f_equal; lia. }
  split.
  - unfold peak_in_flight. rewrite Hfin. exact Hpk.
  - unfold in_flight.
    assert (E : forall l st, fst (fold_left peak_step l st) = fold_left in_flight_step l (fst st)).
    { induction l as [|a l IH]; intros st; [reflexivity|]. simpl. rewrite IH. reflexivity. }
    rewrite <- (E _ (0%nat, 0%nat)), Hfin. reflexivity.
Qed.

(** The [Directory] case of [visit] is the recursive call of
    [wipe_folder_recursive] on the sub-directory. *)
Lemma visit_directory basePath meth n ok sub fr :
  strcmp_is_0 n "." || strcmp_is_0 n ".." = false ->
  sch (visit basePath meth (Directory n ok sub) fr) =
    snd (wipe_folder_recursive (snprintf_path basePath n) meth
           (if ok then Some sub else None) (sch fr)) /\
  hThreads (visit basePath meth (Directory n ok sub) fr) = hThreads fr /\
  thread_count (visit basePath meth (Directory n ok sub) fr) = thread_count fr.
Proof.
  intros Hdot. simpl. rewrite Hdot. cbn [sch hThreads thread_count].
  split; [|split; reflexivity].
  destruct ok; reflexivity.
Qed.

(** * The rest of the engine: proofs *)

(** ** The SIMD fill and copy routines *)

Lemma store_run_app p n1 n2 b m a :
  0 <= n1 -> 0 <= n2 ->
  store_run (p + n1) n2 b (store_run p n1 b m) a = store_run p (n1 + n2) b m a.
Proof.
  intros H1 H2. unfold store_run.
  destruct (Z.leb_spec (p + n1) a), (Z.ltb_spec a (p + n1 + n2)),
    (Z.leb_spec p a), (Z.ltb_spec a (p + n1)), (Z.ltb_spec a (p + (n1 + n2)));
    simpl; try lia; reflexivity.
Qed.

Lemma store_run_ext p n b m1 m2 a :
  m1 a = m2 a -> store_run p n b m1 a = store_run p n b m2 a.
Proof. intros H. unfold store_run. destruct (_ && _); [reflexivity|exact H]. Qed.

Lemma tail_bytes_spec c k : forall p n m a,
  0 <= n -> (Z.to_nat n <= k)%nat ->
  tail_bytes k p n c m a = store_run p n (c mod 256) m a.
Proof.
  induction k as [|k IH]; intros p n m a Hn Hk.
  - assert (n = 0) by lia. subst n. simpl. unfold store_run.
    destruct (Z.leb_spec p a), (Z.ltb_spec a (p + 0)); simpl; try lia; reflexivity.
  - simpl. destruct (Z.ltb_spec 0 n) as [Hpos|Hz].
    + rewrite IH by lia.
      replace n with (1 + (n - 1)) at 2 by lia.
      apply store_run_app; lia.
    + assert (n = 0) by lia. subst n. unfold store_run.
      destruct (Z.leb_spec p a), (Z.ltb_spec a (p + 0)); simpl; try lia; reflexivity.
Qed.

Lemma avx512_chunks_spec b k : forall p n m,
  0 <= n -> (p mod 64 = 0 \/ n < 64) ->
  (Z.to_nat (n / 64) < k)%nat ->
  exists m',
    avx512_chunks k p n b m = Some (p + 64 * (n / 64), n mod 64, m') /\
    forall a, m' a = store_run p (64 * (n / 64)) b m a.
Proof.
  induction k as [|k IH]; intros p n m Hn Hal Hk; [lia|].
  simpl. destruct (Z.leb_spec 64 n) as [Hbig|Hsmall].
  - destruct Hal as [Hal|]; [|lia].
    unfold stream_si512. rewrite Hal. simpl.
    assert (Hd : n / 64 = (n - 64) / 64 + 1).
    { rewrite <- Z.div_add by lia. f_equal. lia. }
    assert (Hm : n mod 64 = (n - 64) mod 64).
    { rewrite <- (Z.mod_add (n - 64) 1) by lia. f_equal. lia. }
    assert (0 <= (n - 64) / 64) by (apply Z.div_pos; lia).
    destruct (IH (p + 64) (n - 64) (store_run p 64 b m)) as (m' & E & Hm'); [lia| |lia|].
    { left. rewrite <- (Z.mod_add p 1 64) in Hal by lia. 
      replace (p + 64) with (p + 1 * 64) by lia. exact Hal. }
    exists m'. split.
    + rewrite E, Hd, Hm. do 3 f_equal. lia.
    + intros a. rewrite Hm', Hd.
      replace (64 * ((n - 64) / 64 + 1)) with (64 + 64 * ((n - 64) / 64)) by lia.
      apply store_run_app; lia.
  - exists m. rewrite Z.div_small, Z.mod_small by lia. split.
    + do 3 f_equal. lia.
    + intros a. unfold store_run.
      destruct (Z.leb_spec p a), (Z.ltb_spec a (p + 64 * 0)); simpl; try lia; reflexivity.
Qed.

Lemma avx2_chunks_spec b k : forall p n m,
  0 <= n -> (Z.to_nat (n / 32) < k)%nat ->
  fst (fst (avx2_chunks k p n b m)) = p + 32 * (n / 32) /\
  snd (fst (avx2_chunks k p n b m)) = n mod 32 /\
  forall a, snd (avx2_chunks k p n b m) a = store_run p (32 * (n / 32)) b m a.
Proof.
  induction k as [|k IH]; intros p n m Hn Hk; [lia|].
  simpl. destruct (Z.leb_spec 32 n) as [Hbig|Hsmall].
  - assert (Hd : n / 32 = (n - 32) / 32 + 1).
    { rewrite <- Z.div_add by lia. f_equal. lia. }
    assert (Hm : n mod 32 = (n - 32) mod 32).
    { rewrite <- (Z.mod_add (n - 32) 1) by lia. f_equal. lia. }
    assert (0 <= (n - 32) / 32) by (apply Z.div_pos; lia).
    destruct (IH (p + 32) (n - 32) (storeu_si256 p b m)) as (E1 & E2 & E3); [lia|lia|].
    rewrite E1, E2, Hd, Hm. split; [lia|]. split; [reflexivity|].
    intros a. rewrite E3. unfold storeu_si256.
    replace (32 * ((n - 32) / 32 + 1)) with (32 + 32 * ((n - 32) / 32)) by lia.
    apply store_run_app; lia.
  - simpl. rewrite Z.div_small, Z.mod_small by lia. split; [lia|]. split; [reflexivity|].
    intros a. unfold store_run.
    destruct (Z.leb_spec p a), (Z.ltb_spec a (p + 32 * 0)); simpl; try lia; reflexivity.
Qed.

(** X1. [memset_avx512] is [memset]: for a 64-byte aligned pointer (or
    fewer than 64 bytes) it does not fault, sets the [n] bytes from [s] on
    to the low byte of [c] and leaves every other byte alone, with or
    without [__AVX512F__]. *)
Theorem memset_avx512_is_memset have s c n m :
  0 <= n -> (s mod 64 = 0 \/ n < 64) ->
  exists m',
    memset_avx512 have s c n m = Some m' /\
    forall a, m' a = if (s <=? a) && (a <? s + n) then c mod 256 else m a.
Proof.
  intros Hn Hal. unfold memset_avx512. destruct have.
  - assert (0 <= n / 64) by (apply Z.div_pos; lia).
    destruct (avx512_chunks_spec (c mod 256) (S (Z.to_nat (n / 64))) s n m Hn Hal)
      as (m1 & E & Hm1); [lia|].
    rewrite E. cbn [mbind option_bind fst snd]. eexists. split; [reflexivity|].
    intros a.
    pose proof (Z.mod_pos_bound n 64 ltac:(lia)) as Hr.
    rewrite tail_bytes_spec by lia.
    rewrite (store_run_ext _ _ _ _ _ _ (Hm1 a)).
    rewrite store_run_app by lia.
    rewrite <- Z.div_mod by lia. reflexivity.
  - eexists. split; [reflexivity|]. reflexivity.
Qed.

Lemma memset_avx512_is_memset_witness :
  exists m',
    memset_avx512 true 128 (-1) 200 (fun _ => 7) = Some m' /\
    forall a, m' a = if (128 <=? a) && (a <? 128 + 200) then (-1) mod 256 else 7.
Proof.
  apply (memset_avx512_is_memset true 128 (-1) 200 (fun _ => 7)); [lia|left; reflexivity].
Defined.

(** X2. [memset_avx2] is [memset] for every pointer: the [n] bytes from
    [s] on become the low byte of [c], every other byte stays, with or
    without [__AVX2__]. *)
Theorem memset_avx2_is_memset have s c n m :
  0 <= n ->
  forall a, memset_avx2 have s c n m a
            = if (s <=? a) && (a <? s + n) then c mod 256 else m a.
Proof.
  intros Hn a. unfold memset_avx2. destruct have; [|reflexivity].
  assert (0 <= n / 32) by (apply Z.div_pos; lia).
  destruct (avx2_chunks_spec (c mod 256) (S (Z.to_nat (n / 32))) s n m Hn)
    as (E1 & E2 & E3); [lia|].
  cbv zeta. rewrite E1, E2.
  pose proof (Z.mod_pos_bound n 32 ltac:(lia)) as Hr.
  rewrite tail_bytes_spec by lia.
  rewrite (store_run_ext _ _ _ _ _ _ (E3 a)).
  rewrite store_run_app by lia.
  rewrite <- Z.div_mod by lia. reflexivity.
Qed.

Lemma memset_avx2_is_memset_witness :
  memset_avx2 true 5 170 70 (fun _ => 7) 74 = 170 /\
  memset_avx2 true 5 170 70 (fun _ => 7) 75 = 7.
Proof.
  split; rewrite (memset_avx2_is_memset true 5 170 70 (fun _ => 7)) by lia; reflexivity.
Defined.

Lemma copy_run_app d s n1 n2 m a :
  0 <= n1 -> 0 <= n2 ->
  (d + (n1 + n2) <= s \/ s + (n1 + n2) <= d) ->
  copy_run (d + n1) (s + n1) n2 (copy_run d s n1 m) a = copy_run d s (n1 + n2) m a.
Proof.
  intros H1 H2 Hdis. unfold copy_run.
  destruct (Z.leb_spec (d + n1) a), (Z.ltb_spec a (d + n1 + n2)),
    (Z.leb_spec d a), (Z.ltb_spec a (d + n1)), (Z.ltb_spec a (d + (n1 + n2)));
    simpl; try lia; try reflexivity.
  destruct (Z.leb_spec d (s + n1 + (a - (d + n1)))),
    (Z.ltb_spec (s + n1 + (a - (d + n1))) (d + n1)); simpl; try lia.
  all: f_equal; lia.
Qed.

Lemma copy_run_ext d s n m1 m2 a :
  (forall x, m1 x = m2 x) -> copy_run d s n m1 a = copy_run d s n m2 a.
Proof. intros H. unfold copy_run. destruct (_ && _); apply H. Qed.

Lemma avx2_copy_chunks_spec k : forall d s n m,
  0 <= n -> (d mod 32 = 0 \/ n < 32) ->
  (d + n <= s \/ s + n <= d) ->
  (Z.to_nat (n / 32) < k)%nat ->
  exists m',
    avx2_copy_chunks k d s n m
      = Some (d + 32 * (n / 32), s + 32 * (n / 32), n mod 32, m') /\
    forall a, m' a = copy_run d s (32 * (n / 32)) m a.
Proof.
  induction k as [|k IH]; intros d s n m Hn Hal Hdis Hk; [lia|].
  simpl. destruct (Z.leb_spec 32 n) as [Hbig|Hsmall].
  - destruct Hal as [Hal|]; [|lia].
    unfold stream_si256_from. rewrite Hal. simpl.
    assert (Hd : n / 32 = (n - 32) / 32 + 1).
    { rewrite <- Z.div_add by lia. f_equal. lia. }
    assert (Hm : n mod 32 = (n - 32) mod 32).
    { rewrite <- (Z.mod_add (n - 32) 1) by lia. f_equal. lia. }
    assert (Hq : 0 <= (n - 32) / 32) by (apply Z.div_pos; lia).
    assert (Hle : 32 * ((n - 32) / 32) <= n - 32).
    { pose proof (Z.mul_div_le (n - 32) 32 ltac:(lia)). lia. }
    destruct (IH (d + 32) (s + 32) (n - 32) (copy_run d s 32 m))
      as (m' & E & Hm'); [lia| |lia|lia|].
    { left. rewrite <- (Z.mod_add d 1 32) in Hal by lia.
      replace (d + 32) with (d + 1 * 32) by lia. exact Hal. }
    exists m'. split.
    + rewrite E, Hd, Hm. do 4 f_equal; lia.
    + intros a. rewrite Hm', Hd.
      replace (32 * ((n - 32) / 32 + 1)) with (32 + 32 * ((n - 32) / 32)) by lia.
      apply copy_run_app; lia.
  - exists m. rewrite Z.div_small, Z.mod_small by lia. split.
    + do 4 f_equal; lia.
    + intros a. unfold copy_run.
      destruct (Z.leb_spec d a), (Z.ltb_spec a (d + 32 * 0)); simpl; try lia; reflexivity.
Qed.

(** X3. [memcpy_avx2_streaming] is [memcpy] on regions that do not
    overlap: for a 32-byte aligned destination (or fewer than 32 bytes) it
    does not fault, byte [i] of the destination becomes byte [i] of the
    source for [i < n], and every other byte stays, with or without
    [__AVX2__]. *)
Theorem memcpy_avx2_streaming_is_memcpy have d s n m :
  0 <= n -> (d mod 32 = 0 \/ n < 32) ->
  (d + n <= s \/ s + n <= d) ->
  exists m',
    memcpy_avx2_streaming have d s n m = Some m' /\
    forall a, m' a = if (d <=? a) && (a <? d + n) then m (s + (a - d)) else m a.
Proof.
  intros Hn Hal Hdis. unfold memcpy_avx2_streaming. destruct have.
  - assert (0 <= n / 32) by (apply Z.div_pos; lia).
    destruct (avx2_copy_chunks_spec (S (Z.to_nat (n / 32))) d s n m Hn Hal Hdis)
      as (m1 & E & Hm1); [lia|].
    rewrite E. cbn [mbind option_bind]. eexists. split; [reflexivity|].
    intros a. unfold memcpy.
    pose proof (Z.mod_pos_bound n 32 ltac:(lia)) as Hr.
    pose proof (Z.div_mod n 32 ltac:(lia)) as Hdm.
    rewrite (copy_run_ext _ _ _ _ _ _ Hm1).
    rewrite copy_run_app by lia.
    rewrite <- Hdm. reflexivity.
  - eexists. split; reflexivity.
Qed.

Lemma memcpy_avx2_streaming_is_memcpy_witness :
  exists m',
    memcpy_avx2_streaming true 64 1000 70 (fun a => a mod 256) = Some m' /\
    forall a, m' a = if (64 <=? a) && (a <? 64 + 70)
                     then (1000 + (a - 64)) mod 256 else a mod 256.
Proof.
  apply (memcpy_avx2_streaming_is_memcpy true 64 1000 70 (fun a => a mod 256));
    [lia|left; reflexivity|left; lia].
Defined.

(** ** What a pass may touch, whatever the write calls do *)

Lemma within_refl lo hi fl : within lo hi fl fl.
Proof. unfold within. repeat split; try reflexivity; lia. Qed.

Lemma within_trans lo hi a b c d fl0 fl1 fl2 :
  within a b fl0 fl1 -> within c d fl1 fl2 ->
  lo <= a -> lo <= c -> b <= hi -> d <= hi ->
  within lo hi fl0 fl2.
Proof.
  intros (B1 & L1 & U1 & F1) (B2 & L2 & U2 & F2) ? ? ? ?.
  unfold within. split; [|split; [|split]].
  - intros o Ho. rewrite B2, B1 by lia. reflexivity.
  - lia.
  - lia.
  - congruence.
Qed.

Lemma store_within fl pos k buf :
  0 <= k -> within pos (pos + k) fl (store fl pos k buf).
Proof.
  intros Hk. unfold within, store, file_flags. simpl.
  split; [|split; [lia|split; [lia|reflexivity]]].
  intros o Ho.
  destruct (Z.leb_spec pos o), (Z.ltb_spec o (pos + k)); simpl; try lia; reflexivity.
Qed.

(** One write call in any world: it moves the offset by what it
    transferred, at most what it was asked, and changes nothing but those
    bytes of the target. *)
Lemma sys_write_general h g n w path pos fl :
  open_files w !! h = Some (mk_ofd path pos) ->
  fs w !! path = Some fl ->
  0 <= n ->
  exists k fl',
    0 <= k <= n /\
    open_files (run (sys_write h g n) w) !! h = Some (mk_ofd path (pos + k)) /\
    fs (run (sys_write h g n) w) !! path = Some fl' /\
    within pos (pos + k) fl fl' /\
    (forall p, p <> path -> fs (run (sys_write h g n) w) !! p = fs w !! p) /\
    (forall h', h' <> h ->
       open_files (run (sys_write h g n) w) !! h' = open_files w !! h') /\
    buffers (run (sys_write h g n) w) = buffers w /\
    rand_calls (run (sys_write h g n) w) = rand_calls w.
Proof.
  intros Ho Hf Hn. unfold sys_write, run. rewrite Ho. simpl. rewrite Hf.
  assert (Hfail : forall w1 : world,
            open_files w1 = open_files w -> fs w1 = fs w ->
            exists k fl',
              0 <= k <= n /\
              open_files w1 !! h = Some (mk_ofd path (pos + k)) /\
              fs w1 !! path = Some fl' /\
              within pos (pos + k) fl fl' /\
              (forall p, p <> path -> fs w1 !! p = fs w !! p) /\
              (forall h', h' <> h -> open_files w1 !! h' = open_files w !! h')).
  { intros w1 E1 E2. exists 0, fl. rewrite E1, E2, Z.add_0_r.
    split; [lia|]. split; [exact Ho|]. split; [exact Hf|].
    split; [apply within_refl|]. auto. }
  destruct (deref (buffers w) g) as [buf|].
  2:{ destruct (Hfail (emit (EvWrite h pos n (-1)) (set_io_plan (tail (io_plan w)) w))
                  eq_refl eq_refl) as (k & fl' & H). exists k, fl'.
      simpl. repeat split; try apply H. }
  destruct (match io_plan w with [] => Some n | c :: _ => c end) as [c|].
  2:{ destruct (Hfail (emit (EvWrite h pos n (-1)) (set_io_plan (tail (io_plan w)) w))
                  eq_refl eq_refl) as (k & fl' & H). exists k, fl'.
      simpl. repeat split; try apply H. }
  simpl. set (k := Z.min n (Z.max 0 c)).
  exists k, (store fl pos k buf).
  unfold set_pos. simpl. rewrite Ho. simpl.
  split; [lia|].
  split; [apply lookup_insert_eq|].
  split; [apply lookup_insert_eq|].
  split; [apply store_within; lia|].
  split; [intros p Hp; apply lookup_insert_ne; congruence|].
  split; [intros h' Hh'; apply lookup_insert_ne; congruence|].
  auto.
Qed.

Lemma write_loop_general n : forall fd f g size t w path pos fl,
  0 <= pos <= t -> t <= size -> size < 2 ^ 64 ->
  open_files w !! target fd f = Some (mk_ofd path pos) ->
  fs w !! path = Some fl ->
  let w' := run (write_loop n fd f g size t) w in
  exists pos' fl',
    pos <= pos' <= size /\
    open_files w' !! target fd f = Some (mk_ofd path pos') /\
    fs w' !! path = Some fl' /\
    within pos size fl fl' /\
    (forall p, p <> path -> fs w' !! p = fs w !! p) /\
    (forall h', h' <> target fd f -> open_files w' !! h' = open_files w !! h') /\
    buffers w' = buffers w /\
    rand_calls w' = rand_calls w.
Proof.
  assert (HB : 0 < BUFFER_SIZE) by reflexivity.
  induction n as [|n IH]; intros fd f g size t w path pos fl Hp Ht Hs Ho Hf; cbv zeta.
  - exists pos, fl. simpl. rewrite run_ret.
    split; [lia|]. split; [exact Ho|]. split; [exact Hf|].
    split; [apply within_refl|]. auto.
  - rewrite write_loop_unfold.
    destruct (Z.ltb_spec t size) as [Hlt|Hge].
    + rewrite to_write_le by lia. rewrite run_bind.
      set (tw := Z.min BUFFER_SIZE (size - t)).
      destruct (sys_write_general (target fd f) g tw w path pos fl Ho Hf ltac:(lia))
        as (k & fl1 & Hk & Ho1 & Hf1 & Hw1 & Hfr1 & Hfo1 & Hb1 & Hr1).
      set (w1 := run (sys_write (target fd f) g tw) w) in *.
      rewrite (u64_small (t + tw)) by lia.
      destruct (IH fd f g size (t + tw) w1 path (pos + k) fl1
                  ltac:(lia) ltac:(lia) Hs Ho1 Hf1)
        as (pos' & fl' & Hp' & Ho2 & Hf2 & Hw2 & Hfr2 & Hfo2 & Hb2 & Hr2).
      exists pos', fl'.
      split; [lia|]. split; [exact Ho2|]. split; [exact Hf2|].
      split; [apply (within_trans pos size _ _ _ _ _ _ _ Hw1 Hw2); lia|].
      split; [intros p Hne; rewrite Hfr2, Hfr1 by exact Hne; reflexivity|].
      split; [intros h' Hne; rewrite Hfo2, Hfo1 by exact Hne; reflexivity|].
      split; congruence.
    + exists pos, fl. rewrite run_ret.
      split; [lia|]. split; [exact Ho|]. split; [exact Hf|].
      split; [apply within_refl|]. auto.
Qed.

(** One pass in any world. *)
Lemma pass_general cs rv fd f size pn tp pat w path pos fl :
  open_files w !! target fd f = Some (mk_ofd path pos) ->
  fs w !! path = Some fl ->
  let w' := run (overwrite_pass_simd cs rv fd f size pn tp pat) w in
  let w0 := run (if to_char cs pat =? char_R then regenerate_random rv else mret tt) w in
  exists pos' fl',
    0 <= pos' <= u64 size /\
    open_files w' !! target fd f = Some (mk_ofd path pos') /\
    fs w' !! path = Some fl' /\
    within 0 (u64 size) fl fl' /\
    (forall p, p <> path -> fs w' !! p = fs w !! p) /\
    (forall h', h' <> target fd f -> open_files w' !! h' = open_files w !! h') /\
    buffers w' = buffers w0 /\
    rand_calls w' = rand_calls w0.
Proof.
  intros Ho Hf. cbv zeta.
  unfold overwrite_pass_simd. rewrite !run_bind.
  pose proof (u64_range size) as Hr.
  set (w1 := run (log _) w).
  assert (Ho1 : open_files w1 !! target fd f = Some (mk_ofd path pos)) by exact Ho.
  destruct (prologue_full fd f w1 path pos Ho1) as (Ho2 & Hf2 & Hb2 & Hp2 & Hr2).
  assert (Hoth2 : forall h', h' <> target fd f ->
            open_files (run (match f with
                             | Some h => seek_start h;; setvbuf h
                             | None => seek_start fd
                             end) w1) !! h' = open_files w !! h').
  { intros h' Hne.
    assert (Hseek : forall h, h' <> h ->
              open_files (run (seek_start h) w1) !! h' = open_files w !! h').
    { intros h Hh. unfold seek_start, modify, run, set_pos. simpl.
      destruct (open_files w !! h); simpl; [|reflexivity].
      apply lookup_insert_ne. congruence. }
    destruct f as [h|]; simpl in Hne; [rewrite run_bind|]; apply Hseek; exact Hne. }
  set (w2 := run (match f with Some h => _ | None => _ end) w1) in *.
  set (w3 := run (if _ =? _ then _ else _) w2).
  assert (H3 : open_files w3 = open_files w2 /\ fs w3 = fs w2 /\
               buffers w3 = buffers (run (if to_char cs pat =? char_R
                                          then regenerate_random rv else mret tt) w) /\
               rand_calls w3 = rand_calls (run (if to_char cs pat =? char_R
                                          then regenerate_random rv else mret tt) w)).
  { unfold w3. destruct (to_char cs pat =? char_R).
    - unfold regenerate_random, run. simpl. rewrite Hb2, Hr2. auto.
    - rewrite !run_ret. auto. }
  destruct H3 as (Ho3 & Hf3 & Hb3 & Hr3).
  destruct (write_loop_general (loop_bound (u64 size)) fd f
              (get_pattern_buffer (to_char cs pat)) (u64 size) 0 w3 path 0 fl)
    as (pos' & fl' & Hp' & Ho4 & Hf4 & Hw4 & Hfr4 & Hfo4 & Hb4 & Hr4);
    [lia|lia|lia| | |].
  { rewrite Ho3. exact Ho2. }
  { rewrite Hf3, Hf2. exact Hf. }
  set (w4 := run (write_loop _ _ _ _ _ _) w3) in *.
  assert (Hepi : forall w5, w5 = run (match f with
              | Some h => fflush h;; fsync h
              | None => mret tt
              end) w4 ->
      open_files w5 = open_files w4 /\ fs w5 = fs w4 /\ buffers w5 = buffers w4 /\
      rand_calls w5 = rand_calls w4).
  { intros w5 ->. destruct f; [rewrite run_bind|rewrite run_ret]; auto. }
  destruct (Hepi _ eq_refl) as (Ho5 & Hf5 & Hb5 & Hr5).
  change (open_files (run (log EvPassDone) ?x)) with (open_files x).
  change (rand_calls (run (log EvPassDone) ?x)) with (rand_calls x).
  change (buffers (run (log EvPassDone) ?x)) with (buffers x).
  change (fs (run (log EvPassDone) ?x)) with (fs x).
  rewrite Ho5, Hf5, Hb5, Hr5.
  exists pos', fl'.
  split; [lia|]. split; [exact Ho4|]. split; [exact Hf4|]. split; [exact Hw4|].
  split; [intros p Hne; rewrite Hfr4, Hf3, Hf2 by exact Hne; reflexivity|].
  split; [intros h' Hne; rewrite Hfo4, Ho3 by exact Hne; apply Hoth2; exact Hne|].
  split; congruence.
Qed.

(** X4. In every world, whatever the write calls transfer or fail to, a
    pass for [size] bytes changes no byte of its target at or beyond
    [size] (or below 0), leaves the offset at most at [size], does not
    grow the target beyond [size], and changes no other file. *)
Theorem pass_stays_below_size cs rv fd f size pn tp pat w path pos fl :
  0 <= size < 2 ^ 64 ->
  open_files w !! target fd f = Some (mk_ofd path pos) ->
  fs w !! path = Some fl ->
  let w' := run (overwrite_pass_simd cs rv fd f size pn tp pat) w in
  exists pos' fl',
    0 <= pos' <= size /\
    open_files w' !! target fd f = Some (mk_ofd path pos') /\
    fs w' !! path = Some fl' /\
    (forall o, size <= o \/ o < 0 -> f_bytes fl' o = f_bytes fl o) /\
    f_len fl <= f_len fl' <= Z.max (f_len fl) size /\
    (forall p, p <> path -> fs w' !! p = fs w !! p).
Proof.
  intros Hs Ho Hf. cbv zeta.
  destruct (pass_general cs rv fd f size pn tp pat w path pos fl Ho Hf)
    as (pos' & fl' & Hp & Ho' & Hf' & (Hb & Hl1 & Hl2 & _) & Hfr & _).
  rewrite (u64_small size Hs) in *.
  exists pos', fl'. repeat split; try assumption; try lia.
  intros o Hout. apply Hb. lia.
Qed.

(** The theorem at work: a pass of 6 bytes over the ten-byte sample
    file, its only write cut short after 4 bytes. *)
Lemma pass_stays_below_size_witness :
  exists pos' fl',
    0 <= pos' <= 6 /\
    open_files (run (overwrite_pass_simd true lcg 0 (Some 3) 6 1 1 0)
                  (file_opened [Some 4])) !! 3 = Some (mk_ofd "a.bin" pos') /\
    fs (run (overwrite_pass_simd true lcg 0 (Some 3) 6 1 1 0)
          (file_opened [Some 4])) !! "a.bin" = Some fl' /\
    (forall o, 6 <= o \/ o < 0 -> f_bytes fl' o = 65).
Proof.
  destruct (pass_stays_below_size true lcg 0 (Some 3) 6 1 1 0 (file_opened [Some 4])
              "a.bin" 0 ten_As ltac:(lia) eq_refl eq_refl)
    as (pos' & fl' & Hp & Ho & Hf & Hb & _).
  exists pos', fl'. repeat split; try assumption; try lia.
Defined.

(** ** The bytes a pass leaves *)

Lemma random_buffer_only_for_R c :
  get_pattern_buffer c = G_random -> c = char_R.
Proof.
  unfold get_pattern_buffer.
  destruct (c =? 0); [discriminate|].
  destruct (c =? 255); [discriminate|].
  destruct (c =? 170); [discriminate|].
  destruct (c =? 85); [discriminate|].
  destruct (Z.eqb_spec c char_R); [auto|discriminate].
Qed.

Lemma fixed_buffer_when_not_R c :
  c <> char_R -> get_pattern_buffer c <> G_random.
Proof. intros Hc E. apply Hc, random_buffer_only_for_R, E. Qed.

(** A pass in a world without write faults and with the pool filled:
    what it leaves in the target, and that the next pass finds the same
    conditions. *)
Lemma pass_fill cs rv fd f size pn tp pat w path pos fl :
  0 <= size < 2 ^ 64 ->
  open_files w !! target fd f = Some (mk_ofd path pos) ->
  fs w !! path = Some fl ->
  io_plan w = [] ->
  pool_filled (buffers w) ->
  let w' := run (overwrite_pass_simd cs rv fd f size pn tp pat) w in
  open_files w' !! target fd f = Some (mk_ofd path size) /\
  io_plan w' = [] /\
  pool_filled (buffers w') /\
  rand_calls w' =
    rand_calls w + (if to_char cs pat =? char_R then BUFFER_SIZE else 0) /\
  exists fl',
    fs w' !! path = Some fl' /\
    within 0 size fl fl' /\
    forall o, 0 <= o < size -> f_bytes fl' o = pass_byte cs rv (rand_calls w) pat o.
Proof.
  intros Hs Ho Hf Hp (Hz & Hff & Haa & H55 & (rb & Hrb)). cbv zeta.
  destruct (pass_general cs rv fd f size pn tp pat w path pos fl Ho Hf)
    as (pos' & fl1 & _ & _ & Hf1 & Hw1 & _ & _ & Hbuf & Hrand).
  rewrite (u64_small size Hs) in Hw1.
  assert (Hready : exists buf0,
            deref (buffers w) (get_pattern_buffer (to_char cs pat)) = Some buf0).
  { destruct (get_pattern_buffer (to_char cs pat)); simpl; eauto. }
  destruct Hready as (buf0 & Hb0).
  destruct (pass_full cs rv fd f size pn tp pat w path pos fl buf0 Hs Ho Hf Hb0 Hp)
    as (_ & Ho' & Hp' & buf & fl' & Hb' & Hsame & Hf' & Hbytes).
  rewrite Hf' in Hf1. injection Hf1 as <-.
  split; [exact Ho'|]. split; [exact Hp'|].
  destruct (Z.eqb_spec (to_char cs pat) char_R) as [ER|ER].
  - (* the random pass *)
    assert (Hpool : buffers (run (overwrite_pass_simd cs rv fd f size pn tp pat) w)
                    = mk_pool (Some (fill 0)) (Some (fill 255)) (Some (fill 170))
                        (Some (fill 85))
                        (Some (fun i => Z.land (rv (rand_calls w + i)) 255))
                        (g_random_pool (buffers w)) (g_random_pool_size (buffers w))).
    { rewrite Hbuf. unfold regenerate_random, run. simpl.
      rewrite Hz, Hff, Haa, H55, Hrb. reflexivity. }
    split; [rewrite Hpool; unfold pool_filled; simpl; eauto 10|].
    split; [rewrite Hrand; reflexivity|].
    exists fl'. split; [exact Hf'|]. split; [exact Hw1|].
    intros o Hrange. rewrite Hbytes.
    destruct (Z.leb_spec 0 o), (Z.ltb_spec o size); simpl; try lia.
    unfold pass_byte. rewrite ER in *. simpl in Hb'. rewrite Hpool in Hb'. simpl in Hb'.
    injection Hb' as <-. reflexivity.
  - (* a fixed pattern *)
    rewrite run_ret in Hbuf, Hrand.
    split; [rewrite Hbuf; unfold pool_filled; eauto 10|].
    split; [rewrite Hrand; lia|].
    exists fl'. split; [exact Hf'|]. split; [exact Hw1|].
    intros o Hrange. rewrite Hbytes, (Hsame ER).
    destruct (Z.leb_spec 0 o), (Z.ltb_spec o size); simpl; try lia.
    unfold pass_byte.
    pose proof (fixed_buffer_when_not_R _ ER) as Hfix.
    destruct (get_pattern_buffer (to_char cs pat)); simpl in Hb0;
      try contradiction;
      [rewrite Hz in Hb0|rewrite Hff in Hb0|rewrite Haa in Hb0|rewrite H55 in Hb0];
      injection Hb0 as <-; reflexivity.
Qed.

Lemma sample_pool_filled plan : pool_filled (buffers (file_opened plan)).
Proof. unfold pool_filled. simpl. repeat split; try reflexivity. eexists; reflexivity. Qed.

(** X5. With the pool filled and no write fault, a pass called with one
    of the fixed patterns [0x00], [0x55], [0xAA], [0xFF] leaves that byte
    in every position below [size] where plain [char] is unsigned; where
    it is signed, the passes for [0xAA] and [0xFF] leave [0x00] instead. *)
Theorem fixed_pattern_pass_bytes cs rv fd f size pn tp pat w path pos fl :
  0 <= size < 2 ^ 64 ->
  open_files w !! target fd f = Some (mk_ofd path pos) ->
  fs w !! path = Some fl ->
  io_plan w = [] ->
  pool_filled (buffers w) ->
  pat = 0 \/ pat = 85 \/ pat = 170 \/ pat = 255 ->
  exists fl',
    fs (run (overwrite_pass_simd cs rv fd f size pn tp pat) w) !! path = Some fl' /\
    forall o, 0 <= o < size ->
      f_bytes fl' o = if cs && (128 <=? pat) then 0 else pat.
Proof.
  intros Hs Ho Hf Hp Hpool Hpat.
  destruct (pass_fill cs rv fd f size pn tp pat w path pos fl Hs Ho Hf Hp Hpool)
    as (_ & _ & _ & _ & fl' & Hf' & _ & Hbytes).
  exists fl'. split; [exact Hf'|].
  intros o Hrange. rewrite (Hbytes o Hrange).
  destruct Hpat as [ -> | [ -> | [ -> | -> ] ] ]; destruct cs; reflexivity.
Qed.

Lemma fixed_pattern_pass_bytes_witness :
  exists fl',
    fs (run (overwrite_pass_simd true lcg 0 (Some 3) 10 2 3 255) (file_opened []))
      !! "a.bin" = Some fl' /\
    forall o, 0 <= o < 10 -> f_bytes fl' o = 0.
Proof.
  apply (fixed_pattern_pass_bytes true lcg 0 (Some 3) 10 2 3 255 (file_opened [])
           "a.bin" 0 ten_As);
    [lia|reflexivity|reflexivity|reflexivity|apply sample_pool_filled|right; right; right; reflexivity].
Defined.

(** X6. With the pool filled and no write fault, a pass called with ['R']
    draws exactly [BUFFER_SIZE] values from [rand()] and leaves at offset
    [o] the low byte of the value drawn at rank [o mod BUFFER_SIZE]: the
    random data repeats from one chunk to the next. *)
Theorem random_pass_bytes cs rv fd f size pn tp w path pos fl :
  0 <= size < 2 ^ 64 ->
  open_files w !! target fd f = Some (mk_ofd path pos) ->
  fs w !! path = Some fl ->
  io_plan w = [] ->
  pool_filled (buffers w) ->
  let w' := run (overwrite_pass_simd cs rv fd f size pn tp char_R) w in
  rand_calls w' = rand_calls w + BUFFER_SIZE /\
  exists fl',
    fs w' !! path = Some fl' /\
    (forall o, 0 <= o < size ->
       f_bytes fl' o = Z.land (rv (rand_calls w + o mod BUFFER_SIZE)) 255 /\
       0 <= f_bytes fl' o < 256) /\
    (forall o, 0 <= o -> o + BUFFER_SIZE < size ->
       f_bytes fl' (o + BUFFER_SIZE) = f_bytes fl' o).
Proof.
  intros Hs Ho Hf Hp Hpool. cbv zeta.
  assert (HB : 0 < BUFFER_SIZE) by reflexivity.
  destruct (pass_fill cs rv fd f size pn tp char_R w path pos fl Hs Ho Hf Hp Hpool)
    as (_ & _ & _ & Hrand & fl' & Hf' & _ & Hbytes).
  assert (HR : to_char cs char_R = char_R) by (destruct cs; reflexivity).
  rewrite HR in Hrand. split; [exact Hrand|].
  assert (Hbyte : forall o, 0 <= o < size ->
            f_bytes fl' o = Z.land (rv (rand_calls w + o mod BUFFER_SIZE)) 255).
  { intros o Hrange. rewrite (Hbytes o Hrange). unfold pass_byte. rewrite HR. reflexivity. }
  exists fl'. split; [exact Hf'|]. split.
  - intros o Hrange. rewrite (Hbyte o Hrange). split; [reflexivity|].
    change 255 with (Z.ones 8). rewrite Z.land_ones by lia.
    apply Z.mod_pos_bound. reflexivity.
  - intros o Ho1 Ho2. rewrite !Hbyte by lia.
    replace (o + BUFFER_SIZE) with (o + 1 * BUFFER_SIZE) by lia.
    rewrite Z.mod_add by lia. reflexivity.
Qed.

Lemma disk_pool_filled : pool_filled (buffers disk_opened).
Proof. unfold pool_filled. simpl. repeat split; try reflexivity. eexists; reflexivity. Qed.

Lemma random_pass_bytes_witness :
  exists fl',
    fs (run (overwrite_pass_simd true lcg 3 None 600000000 3 3 char_R) disk_opened)
      !! "/dev/sdz" = Some fl' /\
    f_bytes fl' (5 + BUFFER_SIZE) = f_bytes fl' 5.
Proof.
  destruct (random_pass_bytes true lcg 3 None 600000000 3 3 disk_opened
              "/dev/sdz" 0 small_disk ltac:(lia) eq_refl eq_refl eq_refl disk_pool_filled)
    as (_ & fl' & Hf & _ & Hperiod).
  exists fl'. split; [exact Hf|]. apply Hperiod; unfold BUFFER_SIZE; lia.
Defined.

(** ** [init_buffers] *)



(** ** A write cut short *)

Lemma sys_write_capped h g n w path pos fl c rest :
  open_files w !! h = Some (mk_ofd path pos) ->
  fs w !! path = Some fl ->
  io_plan w = Some c :: rest ->
  0 <= n ->
  exists k fl',
    0 <= k <= Z.min n (Z.max 0 c) /\
    open_files (run (sys_write h g n) w) !! h = Some (mk_ofd path (pos + k)) /\
    fs (run (sys_write h g n) w) !! path = Some fl' /\
    within pos (pos + k) fl fl'.
Proof.
  intros Ho Hf Hp Hn. unfold sys_write, run. rewrite Ho, Hp. simpl. rewrite Hf.
  destruct (deref (buffers w) g) as [buf|]; simpl.
  - exists (Z.min n (Z.max 0 c)), (store fl pos (Z.min n (Z.max 0 c)) buf).
    unfold set_pos. simpl. rewrite Ho. simpl.
    split; [lia|]. split; [apply lookup_insert_eq|]. split; [apply lookup_insert_eq|].
    apply store_within; lia.
  - exists 0, fl. rewrite Z.add_0_r.
    split; [lia|]. split; [exact Ho|]. split; [exact Hf|].
    apply within_refl.
Qed.

(** X8. When the single write of a pass of at most [BUFFER_SIZE] bytes is
    cut short after [c] bytes, the pass makes no second write: every byte
    of the target from offset [c] on is what it was before the pass, and
    the offset stays at or below [c]. *)
Theorem short_write_leaves_tail cs rv fd f size pn tp pat w path pos fl c rest :
  0 < size <= BUFFER_SIZE ->
  open_files w !! target fd f = Some (mk_ofd path pos) ->
  fs w !! path = Some fl ->
  io_plan w = Some c :: rest ->
  0 <= c < size ->
  let w' := run (overwrite_pass_simd cs rv fd f size pn tp pat) w in
  write_requests (events_since w w') = [size] /\
  exists pos' fl',
    0 <= pos' <= c /\
    open_files w' !! target fd f = Some (mk_ofd path pos') /\
    fs w' !! path = Some fl' /\
    forall o, c <= o -> f_bytes fl' o = f_bytes fl o.
Proof.
  intros Hs Ho Hf Hp Hc. cbv zeta.
  assert (HB : BUFFER_SIZE < 2 ^ 64) by reflexivity.
  split.
  { rewrite pass_requests, u64_small by lia.
    destruct (Z.eq_dec size BUFFER_SIZE) as [->|Hne]; [reflexivity|].
    apply chunk_list_small. lia. }
  unfold overwrite_pass_simd. rewrite (u64_small size) by lia. rewrite !run_bind.
  set (w1 := run (log _) w).
  assert (Ho1 : open_files w1 !! target fd f = Some (mk_ofd path pos)) by exact Ho.
  destruct (prologue_full fd f w1 path pos Ho1) as (Ho2 & Hf2 & Hb2 & Hp2 & Hr2).
  set (w2 := run (match f with Some h => _ | None => _ end) w1) in *.
  set (w3 := run (if _ =? _ then _ else _) w2).
  assert (H3 : open_files w3 = open_files w2 /\ fs w3 = fs w2 /\ io_plan w3 = io_plan w2).
  { unfold w3. destruct (to_char cs pat =? char_R); [|rewrite !run_ret]; auto. }
  destruct H3 as (Ho3 & Hf3 & Hp3).
  unfold loop_bound. rewrite write_loop_unfold.
  destruct (Z.ltb_spec 0 size) as [_|]; [|lia].
  rewrite to_write_le by lia. rewrite Z.sub_0_r, Z.add_0_l.
  replace (Z.min BUFFER_SIZE size) with size by lia.
  rewrite (u64_small size) by lia. rewrite run_bind, write_loop_done, run_ret.
  destruct (sys_write_capped (target fd f) (get_pattern_buffer (to_char cs pat)) size
              w3 path 0 fl c rest) as (k & fl' & Hk & Ho4 & Hf4 & (Hbytes & _)).
  { rewrite Ho3. exact Ho2. }
  { rewrite Hf3, Hf2. exact Hf. }
  { rewrite Hp3, Hp2. exact Hp. }
  { lia. }
  set (w4 := run (sys_write _ _ _) w3) in *.
  assert (Hepi : forall w5, w5 = run (match f with
              | Some h => fflush h;; fsync h
              | None => mret tt
              end) w4 ->
      open_files w5 = open_files w4 /\ fs w5 = fs w4).
  { intros w5 ->. destruct f; [rewrite run_bind|rewrite run_ret]; auto. }
  destruct (Hepi _ eq_refl) as (Ho5 & Hf5).
  change (open_files (run (log EvPassDone) ?x)) with (open_files x).
  change (fs (run (log EvPassDone) ?x)) with (fs x).
  rewrite Ho5, Hf5.
  exists (0 + k), fl'. split; [lia|]. split; [exact Ho4|]. split; [exact Hf4|].
  intros o Hout. apply Hbytes. lia.
Qed.

(** The theorem at work: ten bytes asked, four transferred. *)
Lemma short_write_leaves_tail_witness :
  exists pos' fl',
    0 <= pos' <= 4 /\
    fs (run (overwrite_pass_simd true lcg 0 (Some 3) 10 1 1 0) (file_opened [Some 4]))
      !! "a.bin" = Some fl' /\
    forall o, 4 <= o -> f_bytes fl' o = 65.
Proof.
  destruct (short_write_leaves_tail true lcg 0 (Some 3) 10 1 1 0 (file_opened [Some 4])
              "a.bin" 0 ten_As 4 [] ltac:(unfold BUFFER_SIZE; lia) eq_refl eq_refl
              eq_refl ltac:(lia))
    as (_ & pos' & fl' & Hp & _ & Hf & Hb).
  exists pos', fl'. split; [exact Hp|]. split; [exact Hf|exact Hb].
Defined.

(** ** [wipe_file] in three parts *)

Lemma lowest_free_fd_fresh (tab : gmap Z ofd) : tab !! lowest_free_fd tab = None.
Proof.
  unfold lowest_free_fd.
  set (cands := map (fun i => 3 + Z.of_nat i) (seq 0 (S (size tab)))).
  destruct (find _ cands) as [d|] eqn:E.
  - apply find_some in E. destruct E as [_ E]. simpl.
    apply negb_true_iff, bool_decide_eq_false in E.
    destruct (tab !! d) eqn:Hd; [exfalso; apply E; eauto|reflexivity].
  - exfalso.
    assert (Hall : forall d, In d cands -> is_Some (tab !! d)).
    { intros d Hd. pose proof (find_none _ _ E d Hd) as H. simpl in H.
      apply negb_false_iff, bool_decide_eq_true in H. exact H. }
    assert (Hnd : NoDup cands).
    { unfold cands. apply NoDup_fmap_2; [|apply NoDup_seq].
      intros a b Hab. lia. }
    assert (Hsub : (list_to_set cands : gset Z) ⊆ dom tab).
    { intros d Hd. apply elem_of_list_to_set in Hd. apply elem_of_dom.
      apply Hall. apply list_elem_of_In. exact Hd. }
    apply subseteq_size in Hsub.
    rewrite size_list_to_set, size_dom in Hsub by exact Hnd.
    unfold cands in Hsub. rewrite length_map, length_seq in Hsub. lia.
Qed.

(** [wipe_file] on a file that opens: the dispatch and the closing steps
    run in a world that differs from the first one by the new stream, at
    offset 0, and by the two events of opening. *)
Lemma wipe_file_parts cs rv path meth ipf w fl :
  fs w !! path = Some fl ->
  f_openable fl = true ->
  let h := lowest_free_fd (open_files w) in
  let size := if f_seekable fl then f_len fl else -1 in
  exists w3,
    wipe_file cs rv path meth ipf w
      = (file_passes cs rv meth h size;; close_and_remove path h) w3 /\
    open_files w3 = <[h := mk_ofd path 0]> (open_files w) /\
    fs w3 = fs w /\ buffers w3 = buffers w /\ rand_calls w3 = rand_calls w /\
    io_plan w3 = io_plan w.
Proof.
  intros Hf Hopen. cbv zeta.
  set (h := lowest_free_fd (open_files w)).
  set (w1 := emit (EvOpen path h)
               (set_open_files (<[h := mk_ofd path 0]> (open_files w)) w)).
  assert (Ho1 : open_files w1 !! h = Some (mk_ofd path 0)) by apply lookup_insert_eq.
  assert (Hfile1 : file_of h w1 = Some fl).
  { unfold file_of. rewrite Ho1. exact Hf. }
  set (w2 := if f_seekable fl then set_pos h (f_len fl) w1 else w1).
  set (w3 := emit (EvSeekStart h) (set_pos h 0 w2)).
  assert (Hw2 : open_files w2 !! h
                = Some (mk_ofd path (if f_seekable fl then f_len fl else 0))
                /\ fs w2 = fs w).
  { unfold w2. destruct (f_seekable fl); [|auto].
    unfold set_pos. rewrite Ho1. simpl. rewrite lookup_insert_eq. auto. }
  destruct Hw2 as (Ho2 & Hf2).
  exists w3. split.
  - unfold wipe_file, mbind, M_bind at 1.
    unfold sys_open at 1. rewrite Hf, Hopen. fold h. fold w1.
    unfold M_bind at 1. unfold fseek_end at 1. rewrite Hfile1. fold w2.
    unfold M_bind at 1. unfold ftello at 1. unfold file_of. rewrite Ho2. simpl.
    rewrite Hf2, Hf.
    unfold M_bind at 1. unfold seek_start at 1, modify. fold w3.
    unfold file_passes, close_and_remove, mbind.
    destruct (f_seekable fl); reflexivity.
  - unfold w3, w2. simpl.
    destruct (f_seekable fl); unfold set_pos; rewrite ?Ho1; simpl;
      rewrite ?lookup_insert_eq; simpl; rewrite ?Ho1; simpl;
      rewrite ?insert_insert_eq; auto.
Qed.

Lemma confined_pass cs rv h path size pn tp pat :
  confined h path (u64 size) (overwrite_pass_simd cs rv 0 (Some h) size pn tp pat).
Proof.
  intros w pos fl Ho Hf.
  destruct (pass_general cs rv 0 (Some h) size pn tp pat w path pos fl Ho Hf)
    as (pos' & fl' & _ & Ho' & Hf' & Hw & Hfr & Hfo & Hb & _).
  exists pos', fl'. repeat split; try assumption; try apply Hw.
  all: rewrite Hb; destruct (to_char cs pat =? char_R); reflexivity.
Qed.

Lemma confined_skip h path size : confined h path size (mret tt).
Proof.
  intros w pos fl Ho Hf. exists pos, fl. rewrite run_ret.
  split; [exact Ho|]. split; [exact Hf|]. split; [apply within_refl|]. auto.
Qed.

Lemma confined_seq h path size m1 m2 :
  confined h path size m1 -> confined h path size m2 ->
  confined h path size (m1;; m2).
Proof.
  intros H1 H2 w pos fl Ho Hf. rewrite run_bind.
  destruct (H1 w pos fl Ho Hf) as (pos1 & fl1 & Ho1 & Hf1 & Hw1 & Hfr1 & Hfo1 & Hb1).
  destruct (H2 (run m1 w) pos1 fl1 Ho1 Hf1)
    as (pos2 & fl2 & Ho2 & Hf2 & Hw2 & Hfr2 & Hfo2 & Hb2).
  exists pos2, fl2. split; [exact Ho2|]. split; [exact Hf2|].
  split; [apply (within_trans 0 size _ _ _ _ _ _ _ Hw1 Hw2); lia|].
  split; [intros p Hp; rewrite Hfr2, Hfr1 by exact Hp; reflexivity|].
  split; [intros h' Hh'; rewrite Hfo2, Hfo1 by exact Hh'; reflexivity|].
  congruence.
Qed.

Lemma confined_file_passes cs rv meth h path size :
  confined h path (u64 size) (file_passes cs rv meth h size).
Proof.
  unfold file_passes.
  destruct (0 <? size); [|apply confined_skip].
  destruct (strcmp_is_0 meth "--clear"); [apply confined_pass|].
  destruct (strcmp_is_0 meth "--purge").
  { repeat (apply confined_seq; [apply confined_pass|]). apply confined_pass. }
  destruct (strcmp_is_0 meth "--destroy-sw"); [|apply confined_skip].
  repeat (apply confined_seq; [apply confined_pass|]). apply confined_pass.
Qed.

Lemma close_and_remove_effect path h w :
  let w' := run (close_and_remove path h) w in
  open_files w' = delete h (open_files w) /\
  buffers w' = buffers w /\
  (forall p, p <> path -> fs w' !! p = fs w !! p) /\
  match fs w !! path with
  | Some fl =>
      if f_removable fl
      then result (close_and_remove path h) w = 0 /\ fs w' !! path = None
      else result (close_and_remove path h) w = 1 /\ fs w' !! path = Some fl
  | None => result (close_and_remove path h) w = 1 /\ fs w' !! path = None
  end.
Proof.
  cbv zeta. unfold close_and_remove, run, result, mbind, M_bind, sys_close, modify, remove.
  simpl. destruct (fs w !! path) as [fl|] eqn:Hf.
  - destruct (f_removable fl); simpl.
    + repeat split; try reflexivity.
      * intros p Hp. apply lookup_delete_ne. congruence.
      * apply lookup_delete_eq.
    + repeat split; try reflexivity. exact Hf.
  - simpl. repeat split; try reflexivity. exact Hf.
Qed.

(** X9. In every world and whatever the write calls do, [wipe_file]
    changes no file other than the one it is given, leaves the table of
    open descriptors as it found it (the stream it opens is closed again),
    and does not alter the four fixed pattern buffers. *)
Theorem wipe_file_touches_nothing_else cs rv path meth ipf w :
  let w' := run (wipe_file cs rv path meth ipf) w in
  (forall p, p <> path -> fs w' !! p = fs w !! p) /\
  open_files w' = open_files w /\
  fixed_buffers (buffers w') = fixed_buffers (buffers w).
Proof.
  cbv zeta.
  destruct (fs w !! path) as [fl|] eqn:Hf.
  2:{ unfold wipe_file, run, mbind, M_bind, sys_open. rewrite Hf. simpl. auto. }
  destruct (f_openable fl) eqn:Hopen.
  2:{ unfold wipe_file, run, mbind, M_bind, sys_open. rewrite Hf, Hopen. simpl. auto. }
  destruct (wipe_file_parts cs rv path meth ipf w fl Hf Hopen)
    as (w3 & E & Ho3 & Hf3 & Hb3 & _).
  set (h := lowest_free_fd (open_files w)) in *.
  set (size := if f_seekable fl then f_len fl else -1) in *.
  assert (Hrun : run (wipe_file cs rv path meth ipf) w
                 = run (file_passes cs rv meth h size;; close_and_remove path h) w3).
  { unfold run. rewrite E. reflexivity. }
  rewrite Hrun, run_bind.
  destruct (confined_file_passes cs rv meth h path size w3 0 fl)
    as (pos' & fl' & Ho4 & Hf4 & _ & Hfr4 & Hfo4 & Hb4).
  { rewrite Ho3. apply lookup_insert_eq. }
  { rewrite Hf3. exact Hf. }
  set (w4 := run (file_passes cs rv meth h size) w3) in *.
  destruct (close_and_remove_effect path h w4) as (Ho5 & Hb5 & Hfr5 & _).
  split; [|split].
  - intros p Hp. rewrite Hfr5, Hfr4, Hf3 by exact Hp. reflexivity.
  - rewrite Ho5. apply map_eq. intros h'.
    destruct (decide (h' = h)) as [->|Hne].
    + rewrite lookup_delete_eq. symmetry. apply lowest_free_fd_fresh.
    + rewrite lookup_delete_ne, Hfo4, Ho3, lookup_insert_ne by congruence.
      reflexivity.
  - rewrite Hb5, Hb4, Hb3. reflexivity.
Qed.

(** X10. A path that is missing or cannot be opened: [wipe_file] reports
    it and returns 1 without touching anything; in particular it does not
    try to remove the entry. *)
Theorem wipe_file_cannot_open cs rv path meth ipf w :
  (forall fl, fs w !! path = Some fl -> f_openable fl = false) ->
  wipe_file cs rv path meth ipf w = (1, emit (EvReport Cannot_open) w).
Proof.
  intros H. unfold wipe_file, mbind, M_bind, sys_open.
  destruct (fs w !! path) as [fl|]; [rewrite (H fl eq_refl)|]; reflexivity.
Qed.

Lemma wipe_file_cannot_open_witness :
  wipe_file true lcg "no-such-file" "--clear" 0 (sample_world [])
  = (1, emit (EvReport Cannot_open) (sample_world [])).
Proof.
  apply wipe_file_cannot_open. intros fl H. vm_compute in H. discriminate H.
Defined.

(** ** The bytes [wipe_file] leaves behind *)

Lemma ready_pass cs rv fd f path size pn tp pat w :
  0 <= size < 2 ^ 64 ->
  ready (target fd f) path w ->
  let w' := run (overwrite_pass_simd cs rv fd f size pn tp pat) w in
  ready (target fd f) path w' /\
  rand_calls w' = rand_calls w + (if to_char cs pat =? char_R then BUFFER_SIZE else 0) /\
  exists fl',
    fs w' !! path = Some fl' /\
    forall o, 0 <= o < size -> f_bytes fl' o = pass_byte cs rv (rand_calls w) pat o.
Proof.
  intros Hs ((pos & Ho) & (fl & Hf) & Hp & Hpool). cbv zeta.
  destruct (pass_fill cs rv fd f size pn tp pat w path pos fl Hs Ho Hf Hp Hpool)
    as (Ho' & Hp' & Hpool' & Hrand & fl' & Hf' & _ & Hbytes).
  split; [|split; [exact Hrand|eauto]].
  unfold ready. split; [eexists; exact Ho'|]. split; [eauto|]. auto.
Qed.

Lemma neutral_pass cs rv fd f path size pn tp pat :
  0 <= size < 2 ^ 64 ->
  pat = 0 \/ pat = 85 \/ pat = 170 \/ pat = 255 ->
  neutral (target fd f) path (overwrite_pass_simd cs rv fd f size pn tp pat).
Proof.
  intros Hs Hpat w Hw.
  destruct (ready_pass cs rv fd f path size pn tp pat w Hs Hw) as (Hr & Hrand & _).
  split; [exact Hr|]. rewrite Hrand.
  destruct Hpat as [ -> | [ -> | [ -> | -> ] ] ]; destruct cs; apply Z.add_0_r.
Qed.

Lemma ends_with_pass cs rv fd f path size pn tp pat :
  0 <= size < 2 ^ 64 ->
  ends_with (target fd f) path size (fun calls => pass_byte cs rv calls pat)
    (overwrite_pass_simd cs rv fd f size pn tp pat).
Proof.
  intros Hs w Hw.
  destruct (ready_pass cs rv fd f path size pn tp pat w Hs Hw) as (_ & _ & H). exact H.
Qed.

Lemma ends_with_seq h path size byte m1 m2 :
  neutral h path m1 -> ends_with h path size byte m2 ->
  ends_with h path size byte (m1;; m2).
Proof.
  intros H1 H2 w Hw. rewrite run_bind.
  destruct (H1 w Hw) as (Hr & Hrand).
  destruct (H2 (run m1 w) Hr) as (fl' & Hf & Hb).
  exists fl'. split; [exact Hf|]. intros o Ho. rewrite Hb, Hrand by exact Ho. reflexivity.
Qed.

Lemma file_passes_last cs rv meth h path size :
  0 < size < 2 ^ 64 ->
  meth = "--clear" \/ meth = "--purge" \/ meth = "--destroy-sw" ->
  ends_with h path size (last_pass_byte rv meth) (file_passes cs rv meth h size).
Proof.
  intros Hs Hmeth.
  assert (Hs' : 0 <= size < 2 ^ 64) by lia.
  assert (Hpos : (0 <? size) = true) by (apply Z.ltb_lt; lia).
  assert (HR : forall calls o, pass_byte cs rv calls char_R o
                               = Z.land (rv (calls + o mod BUFFER_SIZE)) 255).
  { intros. unfold pass_byte. destruct cs; reflexivity. }
  assert (H0 : forall calls o, pass_byte cs rv calls 0 o = 0).
  { intros. unfold pass_byte. destruct cs; reflexivity. }
  unfold file_passes. rewrite Hpos.
  destruct Hmeth as [ -> | [ -> | -> ] ]; simpl.
  - intros w Hw. destruct (ends_with_pass cs rv 0 (Some h) path size 1 1 0 Hs' w Hw) as (fl' & Hf & Hb).
    exists fl'. split; [exact Hf|]. intros o Ho. rewrite (Hb o Ho). apply H0.
  - intros w Hw.
    assert (E : ends_with h path size (fun calls => pass_byte cs rv calls char_R)
                  (overwrite_pass_simd cs rv 0 (Some h) size 1 3 0;;
                   overwrite_pass_simd cs rv 0 (Some h) size 2 3 255;;
                   overwrite_pass_simd cs rv 0 (Some h) size 3 3 char_R)).
    { repeat (apply ends_with_seq;
                [apply (neutral_pass cs rv 0 (Some h)); [exact Hs'|tauto]|]).
      apply (ends_with_pass cs rv 0 (Some h)). exact Hs'. }
    destruct (E w Hw) as (fl' & Hf & Hb).
    exists fl'. split; [exact Hf|]. intros o Ho. rewrite (Hb o Ho). apply HR.
  - intros w Hw.
    assert (E : ends_with h path size (fun calls => pass_byte cs rv calls char_R)
                  (overwrite_pass_simd cs rv 0 (Some h) size 1 7 0;;
                   overwrite_pass_simd cs rv 0 (Some h) size 2 7 255;;
                   overwrite_pass_simd cs rv 0 (Some h) size 3 7 0;;
                   overwrite_pass_simd cs rv 0 (Some h) size 4 7 170;;
                   overwrite_pass_simd cs rv 0 (Some h) size 5 7 85;;
                   overwrite_pass_simd cs rv 0 (Some h) size 6 7 170;;
                   overwrite_pass_simd cs rv 0 (Some h) size 7 7 char_R)).
    { repeat (apply ends_with_seq;
                [apply (neutral_pass cs rv 0 (Some h)); [exact Hs'|tauto]|]).
      apply (ends_with_pass cs rv 0 (Some h)). exact Hs'. }
    destruct (E w Hw) as (fl' & Hf & Hb).
    exists fl'. split; [exact Hf|]. intros o Ho. rewrite (Hb o Ho). apply HR.
Qed.

(** X11. A file of positive size that [wipe_file] cannot remove, with the
    pool filled, no write fault and one of the three methods: 1 is
    returned and the file stays, with its length unchanged and every one
    of its bytes overwritten by the last pass of the method: 0x00 for
    [--clear], the low bytes of the first [BUFFER_SIZE] values drawn from
    [rand()], repeated, for [--purge] and [--destroy-sw]. *)
Theorem wipe_file_overwrites_every_byte cs rv path meth ipf w fl :
  fs w !! path = Some fl ->
  f_openable fl = true ->
  f_seekable fl = true ->
  f_removable fl = false ->
  0 < f_len fl < 2 ^ 63 ->
  io_plan w = [] ->
  pool_filled (buffers w) ->
  meth = "--clear" \/ meth = "--purge" \/ meth = "--destroy-sw" ->
  result (wipe_file cs rv path meth ipf) w = 1 /\
  exists fl',
    fs (run (wipe_file cs rv path meth ipf) w) !! path = Some fl' /\
    f_len fl' = f_len fl /\
    forall o, 0 <= o < f_len fl ->
      f_bytes fl' o = last_pass_byte rv meth (rand_calls w) o.
Proof.
  intros Hf Hopen Hseek Hrm Hlen Hp Hpool Hmeth.
  destruct (wipe_file_parts cs rv path meth ipf w fl Hf Hopen)
    as (w3 & E & Ho3 & Hf3 & Hb3 & Hr3 & Hp3).
  rewrite Hseek in E.
  set (h := lowest_free_fd (open_files w)) in *.
  assert (Hs : 0 < f_len fl < 2 ^ 64) by lia.
  assert (Hrun : run (wipe_file cs rv path meth ipf) w
                 = run (file_passes cs rv meth h (f_len fl);; close_and_remove path h) w3).
  { unfold run. rewrite E. reflexivity. }
  assert (Hres : result (wipe_file cs rv path meth ipf) w
                 = result (file_passes cs rv meth h (f_len fl);; close_and_remove path h) w3).
  { unfold result. rewrite E. reflexivity. }
  rewrite Hrun, Hres, run_bind, result_bind.
  assert (Hready : ready h path w3).
  { unfold ready. rewrite Ho3, Hf3, Hb3, Hp3, Hf, lookup_insert_eq. eauto 10. }
  destruct (file_passes_last cs rv meth h path (f_len fl) Hs Hmeth w3 Hready)
    as (fl' & Hf4 & Hbytes).
  destruct (confined_file_passes cs rv meth h path (f_len fl) w3 0 fl)
    as (pos' & fl'' & _ & Hf4' & (_ & Hl1 & Hl2 & Hflags) & _).
  { rewrite Ho3. apply lookup_insert_eq. }
  { rewrite Hf3. exact Hf. }
  rewrite Hf4 in Hf4'. injection Hf4' as <-.
  rewrite u64_small in Hl2 by lia.
  set (w4 := run (file_passes cs rv meth h (f_len fl)) w3) in *.
  pose proof (close_and_remove_effect path h w4) as (_ & _ & _ & Hend).
  rewrite Hf4 in Hend.
  assert (Hrm' : f_removable fl' = false).
  { unfold file_flags in Hflags. congruence. }
  rewrite Hrm' in Hend. destruct Hend as (Hr1 & Hkeep).
  split; [exact Hr1|].
  exists fl'. split; [exact Hkeep|]. split; [lia|].
  intros o Ho. rewrite (Hbytes o Ho), Hr3. reflexivity.
Qed.

(** A ten-byte file that cannot be removed, in a world with the pool
    filled. *)
Lemma wipe_file_overwrites_every_byte_witness :
  let stuck := mk_file (fun _ => 65) 10 true true false None in
  let w := set_fs (<["stuck.bin" := stuck]> (fs (sample_world []))) (sample_world []) in
  exists fl',
    fs (run (wipe_file true lcg "stuck.bin" "--clear" 0) w) !! "stuck.bin" = Some fl' /\
    f_len fl' = 10 /\
    forall o, 0 <= o < 10 -> f_bytes fl' o = 0.
Proof.
  cbv zeta.
  destruct (wipe_file_overwrites_every_byte true lcg "stuck.bin" "--clear" 0
              (set_fs (<["stuck.bin" := mk_file (fun _ => 65) 10 true true false None]>
                         (fs (sample_world []))) (sample_world []))
              (mk_file (fun _ => 65) 10 true true false None))
    as (_ & fl' & Hf & Hl & Hb);
    [reflexivity|reflexivity|reflexivity|reflexivity|simpl; lia|reflexivity| |left; reflexivity|].
  - unfold pool_filled. simpl. repeat split; try reflexivity. eexists; reflexivity.
  - exists fl'. split; [exact Hf|]. split; [exact Hl|exact Hb].
Defined.

(** ** [wipe_disk_raw] *)

(** X12. On a path that is missing, cannot be opened or has no block
    device size, [wipe_disk_raw] returns 1 and leaves the file system and
    the descriptor table as they were, for every method and whatever the
    pass routine is: the routine is not called. *)
Theorem wipe_disk_raw_refuses op path meth w :
  match fs w !! path with
  | Some fl => f_openable fl = false \/ f_dev_size fl = None
  | None => True
  end ->
  let w' := run (wipe_disk_raw op path meth) w in
  result (wipe_disk_raw op path meth) w = 1 /\
  fs w' = fs w /\ open_files w' = open_files w /\ buffers w' = buffers w /\
  write_requests (events_since w w') = [] /\
  exists evs, trace w' = (trace w ++ evs)%list /\
              (evs = [EvReport Cannot_open_disk] \/
               exists h, evs = [EvOpen path h; EvReport Cannot_size_disk; EvClose h]).
Proof.
  intros H. cbv zeta.
  unfold wipe_disk_raw, run, result, mbind, M_bind, sys_open.
  destruct (fs w !! path) as [fl|] eqn:Hf.
  2:{ simpl. repeat split; try reflexivity.
      - unfold events_since. simpl. rewrite drop_app_length. reflexivity.
      - eexists. split; [reflexivity|]. left. reflexivity. }
  destruct (f_openable fl) eqn:Hopen.
  2:{ simpl. repeat split; try reflexivity.
      - unfold events_since. simpl. rewrite drop_app_length. reflexivity.
      - eexists. split; [reflexivity|]. left. reflexivity. }
  destruct H as [H|H]; [discriminate|].
  set (h := lowest_free_fd (open_files w)).
  unfold ioctl_blkgetsize64, file_of. simpl. rewrite lookup_insert_eq. simpl.
  rewrite Hf. simpl. rewrite H. simpl.
  repeat split; try reflexivity.
  - rewrite delete_insert_id by apply lowest_free_fd_fresh. reflexivity.
  - unfold events_since. simpl. rewrite <- !app_assoc, drop_app_length. reflexivity.
  - eexists. split; [rewrite <- !app_assoc; reflexivity|]. right. eexists. reflexivity.
Qed.

Lemma wipe_disk_raw_refuses_witness :
  result (wipe_disk_raw (overwrite_pass_simd true lcg) "a.bin" "--clear") (sample_world [])
    = 1 /\
  fs (run (wipe_disk_raw (overwrite_pass_simd true lcg) "a.bin" "--clear") (sample_world []))
    = fs (sample_world []).
Proof.
  destruct (wipe_disk_raw_refuses (overwrite_pass_simd true lcg) "a.bin" "--clear"
              (sample_world [])) as (Hr & Hf & _).
  - right. reflexivity.
  - split; [exact Hr|exact Hf].
Defined.

Lemma wipe_disk_parts op path meth w fl sz :
  fs w !! path = Some fl ->
  f_openable fl = true ->
  f_dev_size fl = Some sz ->
  let h := lowest_free_fd (open_files w) in
  wipe_disk_raw op path meth w
    = (disk_passes op meth h sz;; sys_close h;; log (EvReport Disk_wiped);; mret 0)
        (just_opened path h w).
Proof.
  intros Hf Hopen Hsz. cbv zeta.
  unfold wipe_disk_raw, mbind, M_bind at 1.
  unfold sys_open at 1. rewrite Hf, Hopen.
  fold (just_opened path (lowest_free_fd (open_files w)) w).
  unfold M_bind at 1. unfold ioctl_blkgetsize64 at 1, file_of.
  unfold just_opened at 1 2. simpl. rewrite lookup_insert_eq. simpl.
  rewrite Hf. simpl. rewrite Hsz. reflexivity.
Qed.

(** X13. On a device that opens and reports its size, [wipe_disk_raw]
    called with any method other than [--clear] and [--purge] (so with
    [--destroy-sw], and with any string nobody knows) calls no pass: the
    device is opened and closed, nothing is written, success is reported
    and 0 is returned. *)
Theorem wipe_disk_raw_other_methods op path meth w fl sz :
  fs w !! path = Some fl ->
  f_openable fl = true ->
  f_dev_size fl = Some sz ->
  meth <> "--clear" -> meth <> "--purge" ->
  let h := lowest_free_fd (open_files w) in
  let w' := run (wipe_disk_raw op path meth) w in
  result (wipe_disk_raw op path meth) w = 0 /\
  events_since w w' = [EvOpen path h; EvClose h; EvReport Disk_wiped] /\
  fs w' = fs w /\ open_files w' = open_files w /\ buffers w' = buffers w.
Proof.
  intros Hf Hopen Hsz N1 N2. cbv zeta.
  unfold run, result. rewrite (wipe_disk_parts op path meth w fl sz Hf Hopen Hsz).
  unfold disk_passes, strcmp_is_0.
  apply String.eqb_neq in N1, N2. rewrite N1, N2.
  assert (E : (if (meth =? "--destroy-sw")%string then mret tt else mret tt) = (mret tt : M unit))
    by (destruct (meth =? "--destroy-sw")%string; reflexivity).
  rewrite E. simpl.
  repeat split; try reflexivity.
  - unfold events_since. simpl. rewrite <- !app_assoc, drop_app_length. reflexivity.
  - apply delete_insert_id, lowest_free_fd_fresh.
Qed.

Lemma wipe_disk_raw_other_methods_witness :
  result (wipe_disk_raw (overwrite_pass_simd true lcg) "/dev/sdz" "--clera") (sample_world [])
    = 0 /\
  fs (run (wipe_disk_raw (overwrite_pass_simd true lcg) "/dev/sdz" "--clera")
        (sample_world [])) = fs (sample_world []).
Proof.
  destruct (wipe_disk_raw_other_methods (overwrite_pass_simd true lcg) "/dev/sdz" "--clera"
              (sample_world []) small_disk 600000000 eq_refl eq_refl eq_refl)
    as (Hr & _ & Hf & _); [discriminate|discriminate|].
  split; [exact Hr|exact Hf].
Defined.

Lemma confined_pass_on cs rv fd f path size pn tp pat :
  confined (target fd f) path (u64 size) (overwrite_pass_simd cs rv fd f size pn tp pat).
Proof.
  intros w pos fl Ho Hf.
  destruct (pass_general cs rv fd f size pn tp pat w path pos fl Ho Hf)
    as (pos' & fl' & _ & Ho' & Hf' & Hw & Hfr & Hfo & Hb & _).
  exists pos', fl'. repeat split; try assumption; try apply Hw.
  all: rewrite Hb; destruct (to_char cs pat =? char_R); reflexivity.
Qed.

Lemma confined_disk_passes cs rv meth h path size :
  confined h path (u64 size) (disk_passes (overwrite_pass_simd cs rv) meth h size).
Proof.
  unfold disk_passes.
  destruct (strcmp_is_0 meth "--clear"); [apply (confined_pass_on cs rv h None)|].
  destruct (strcmp_is_0 meth "--purge").
  { repeat (apply confined_seq; [apply (confined_pass_on cs rv h None)|]).
    apply (confined_pass_on cs rv h None). }
  destruct (strcmp_is_0 meth "--destroy-sw"); apply confined_skip.
Qed.

Lemma disk_passes_last cs rv meth h path size :
  0 <= size < 2 ^ 64 ->
  meth = "--clear" \/ meth = "--purge" ->
  ends_with h path size (last_pass_byte rv meth)
    (disk_passes (overwrite_pass_simd cs rv) meth h size).
Proof.
  intros Hs Hmeth.
  assert (HR : forall calls o, pass_byte cs rv calls char_R o
                               = Z.land (rv (calls + o mod BUFFER_SIZE)) 255).
  { intros. unfold pass_byte. destruct cs; reflexivity. }
  assert (H0 : forall calls o, pass_byte cs rv calls 0 o = 0).
  { intros. unfold pass_byte. destruct cs; reflexivity. }
  unfold disk_passes.
  destruct Hmeth as [ -> | -> ]; simpl.
  - intros w Hw.
    destruct (ends_with_pass cs rv h None path size 1 1 0 Hs w Hw) as (fl' & Hf & Hb).
    exists fl'. split; [exact Hf|]. intros o Ho. rewrite (Hb o Ho). apply H0.
  - intros w Hw.
    assert (E : ends_with h path size (fun calls => pass_byte cs rv calls char_R)
                  (overwrite_pass_simd cs rv h None size 1 3 0;;
                   overwrite_pass_simd cs rv h None size 2 3 255;;
                   overwrite_pass_simd cs rv h None size 3 3 char_R)).
    { repeat (apply ends_with_seq;
                [apply (neutral_pass cs rv h None); [exact Hs|tauto]|]).
      apply (ends_with_pass cs rv h None). exact Hs. }
    destruct (E w Hw) as (fl' & Hf & Hb).
    exists fl'. split; [exact Hf|]. intros o Ho. rewrite (Hb o Ho). apply HR.
Qed.

(** X14. [wipe_disk_raw] with [overwrite_pass_simd] as its pass routine,
    on a device that opens and reports [sz] bytes, with the pool filled,
    no write fault and the method [--clear] or [--purge]: 0 is returned,
    the device entry stays, every byte below [sz] is overwritten by the
    last pass (0x00 for [--clear], low bytes of [rand()] values for
    [--purge]), no byte at or beyond [sz] changes and no other file is
    touched. *)
Theorem wipe_disk_raw_overwrites_device cs rv path meth w fl sz :
  fs w !! path = Some fl ->
  f_openable fl = true ->
  f_dev_size fl = Some sz ->
  0 <= sz < 2 ^ 64 ->
  io_plan w = [] ->
  pool_filled (buffers w) ->
  meth = "--clear" \/ meth = "--purge" ->
  let disk := wipe_disk_raw (overwrite_pass_simd cs rv) path meth in
  result disk w = 0 /\
  (forall p, p <> path -> fs (run disk w) !! p = fs w !! p) /\
  exists fl',
    fs (run disk w) !! path = Some fl' /\
    (forall o, 0 <= o < sz -> f_bytes fl' o = last_pass_byte rv meth (rand_calls w) o) /\
    (forall o, sz <= o -> f_bytes fl' o = f_bytes fl o).
Proof.
  intros Hf Hopen Hsz Hs Hp Hpool Hmeth. cbv zeta.
  pose proof (wipe_disk_parts (overwrite_pass_simd cs rv) path meth w fl sz Hf Hopen Hsz) as E.
  cbv zeta in E.
  set (h := lowest_free_fd (open_files w)) in *.
  set (w1 := just_opened path h w) in *.
  assert (Ho1 : open_files w1 !! h = Some (mk_ofd path 0)) by apply lookup_insert_eq.
  assert (Hf1 : fs w1 !! path = Some fl) by exact Hf.
  assert (Hready : ready h path w1).
  { unfold ready. split; [eexists; exact Ho1|]. split; [eexists; exact Hf1|].
    split; [exact Hp|exact Hpool]. }
  destruct (disk_passes_last cs rv meth h path sz Hs Hmeth w1 Hready) as (fl' & Hf2 & Hbytes).
  destruct (confined_disk_passes cs rv meth h path sz w1 0 fl Ho1 Hf1)
    as (pos' & fl'' & _ & Hf2' & (Hout & _) & Hfr & _).
  rewrite Hf2 in Hf2'. injection Hf2' as <-.
  rewrite (u64_small sz Hs) in Hout.
  unfold run, result. rewrite E.
  set (w2 := run (disk_passes (overwrite_pass_simd cs rv) meth h sz) w1) in *.
  assert (Hfin : (disk_passes (overwrite_pass_simd cs rv) meth h sz;;
                  sys_close h;; log (EvReport Disk_wiped);; mret 0) w1
                 = (0, emit (EvReport Disk_wiped)
                         (emit (EvClose h) (set_open_files (delete h (open_files w2)) w2)))).
  { unfold mbind, M_bind at 1. unfold w2, run.
    destruct (disk_passes (overwrite_pass_simd cs rv) meth h sz w1) as [u w2']. reflexivity. }
  rewrite Hfin. simpl.
  split; [reflexivity|].
  split; [intros p Hne; rewrite (Hfr p Hne); reflexivity|].
  exists fl'. split; [exact Hf2|]. split; [exact Hbytes|].
  intros o Ho. apply Hout. lia.
Qed.

Lemma wipe_disk_raw_overwrites_device_witness :
  exists fl',
    fs (run (wipe_disk_raw (overwrite_pass_simd true lcg) "/dev/sdz" "--clear")
          (sample_world [])) !! "/dev/sdz" = Some fl' /\
    forall o, 0 <= o < 600000000 -> f_bytes fl' o = 0.
Proof.
  destruct (wipe_disk_raw_overwrites_device true lcg "/dev/sdz" "--clear"
              (sample_world []) small_disk 600000000 eq_refl eq_refl eq_refl
              ltac:(lia) eq_refl)
    as (_ & _ & fl' & Hf & Hb & _).
  - unfold pool_filled. simpl. repeat split; try reflexivity. eexists; reflexivity.
  - left. reflexivity.
  - exists fl'. split; [exact Hf|exact Hb].
Defined.

(** ** The folder scheduler on trees of any depth *)

Lemma node_nested_ind (P : node -> Prop) :
  (forall n, P (Unstatable n)) ->
  (forall n ok, P (Regular n ok)) ->
  (forall n ok sub, Forall P sub -> P (Directory n ok sub)) ->
  forall e, P e.
Proof.
  intros H1 H2 H3. fix IH 1. intros [n|n ok|n ok sub]; [apply H1|apply H2|].
  apply H3. induction sub as [|x xs IHxs]; constructor; [apply IH|exact IHxs].
Qed.

Lemma frame_ok_mono b top top' fr :
  (top <= top')%nat -> frame_ok b top fr -> frame_ok b top' fr.
Proof. intros Hle (H1 & H2 & H3 & H4). unfold frame_ok. repeat split; try assumption. lia. Qed.

Lemma visit_dot basePath meth e fr :
  strcmp_is_0 (d_name_of e) "." || strcmp_is_0 (d_name_of e) ".." = true ->
  visit basePath meth e fr = fr.
Proof. intros H. destruct e; simpl in *; rewrite H; reflexivity. Qed.

Lemma tally_app s l :
  fold_left peak_step (actions s ++ l) (0%nat, 0%nat) = fold_left peak_step l (tally s).
Proof. unfold tally. apply fold_left_app. Qed.

Lemma visit_ok_plain e : not_directory e -> visit_ok e.
Proof.
  intros He basePath meth fr b top (Hlen & Htc & Hcur & Hpk).
  destruct (strcmp_is_0 (d_name_of e) "." || strcmp_is_0 (d_name_of e) "..") eqn:Hdot.
  { rewrite (visit_dot _ _ _ _ Hdot). unfold frame_ok, MAX_THREADS. repeat split; try assumption. lia. }
  unfold MAX_THREADS in *.
  destruct e as [n|n ok|n ok sub]; [| |contradiction]; simpl in Hdot |- *; rewrite Hdot.
  { unfold frame_ok, MAX_THREADS. repeat split; try assumption. lia. }
  destruct ok; [|unfold frame_ok, MAX_THREADS; repeat split; try assumption; lia].
  unfold pthread_create.
  set (s1 := mk_sched _ _).
  assert (Hs1 : tally s1 = (S (b + thread_count fr),
                            Nat.max (snd (tally (sch fr))) (S (b + thread_count fr)))).
  { unfold tally at 1. unfold s1. cbn [actions]. rewrite tally_app. simpl.
    unfold peak_step. simpl. rewrite Hcur. reflexivity. }
  cbn [thread_count].
  destruct (Nat.eqb_spec (thread_count fr) 63) as [Efull|Enot].
  - unfold frame_ok, MAX_THREADS. cbn [hThreads thread_count sch].
    split; [rewrite length_insert; exact Hlen|].
    split; [lia|].
    unfold tally at 1 2, join_all. cbn [actions sch hThreads thread_count created].
    rewrite tally_app, Hs1, tally_joins.
    + rewrite length_take, length_insert, Hlen. cbn [fst snd].
      split; [lia|]. destruct (take _ _); lia.
    + rewrite length_take. lia.
  - unfold frame_ok, MAX_THREADS. cbn [hThreads thread_count sch].
    split; [rewrite length_insert; exact Hlen|].
    split; [lia|]. rewrite Hs1. cbn [fst snd]. split; lia.
Qed.

Lemma finish_tally basePath fr b top :
  frame_ok b top fr ->
  fst (tally (finish basePath fr)) = b /\ (snd (tally (finish basePath fr)) <= top)%nat.
Proof.
  intros (Hlen & Htc & Hcur & Hpk).
  assert (Hge : (fst (tally (sch fr)) <= snd (tally (sch fr)))%nat).
  { apply peak_ge_current. simpl. lia. }
  unfold finish, rmdir. unfold tally at 1 2. cbn [actions]. rewrite fold_left_app.
  destruct (Nat.ltb_spec 0 (thread_count fr)) as [Hpos|Hzero].
  - unfold join_all. cbn [actions]. rewrite tally_app.
    rewrite (surjective_pairing (tally (sch fr))), tally_joins
      by (rewrite length_take; lia).
    rewrite length_take, Hlen, Hcur. unfold MAX_THREADS in *.
    simpl. split; [lia|]. destruct (take _ _); lia.
  - fold (tally (sch fr)). rewrite (surjective_pairing (tally (sch fr))).
    simpl. rewrite Hcur. split; lia.
Qed.

Lemma readdir_loop_ok basePath meth entries : forall fr b top,
  Forall visit_ok entries ->
  frame_ok b top fr ->
  frame_ok b (Nat.max top (b + 64 + 63 * levels entries))
    (readdir_loop basePath meth entries fr).
Proof.
  unfold readdir_loop, levels.
  induction entries as [|e l IH]; intros fr b top Hall Hfr.
  - simpl. apply (frame_ok_mono b top); [lia|exact Hfr].
  - inversion Hall as [|? ? He Hl]; subst. simpl.
    apply (frame_ok_mono b
             (Nat.max (Nat.max top (b + 64 + 63 * depth e))
                      (b + 64 + 63 * list_max (map depth l)))); [lia|].
    apply IH; [exact Hl|]. apply He. exact Hfr.
Qed.

Lemma visit_ok_all : forall e, visit_ok e.
Proof.
  apply node_nested_ind.
  - intros n. apply visit_ok_plain. exact I.
  - intros n ok. apply visit_ok_plain. exact I.
  - intros n ok sub Hsub basePath meth fr b top Hfr.
    destruct (strcmp_is_0 n "." || strcmp_is_0 n "..") eqn:Hdot.
    { rewrite (visit_dot _ _ (Directory n ok sub) _ Hdot).
      apply (frame_ok_mono b top); [lia|exact Hfr]. }
    destruct (visit_directory basePath meth n ok sub fr Hdot) as (Es & Eh & Et).
    destruct Hfr as (Hlen & Htc & Hcur & Hpk).
    unfold frame_ok. rewrite Eh, Et, Es.
    split; [exact Hlen|]. split; [exact Htc|].
    destruct ok; [|simpl; split; [exact Hcur|lia]].
    unfold wipe_folder_recursive. cbn [snd].
    assert (Hnew : frame_ok (b + thread_count fr) top (new_frame (sch fr))).
    { unfold frame_ok, new_frame. cbn [hThreads thread_count sch].
      rewrite length_replicate. unfold MAX_THREADS. repeat split; lia. }
    pose proof (readdir_loop_ok (snprintf_path basePath n) meth sub _ _ _ Hsub Hnew) as Hin.
    destruct (finish_tally (snprintf_path basePath n) _ _ _ Hin) as (Hc & Hp).
    split; [exact Hc|].
    unfold MAX_THREADS in Htc. simpl depth. fold (levels sub). lia.
Qed.

Lemma in_flight_tally s : in_flight (actions s) = fst (tally s).
Proof.
  unfold in_flight, tally.
  assert (E : forall l st, fst (fold_left peak_step l st) = fold_left in_flight_step l (fst st)).
  { induction l as [|a l IH]; intros st; [reflexivity|]. simpl. rewrite IH. reflexivity. }
  rewrite E. reflexivity.
Qed.

(** X15. For every directory tree, [wipe_folder_recursive] never has more
    than [64 + 63 * d] threads created and not yet joined, [d] being the
    number of nested directory levels below the one it is called on
    (so at most 64 on a directory without sub-directories), and when it
    returns none is left in flight. *)
Theorem folder_threads_bounded_by_depth basePath meth entries :
  let s := snd (wipe_folder_recursive basePath meth (Some entries) (mk_sched 0 [])) in
  (peak_in_flight (actions s) <= 64 + 63 * levels entries)%nat /\
  in_flight (actions s) = 0%nat.
Proof.
  cbv zeta. unfold wipe_folder_recursive. cbn [snd].
  assert (H0 : frame_ok 0 0 (new_frame (mk_sched 0 []))).
  { unfold frame_ok, new_frame. simpl. unfold MAX_THREADS. repeat split; lia. }
  assert (Hall : Forall visit_ok entries).
  { apply Forall_forall. intros e _. apply visit_ok_all. }
  pose proof (readdir_loop_ok basePath meth entries _ _ _ Hall H0) as Hin.
  destruct (finish_tally basePath _ _ _ Hin) as (Hc & Hp).
  split.
  - unfold peak_in_flight. fold (tally (finish basePath
        (readdir_loop basePath meth entries (new_frame (mk_sched 0 []))))). lia.
  - rewrite in_flight_tally. exact Hc.
Qed.

(** ** One task per file, every thread joined once *)

Lemma spawns_app l1 l2 : spawns (l1 ++ l2) = (spawns l1 ++ spawns l2)%list.
Proof. apply omap_app. Qed.

Lemma joins_app l1 l2 : joins (l1 ++ l2) = (joins l1 ++ joins l2)%list.
Proof. apply omap_app. Qed.

Lemma joins_map_Join l : joins (map Join l) = l.
Proof. induction l as [|x l IH]; [reflexivity|]. unfold joins in *. simpl. f_equal. exact IH. Qed.

Lemma spawns_map_Join l : spawns (map Join l) = [].
Proof. induction l as [|x l IH]; [reflexivity|]. exact IH. Qed.

(** Joining what the frame holds keeps the scheduler sound. *)
Lemma join_all_sound pend fr :
  sched_ok (take (thread_count fr) (hThreads fr) ++ pend)%list (sch fr) ->
  sched_ok pend (join_all fr).
Proof.
  intros (Hsp & Hj). unfold sched_ok, join_all. cbn [actions created].
  rewrite spawns_app, spawns_map_Join, app_nil_r, joins_app, joins_map_Join.
  split; [exact Hsp|]. rewrite <- app_assoc. exact Hj.
Qed.

Lemma finish_sound basePath pend fr :
  frame_sound pend fr ->
  sched_ok pend (finish basePath fr) /\
  spawns (actions (finish basePath fr)) = spawns (actions (sch fr)).
Proof.
  intros (Hlen & Htc & Hok).
  unfold finish, rmdir.
  destruct (Nat.ltb_spec 0 (thread_count fr)) as [Hpos|Hzero].
  - pose proof (join_all_sound pend fr Hok) as (Hsp & Hj).
    unfold sched_ok. cbn [actions created].
    rewrite spawns_app, joins_app, !app_nil_r. split; [split; assumption|].
    unfold join_all. cbn [actions]. rewrite spawns_app, spawns_map_Join, app_nil_r.
    reflexivity.
  - assert (E : thread_count fr = 0%nat) by lia. rewrite E in Hok. simpl in Hok.
    destruct Hok as (Hsp & Hj).
    unfold sched_ok. cbn [actions created].
    rewrite spawns_app, joins_app, !app_nil_r. auto.
Qed.

Lemma visit_sound_plain e : not_directory e -> visit_sound e.
Proof.
  intros He basePath meth fr pend (Hlen & Htc & Hsp & Hj).
  destruct (strcmp_is_0 (d_name_of e) "." || strcmp_is_0 (d_name_of e) "..") eqn:Hdot.
  { rewrite (visit_dot _ _ _ _ Hdot).
    split; [unfold frame_sound, sched_ok; auto|].
    destruct e; simpl in *; rewrite Hdot, app_nil_r; reflexivity. }
  unfold MAX_THREADS in *.
  destruct e as [n|n ok|n ok sub]; [| |contradiction]; simpl in Hdot |- *; rewrite Hdot.
  { split; [unfold frame_sound, sched_ok, MAX_THREADS; auto|]. rewrite app_nil_r. reflexivity. }
  destruct ok.
  2:{ split; [unfold frame_sound, sched_ok, MAX_THREADS; auto|]. rewrite app_nil_r. reflexivity. }
  unfold pthread_create.
  set (info := mk_info _ _).
  set (s1 := mk_sched _ _).
  set (h1 := <[thread_count fr := created (sch fr)]> (hThreads fr)).
  assert (Htake : take (S (thread_count fr)) h1
                  = (take (thread_count fr) (hThreads fr) ++ [created (sch fr)])%list).
  { unfold h1. rewrite (take_S_r _ _ (created (sch fr)))
      by (apply list_lookup_insert_eq; lia).
    rewrite take_insert_ge by lia. reflexivity. }
  assert (Hs1 : sched_ok (take (S (thread_count fr)) h1 ++ pend)%list s1).
  { unfold sched_ok, s1. cbn [actions created].
    rewrite spawns_app, joins_app, map_app, Hsp, seq_S. simpl. rewrite app_nil_r.
    split; [reflexivity|].
    rewrite Htake, <- Hj.
    rewrite <- !app_assoc. apply Permutation_app_head, Permutation_app_head.
    simpl. apply Permutation_cons_append. }
  assert (Htasks : map snd (spawns (actions s1))
                   = (map snd (spawns (actions (sch fr))) ++ [info])%list).
  { unfold s1. cbn [actions]. rewrite spawns_app, map_app. reflexivity. }
  cbn [thread_count].
  destruct (Nat.eqb_spec (thread_count fr) 63) as [Efull|Enot].
  - cbn [sch hThreads thread_count]. split.
    + unfold frame_sound, MAX_THREADS. cbn [hThreads thread_count sch].
      split; [unfold h1; rewrite length_insert; exact Hlen|]. split; [lia|].
      simpl take. simpl app.
      apply (join_all_sound pend (mk_frame h1 (S (thread_count fr)) s1)). exact Hs1.
    + unfold join_all. cbn [actions sch]. rewrite spawns_app, spawns_map_Join, app_nil_r.
      exact Htasks.
  - cbn [sch hThreads thread_count]. split.
    + unfold frame_sound, MAX_THREADS. cbn [hThreads thread_count sch].
      split; [unfold h1; rewrite length_insert; exact Hlen|]. split; [lia|exact Hs1].
    + exact Htasks.
Qed.

Lemma readdir_loop_sound basePath meth entries : forall fr pend,
  Forall visit_sound entries ->
  frame_sound pend fr ->
  frame_sound pend (readdir_loop basePath meth entries fr) /\
  map snd (spawns (actions (sch (readdir_loop basePath meth entries fr))))
  = (map snd (spawns (actions (sch fr)))
       ++ flat_map (tasks_of basePath meth) entries)%list.
Proof.
  unfold readdir_loop.
  induction entries as [|e l IH]; intros fr pend Hall Hfr.
  - simpl. rewrite app_nil_r. auto.
  - inversion Hall as [|? ? He Hl]; subst. simpl.
    destruct (He basePath meth fr pend Hfr) as (Hfr1 & Ht1).
    destruct (IH _ pend Hl Hfr1) as (Hfr2 & Ht2).
    split; [exact Hfr2|]. rewrite Ht2, Ht1, <- app_assoc. reflexivity.
Qed.

Lemma visit_sound_all : forall e, visit_sound e.
Proof.
  apply node_nested_ind.
  - intros n. apply visit_sound_plain. exact I.
  - intros n ok. apply visit_sound_plain. exact I.
  - intros n ok sub Hsub basePath meth fr pend Hfr.
    destruct (strcmp_is_0 n "." || strcmp_is_0 n "..") eqn:Hdot.
    { rewrite (visit_dot _ _ (Directory n ok sub) _ Hdot).
      split; [exact Hfr|]. simpl. rewrite Hdot, app_nil_r. reflexivity. }
    destruct (visit_directory basePath meth n ok sub fr Hdot) as (Es & Eh & Et).
    destruct Hfr as (Hlen & Htc & Hok).
    unfold frame_sound. rewrite Eh, Et, Es.
    simpl tasks_of. rewrite Hdot.
    destruct ok.
    2:{ simpl. rewrite app_nil_r. auto. }
    unfold wipe_folder_recursive. cbn [snd].
    assert (Hnew : frame_sound (take (thread_count fr) (hThreads fr) ++ pend)%list
                     (new_frame (sch fr))).
    { unfold frame_sound, new_frame. cbn [hThreads thread_count sch].
      rewrite length_replicate. unfold MAX_THREADS.
      split; [reflexivity|]. split; [lia|]. simpl. exact Hok. }
    destruct (readdir_loop_sound (snprintf_path basePath n) meth sub _ _ Hsub Hnew)
      as (Hin & Htasks).
    destruct (finish_sound (snprintf_path basePath n) _ _ Hin) as (Hfin & Hsame).
    split; [split; [exact Hlen|split; [exact Htc|exact Hfin]]|].
    rewrite Hsame. exact Htasks.
Qed.

(** X16. For every directory tree, [wipe_folder_recursive] hands out one
    task per regular file, in [readdir] order, sub-directories included,
    each with the file's path and the method (skipping ["."], [".."],
    entries [stat] fails on, files [malloc] fails for and directories
    that do not open); the threads are numbered in that order, and when
    the call returns every thread created has been joined exactly once. *)
Theorem folder_one_task_per_file basePath meth entries :
  let s := snd (wipe_folder_recursive basePath meth (Some entries) (mk_sched 0 [])) in
  let tasks := flat_map (tasks_of basePath meth) entries in
  map snd (spawns (actions s)) = tasks /\
  map fst (spawns (actions s)) = seq 0 (length tasks) /\
  joins (actions s) ≡ₚ seq 0 (length tasks) /\
  created s = length tasks.
Proof.
  cbv zeta. unfold wipe_folder_recursive. cbn [snd].
  assert (H0 : frame_sound [] (new_frame (mk_sched 0 []))).
  { unfold frame_sound, new_frame, sched_ok. simpl. unfold MAX_THREADS.
    repeat split; try reflexivity; lia. }
  assert (Hall : Forall visit_sound entries).
  { apply Forall_forall. intros e _. apply visit_sound_all. }
  destruct (readdir_loop_sound basePath meth entries _ _ Hall H0) as (Hin & Htasks).
  destruct (finish_sound basePath _ _ Hin) as ((Hsp & Hj) & Hsame).
  simpl in Htasks. rewrite <- Hsame in Htasks.
  set (s := finish basePath _) in *.
  assert (Hlen : created s = length (flat_map (tasks_of basePath meth) entries)).
  { assert (L1 : length (spawns (actions s)) = created s).
    { rewrite <- (length_map fst), Hsp. apply length_seq. }
    rewrite <- Htasks, length_map. symmetry. exact L1. }
  split; [exact Htasks|]. rewrite <- Hlen.
  split; [exact Hsp|]. split; [|reflexivity].
  rewrite app_nil_r in Hj. exact Hj.
Qed.

Lemma rmdirs_app l1 l2 : rmdirs (l1 ++ l2) = (rmdirs l1 ++ rmdirs l2)%list.
Proof. apply omap_app. Qed.

Lemma rmdirs_map_Join l : rmdirs (map Join l) = [].
Proof. induction l as [|x l IH]; [reflexivity|]. exact IH. Qed.

Lemma finish_rmdirs basePath fr :
  rmdirs (actions (finish basePath fr)) = (rmdirs (actions (sch fr)) ++ [basePath])%list.
Proof.
  unfold finish, rmdir. cbn [actions]. rewrite rmdirs_app.
  destruct (0 <? thread_count fr)%nat; [|reflexivity].
  unfold join_all. cbn [actions]. rewrite rmdirs_app, rmdirs_map_Join, app_nil_r.
  reflexivity.
Qed.

Lemma visit_rmdirs_plain e : not_directory e -> visit_rmdirs e.
Proof.
  intros He basePath meth fr.
  destruct (strcmp_is_0 (d_name_of e) "." || strcmp_is_0 (d_name_of e) "..") eqn:Hdot.
  { rewrite (visit_dot _ _ _ _ Hdot).
    destruct e; simpl in *; rewrite Hdot, app_nil_r; reflexivity. }
  destruct e as [n|n ok|n ok sub]; [| |contradiction]; simpl in Hdot |- *; rewrite Hdot.
  { rewrite app_nil_r. reflexivity. }
  destruct ok; [|rewrite app_nil_r; reflexivity].
  unfold pthread_create. cbn [thread_count].
  destruct (_ =? _)%nat; cbn [sch]; unfold join_all; cbn [actions sch];
    rewrite ?rmdirs_app, ?rmdirs_map_Join, !app_nil_r; reflexivity.
Qed.

Lemma readdir_loop_rmdirs basePath meth entries : forall fr,
  Forall visit_rmdirs entries ->
  rmdirs (actions (sch (readdir_loop basePath meth entries fr)))
  = (rmdirs (actions (sch fr)) ++ flat_map (rmdirs_of basePath) entries)%list.
Proof.
  unfold readdir_loop.
  induction entries as [|e l IH]; intros fr Hall.
  - simpl. rewrite app_nil_r. reflexivity.
  - inversion Hall as [|? ? He Hl]; subst. simpl.
    rewrite (IH _ Hl), (He basePath meth fr), <- app_assoc. reflexivity.
Qed.

Lemma visit_rmdirs_all : forall e, visit_rmdirs e.
Proof.
  apply node_nested_ind.
  - intros n. apply visit_rmdirs_plain. exact I.
  - intros n ok. apply visit_rmdirs_plain. exact I.
  - intros n ok sub Hsub basePath meth fr.
    destruct (strcmp_is_0 n "." || strcmp_is_0 n "..") eqn:Hdot.
    { rewrite (visit_dot _ _ (Directory n ok sub) _ Hdot).
      simpl. rewrite Hdot, app_nil_r. reflexivity. }
    destruct (visit_directory basePath meth n ok sub fr Hdot) as (Es & _).
    rewrite Es. simpl rmdirs_of. rewrite Hdot.
    destruct ok; [|simpl; rewrite app_nil_r; reflexivity].
    unfold wipe_folder_recursive. cbn [snd].
    rewrite finish_rmdirs, (readdir_loop_rmdirs _ _ _ _ Hsub), <- app_assoc.
    reflexivity.
Qed.

(** X17. For every directory tree, [wipe_folder_recursive] calls [rmdir]
    exactly once on every directory it could open, each directory after
    all directories inside it and the directory it was called on last;
    directories that do not open are never passed to [rmdir]. *)
Theorem folder_rmdir_post_order basePath meth entries :
  rmdirs (actions (snd (wipe_folder_recursive basePath meth (Some entries)
                          (mk_sched 0 []))))
  = (flat_map (rmdirs_of basePath) entries ++ [basePath])%list.
Proof.
  unfold wipe_folder_recursive. cbn [snd].
  rewrite finish_rmdirs, readdir_loop_rmdirs.
  - reflexivity.
  - apply Forall_forall. intros e _. apply visit_rmdirs_all.
Qed.

(** ** The entry point *)

Lemma init_buffers_fs rv w :
  fs (run (init_buffers rv) w) = fs w /\
  open_files (run (init_buffers rv) w) = open_files w /\
  trace (run (init_buffers rv) w) = trace w /\
  io_plan (run (init_buffers rv) w) = io_plan w.
Proof.
  unfold init_buffers, run. destruct (g_zero_buffer (buffers w)); auto.
Qed.

(** X18. A command line that does not have exactly three arguments, or
    whose first argument is none of [--file], [--folder] and [--disk],
    makes [main] return 1 without opening, writing or removing anything;
    with the wrong number of arguments not even the buffers are set up. *)
Theorem main_rejects_bad_command_line cs rand_seq now op folder argv w :
  length argv <> 4%nat \/
  (nth 1 argv "" <> "--file" /\ nth 1 argv "" <> "--folder" /\ nth 1 argv "" <> "--disk") ->
  let w' := run (main cs rand_seq now op folder argv) w in
  result (main cs rand_seq now op folder argv) w = 1 /\
  fs w' = fs w /\ open_files w' = open_files w /\ trace w' = trace w /\
  (length argv <> 4%nat -> w' = w).
Proof.
  intros H. cbv zeta. unfold main.
  destruct (Nat.eqb_spec (length argv) 4) as [E4|N4]; simpl.
  2:{ rewrite run_ret. repeat split; reflexivity. }
  destruct H as [H|(N1 & N2 & N3)]; [contradiction|].
  unfold strcmp_is_0. apply String.eqb_neq in N1, N2, N3. rewrite N1, N2, N3.
  pose proof (init_buffers_fs (rand_seq 1) w) as (Hf & Ho & Ht & _).
  unfold run, result, mbind, M_bind, cleanup_buffers, modify in *.
  destruct (init_buffers (rand_seq 1) w) as [u w1]. simpl in *.
  repeat split; try assumption. intros N. contradiction.
Qed.

Lemma main_rejects_bad_command_line_witness :
  result (main true (fun _ => lcg) 0 (overwrite_pass_simd true lcg)
            (fun _ _ => mret 0) ["wipe"; "--files"; "a.bin"; "--clear"])
         (sample_world []) = 1 /\
  fs (run (main true (fun _ => lcg) 0 (overwrite_pass_simd true lcg)
             (fun _ _ => mret 0) ["wipe"; "--files"; "a.bin"; "--clear"])
          (sample_world [])) = fs (sample_world []).
Proof.
  destruct (main_rejects_bad_command_line true (fun _ => lcg) 0
              (overwrite_pass_simd true lcg) (fun _ _ => mret 0)
              ["wipe"; "--files"; "a.bin"; "--clear"] (sample_world []))
    as (Hr & Hf & _).
  - right. repeat split; discriminate.
  - split; [exact Hr|exact Hf].
Defined.

Lemma wipe_file_result cs rv path meth ipf w :
  result (wipe_file cs rv path meth ipf) w
  = match fs w !! path with
    | Some fl => if f_openable fl && f_removable fl then 0 else 1
    | None => 1
    end.
Proof.
  destruct (fs w !! path) as [fl|] eqn:Hf.
  2:{ unfold wipe_file, result, mbind, M_bind, sys_open. rewrite Hf. reflexivity. }
  destruct (f_openable fl) eqn:Hopen.
  2:{ unfold wipe_file, result, mbind, M_bind, sys_open. rewrite Hf, Hopen. reflexivity. }
  destruct (wipe_file_shape cs rv path meth ipf w fl Hf Hopen)
    as (body & _ & _ & _ & _ & Hres & _).
  rewrite Hres. reflexivity.
Qed.

(** X19. [main] called with [--file path method] returns 0 exactly when
    the file can be opened and its entry removed, whatever the method
    string is and whatever the write calls did; otherwise it returns 1. *)
Theorem main_file_exit_code cs rand_seq now op folder prog path meth w :
  let code := result (main cs rand_seq now op folder [prog; "--file"; path; meth]) w in
  (code = 0 <->
   exists fl, fs w !! path = Some fl /\ f_openable fl = true /\ f_removable fl = true) /\
  (code = 0 \/ code = 1).
Proof.
  cbv zeta. unfold main.
  change (negb (length [prog; "--file"; path; meth] =? 4)%nat) with false.
  cbv iota zeta. cbn [nth].
  change (strcmp_is_0 "--file" "--file") with true. cbv iota.
  pose proof (init_buffers_fs (rand_seq 1) w) as (Hf & _).
  rewrite !result_bind, ?run_bind. unfold cleanup_buffers. rewrite ?result_ret.
  rewrite wipe_file_result.
  change (fs (run (modify (set_rand_calls 0)) ?x)) with (fs x). rewrite Hf.
  destruct (fs w !! path) as [fl|].
  - destruct (f_openable fl) eqn:E1, (f_removable fl) eqn:E2; simpl;
      (split; [split; [intros; try discriminate; eauto
                      |intros (fl' & [= <-] & ? & ?); congruence]|auto]).
  - split; [split; [discriminate|intros (fl' & ? & _); discriminate]|auto].
Qed.

Lemma wipe_disk_raw_result op path meth w :
  result (wipe_disk_raw op path meth) w
  = match fs w !! path with
    | Some fl =>
        if f_openable fl then match f_dev_size fl with Some _ => 0 | None => 1 end else 1
    | None => 1
    end.
Proof.
  destruct (fs w !! path) as [fl|] eqn:Hf.
  2:{ unfold wipe_disk_raw, result, mbind, M_bind, sys_open. rewrite Hf. reflexivity. }
  destruct (f_openable fl) eqn:Hopen.
  2:{ unfold wipe_disk_raw, result, mbind, M_bind, sys_open. rewrite Hf, Hopen. reflexivity. }
  destruct (f_dev_size fl) as [sz|] eqn:Hsz.
  - unfold result. rewrite (wipe_disk_parts op path meth w fl sz Hf Hopen Hsz).
    fold (result (disk_passes op meth (lowest_free_fd (open_files w)) sz;;
                  sys_close (lowest_free_fd (open_files w));;
                  log (EvReport Disk_wiped);; mret 0)
                 (just_opened path (lowest_free_fd (open_files w)) w)).
    rewrite !result_bind. reflexivity.
  - unfold wipe_disk_raw, result, mbind, M_bind, sys_open. rewrite Hf, Hopen.
    unfold ioctl_blkgetsize64, file_of. simpl. rewrite lookup_insert_eq. simpl.
    rewrite Hf. simpl. rewrite Hsz. reflexivity.
Qed.

(** X20. [main] called with [--disk path method] returns 0 exactly when
    the device can be opened and reports a size, whatever the method
    string is and whatever the pass routine does; otherwise it returns 1. *)
Theorem main_disk_exit_code cs rand_seq now op folder prog path meth w :
  let code := result (main cs rand_seq now op folder [prog; "--disk"; path; meth]) w in
  (code = 0 <->
   exists fl, fs w !! path = Some fl /\ f_openable fl = true /\ is_Some (f_dev_size fl)) /\
  (code = 0 \/ code = 1).
Proof.
  cbv zeta. unfold main.
  change (negb (length [prog; "--disk"; path; meth] =? 4)%nat) with false.
  cbv iota zeta. cbn [nth].
  change (strcmp_is_0 "--disk" "--file") with false.
  change (strcmp_is_0 "--disk" "--folder") with false.
  change (strcmp_is_0 "--disk" "--disk") with true. cbv iota.
  pose proof (init_buffers_fs (rand_seq 1) w) as (Hf & _).
  rewrite !result_bind, ?run_bind. unfold cleanup_buffers. rewrite ?result_ret.
  rewrite wipe_disk_raw_result.
  change (fs (run (modify (set_rand_calls 0)) ?x)) with (fs x). rewrite Hf.
  destruct (fs w !! path) as [fl|].
  - destruct (f_openable fl) eqn:E1, (f_dev_size fl) as [sz|] eqn:E2; simpl;
      (split; [split; [intros; try discriminate; eauto
                      |intros (fl' & [= <-] & ? & (? & ?)); congruence]|auto]).
  - split; [split; [discriminate|intros (fl' & ? & _); discriminate]|auto].
Qed.

(** ** Paths and methods handed to the threads *)

Lemma substring_0_length s : forall n,
  String.length (String.substring 0 n s) = Nat.min n (String.length s).
Proof.
  induction s as [|c s IH]; intros [|n]; simpl; try reflexivity.
  rewrite IH. reflexivity.
Qed.

Lemma substring_0_all s : forall n,
  (String.length s <= n)%nat -> String.substring 0 n s = s.
Proof.
  induction s as [|c s IH]; intros [|n] H; simpl in *; try reflexivity; try lia.
  rewrite IH by lia. reflexivity.
Qed.

Lemma string_app_length a b :
  String.length (a +:+ b) = (String.length a + String.length b)%nat.
Proof. induction a as [|c a IH]; simpl; [reflexivity|rewrite IH; reflexivity]. Qed.

(** X21. The path a thread is given is [basePath/name] cut to 259
    characters: exactly [basePath/name] when that fits, a 259-character
    prefix of it otherwise; the method is handed on unchanged when it has
    fewer than 20 characters. *)
Theorem task_path_and_method basePath name meth :
  let full := basePath +:+ "/" +:+ name in
  let info := mk_info (strncpy (snprintf_path basePath name) MAX_PATH) (strncpy meth 20) in
  String.length (filepath info) = Nat.min 259 (String.length basePath + 1 + String.length name) /\
  filepath info = String.substring 0 259 full /\
  ((String.length basePath + 1 + String.length name <= 259)%nat -> filepath info = full) /\
  ((String.length meth < 20)%nat -> method info = meth).
Proof.
  cbv zeta. cbn [filepath method]. unfold strncpy, snprintf_path, MAX_PATH.
  change (260 - 1)%nat with 259%nat.
  set (full := basePath +:+ "/" +:+ name).
  assert (Hfull : String.length full = (String.length basePath + 1 + String.length name)%nat).
  { unfold full. rewrite !string_app_length. simpl. lia. }
  assert (Hcopy : String.substring 0 260 (String.substring 0 259 full)
                  = String.substring 0 259 full).
  { apply substring_0_all. rewrite substring_0_length. lia. }
  rewrite Hcopy, substring_0_length, Hfull.
  split; [reflexivity|]. split; [reflexivity|].
  split; intros H; apply substring_0_all; lia.
Qed.

(** ** The bytes behind the announced schedule *)

Lemma seq_run {B} (m : M unit) (k : M B) w : (m;; k) w = k (run m w).
Proof. unfold mbind, M_bind, run. destruct (m w) as [[] w1]. reflexivity. Qed.

(** [wipe_file] on a file that opens and seeks is its method dispatch,
    then [fclose] and [remove], run from the [measured] world. *)
Lemma wipe_file_from_measured cs rv path meth ipf w fl :
  fs w !! path = Some fl ->
  f_openable fl = true ->
  f_seekable fl = true ->
  let h := lowest_free_fd (open_files w) in
  wipe_file cs rv path meth ipf w
  = (file_passes cs rv meth h (f_len fl);; close_and_remove path h) (measured path h w).
Proof.
  intros Hf Hopen Hseek. cbv zeta.
  set (h := lowest_free_fd (open_files w)).
  set (w1 := just_opened path h w).
  assert (Ho1 : open_files w1 !! h = Some (mk_ofd path 0)) by apply lookup_insert_eq.
  assert (Hfile1 : file_of h w1 = Some fl).
  { unfold file_of. rewrite Ho1. exact Hf. }
  set (w2 := set_pos h (f_len fl) w1).
  assert (Ho2 : open_files w2 !! h = Some (mk_ofd path (f_len fl))).
  { unfold w2, set_pos. rewrite Ho1. simpl. apply lookup_insert_eq. }
  assert (Hf2 : fs w2 = fs w).
  { unfold w2, set_pos. rewrite Ho1. reflexivity. }
  set (w3 := emit (EvSeekStart h) (set_pos h 0 w2)).
  assert (E3 : w3 = measured path h w).
  { unfold w3, measured. f_equal. fold w1.
    unfold set_pos at 1. rewrite Ho2. simpl.
    unfold w2, set_pos. rewrite Ho1. simpl.
    unfold set_open_files. simpl. rewrite !insert_insert_eq.
    unfold w1, just_opened, emit, set_open_files. simpl. reflexivity. }
  rewrite <- E3.
  unfold wipe_file, mbind, M_bind at 1.
  unfold sys_open at 1. rewrite Hf, Hopen. fold h. fold (just_opened path h w). fold w1.
  unfold M_bind at 1. unfold fseek_end at 1. rewrite Hfile1, Hseek. fold w2.
  unfold M_bind at 1. unfold ftello at 1. unfold file_of. rewrite Ho2. simpl.
  rewrite Hf2, Hf, Hseek.
  unfold M_bind at 1. unfold seek_start at 1, modify. fold w3.
  unfold file_passes, close_and_remove, mbind. reflexivity.
Qed.

Lemma fixed_pass_byte cs rv calls o :
  pass_byte cs rv calls 0 o = 0 /\
  pass_byte cs rv calls 255 o = (if cs then 0 else 255) /\
  pass_byte cs rv calls 170 o = (if cs then 0 else 170) /\
  pass_byte cs rv calls 85 o = 85.
Proof. destruct cs; repeat split; reflexivity. Qed.

(** C2.  The schedule [wipe_file] announces for [--destroy-sw] is not the
    one it applies where plain [char] is signed.  On a file of positive
    size, with the pool filled and no write fault: when the third pass
    starts, passes 1 and 2 have been announced as 0x00 and 0xFF, and every
    byte of the file is 0xFF if [char] is unsigned but 0x00 if it is
    signed; when the fifth pass starts, passes 3 and 4 have been announced
    as 0x00 and 0xAA, and every byte is 0xAA if [char] is unsigned but
    0x00 if it is signed. *)
Theorem destroy_sw_pass_bytes cs rv path ipf w fl :
  fs w !! path = Some fl ->
  f_openable fl = true ->
  f_seekable fl = true ->
  0 < f_len fl < 2 ^ 63 ->
  io_plan w = [] ->
  pool_filled (buffers w) ->
  let h := lowest_free_fd (open_files w) in
  let size := f_len fl in
  let pass n pat := overwrite_pass_simd cs rv 0 (Some h) size n 7 pat in
  let w2 := run (pass 1 0;; pass 2 255) (measured path h w) in
  let w4 := run (pass 3 0;; pass 4 170) w2 in
  wipe_file cs rv path "--destroy-sw" ipf w
    = (pass 5 85;; pass 6 170;; pass 7 char_R;; close_and_remove path h) w4 /\
  passes_of (events_since w w2) = [(1, 7, Pattern_byte 0); (2, 7, Pattern_byte 255)] /\
  passes_of (events_since w2 w4) = [(3, 7, Pattern_byte 0); (4, 7, Pattern_byte 170)] /\
  (exists fl2, fs w2 !! path = Some fl2 /\
     forall o, 0 <= o < size -> f_bytes fl2 o = if cs then 0 else 255) /\
  (exists fl4, fs w4 !! path = Some fl4 /\
     forall o, 0 <= o < size -> f_bytes fl4 o = if cs then 0 else 170).
Proof.
  intros Hf Hopen Hseek Hlen Hplan Hpool. cbv beta zeta.
  set (h := lowest_free_fd (open_files w)).
  set (w0 := measured path h w).
  assert (Hs : 0 <= f_len fl < 2 ^ 64) by lia.
  assert (H0 : banner_of cs 0 = Pattern_byte 0) by (apply banner_of_byte; unfold char_R; lia).
  assert (H255 : banner_of cs 255 = Pattern_byte 255) by (apply banner_of_byte; unfold char_R; lia).
  assert (H170 : banner_of cs 170 = Pattern_byte 170) by (apply banner_of_byte; unfold char_R; lia).
  split.
  { rewrite (wipe_file_from_measured cs rv path "--destroy-sw" ipf w fl Hf Hopen Hseek).
    fold h. fold w0. unfold file_passes.
    replace (0 <? f_len fl) with true by (symmetry; apply Z.ltb_lt; lia).
    change (strcmp_is_0 "--destroy-sw" "--clear") with false.
    change (strcmp_is_0 "--destroy-sw" "--purge") with false.
    change (strcmp_is_0 "--destroy-sw" "--destroy-sw") with true.
    cbv iota.
    rewrite !seq_run, !run_bind. reflexivity. }
  assert (R0 : ready h path w0).
  { unfold ready. split; [exists 0; apply lookup_insert_eq|].
    split; [exists fl; exact Hf|]. split; [exact Hplan|exact Hpool]. }
  rewrite !run_bind.
  set (p := fun n pat => overwrite_pass_simd cs rv 0 (Some h) (f_len fl) n 7 pat).
  change (overwrite_pass_simd cs rv 0 (Some h) (f_len fl) 1 7 0) with (p 1 0).
  change (overwrite_pass_simd cs rv 0 (Some h) (f_len fl) 2 7 255) with (p 2 255).
  change (overwrite_pass_simd cs rv 0 (Some h) (f_len fl) 3 7 0) with (p 3 0).
  change (overwrite_pass_simd cs rv 0 (Some h) (f_len fl) 4 7 170) with (p 4 170).
  destruct (ready_pass cs rv 0 (Some h) path (f_len fl) 1 7 0 w0 Hs R0) as (R1 & _ & _).
  fold (p 1 0) in R1. set (w1 := run (p 1 0) w0) in *.
  destruct (ready_pass cs rv 0 (Some h) path (f_len fl) 2 7 255 w1 Hs R1)
    as (R2 & _ & fl2 & Hf2 & Hb2).
  fold (p 2 255) in R2, Hf2. set (w2 := run (p 2 255) w1) in *.
  destruct (ready_pass cs rv 0 (Some h) path (f_len fl) 3 7 0 w2 Hs R2) as (R3 & _ & _).
  fold (p 3 0) in R3. set (w3 := run (p 3 0) w2) in *.
  destruct (ready_pass cs rv 0 (Some h) path (f_len fl) 4 7 170 w3 Hs R3)
    as (_ & _ & fl4 & Hf4 & Hb4).
  fold (p 4 170) in Hf4. set (w4 := run (p 4 170) w3) in *.
  destruct (pass_block_pass cs rv 0 (Some h) (f_len fl) 1 7 0 w0) as (_ & e1 & T1 & P1 & _).
  destruct (pass_block_pass cs rv 0 (Some h) (f_len fl) 2 7 255 w1) as (_ & e2 & T2 & P2 & _).
  destruct (pass_block_pass cs rv 0 (Some h) (f_len fl) 3 7 0 w2) as (_ & e3 & T3 & P3 & _).
  destruct (pass_block_pass cs rv 0 (Some h) (f_len fl) 4 7 170 w3) as (_ & e4 & T4 & P4 & _).
  fold (p 1 0) in T1. fold (p 2 255) in T2. fold (p 3 0) in T3. fold (p 4 170) in T4.
  fold w1 in T1. fold w2 in T2. fold w3 in T3. fold w4 in T4.
  split.
  { assert (T : trace w2 = (trace w ++ ([EvOpen path h; EvSeekStart h] ++ e1 ++ e2))%list).
    { rewrite T2, T1. unfold w0, measured, just_opened. simpl.
      rewrite <- !app_assoc. reflexivity. }
    rewrite (events_since_app _ _ _ T), !passes_of_app, P1, P2, H0, H255. reflexivity. }
  split.
  { assert (T : trace w4 = (trace w2 ++ (e3 ++ e4))%list).
    { rewrite T4, T3, <- !app_assoc. reflexivity. }
    rewrite (events_since_app _ _ _ T), !passes_of_app, P3, P4, H0, H170. reflexivity. }
  split.
  - exists fl2. split; [exact Hf2|]. intros o Ho. rewrite (Hb2 o Ho).
    apply fixed_pass_byte.
  - exists fl4. split; [exact Hf4|]. intros o Ho. rewrite (Hb4 o Ho).
    apply fixed_pass_byte.
Qed.

(** The theorem at work where [char] is signed, on the ten-byte sample
    file: announced 0xFF and 0xAA, written 0x00. *)
Lemma destroy_sw_pass_bytes_witness :
  let w := sample_world [] in
  let pass n pat := overwrite_pass_simd true lcg 0 (Some 3) 10 n 7 pat in
  let w2 := run (pass 1 0;; pass 2 255) (measured "a.bin" 3 w) in
  let w4 := run (pass 3 0;; pass 4 170) w2 in
  passes_of (events_since w w2) = [(1, 7, Pattern_byte 0); (2, 7, Pattern_byte 255)] /\
  passes_of (events_since w2 w4) = [(3, 7, Pattern_byte 0); (4, 7, Pattern_byte 170)] /\
  (exists fl2, fs w2 !! "a.bin" = Some fl2 /\ forall o, 0 <= o < 10 -> f_bytes fl2 o = 0) /\
  (exists fl4, fs w4 !! "a.bin" = Some fl4 /\ forall o, 0 <= o < 10 -> f_bytes fl4 o = 0).
Proof.
  destruct (destroy_sw_pass_bytes true lcg "a.bin" 0 (sample_world []) ten_As
              eq_refl eq_refl eq_refl (conj eq_refl eq_refl) eq_refl
              (sample_pool_filled []))
    as (_ & Hp2 & Hp4 & Hb2 & Hb4).
  split; [exact Hp2|]. split; [exact Hp4|]. split; [exact Hb2|exact Hb4].
Defined.
